(** * HybridModel: a shallow embedding of src/model/HybridModel.cpp

    The C++ translation unit keeps the whole network in namespace-level
    variables and drives it through [generate_minibatches], [forward_prop],
    [loss], [back_prop], [init_Adam] and [optimize].  This development embeds
    those functions and proves what they do.

    - [double] is IEEE binary64: Rocq's primitive [float].
    - [std::vector] is [list]; [operator[]] past the end is undefined
      behaviour in C++ and is modelled as the error [OutOfRange].
    - [std::map<std::string, _>] is stdpp's [gmap string _]; [operator[]] on a
      missing key inserts a default-constructed value, and so does the model.
    - [std::variant] is an inductive type; [std::get] on the wrong alternative
      throws, modelled as the error [BadVariantAccess].
    - [int] is a 32-bit two's-complement integer and [size_t] a 64-bit
      unsigned one; narrowing and wrap-around are written out with [to_int]
      and [to_size_t].
    - The namespace-level variables form the record [State]; every function
      that touches them is a state transformer with errors.
    - Functions of the repository that live outside this translation unit
      (linalg, MLP, LSTMNetwork) and of the C++ standard library (std::pow,
      std::shuffle) are operations of the classes [Linalg], [Layers] and
      [StdLib]. *)

From Stdlib Require Import ZArith Lia List Permutation Floats Uint63 DecimalString.
From stdpp Require Import gmap strings list fin_maps.

Local Open Scope Z_scope.

(** ** Tensors *)

(** [Matrix] and [Tensor3D] are abbreviations, so that the list lemmas apply
    to them as they stand. *)
Abbreviation Matrix := (list (list float)).
Abbreviation Tensor3D := (list (list (list float))).

(** [std::variant<Matrix, Tensor3D>] (and the [std::variant<Tensor3D, Matrix>]
    parameter of [forward_prop]). *)
Inductive variantTensor : Type :=
| VMatrix (m : Matrix)
| VTensor3D (x : Tensor3D).

Abbreviation minibatch := (Tensor3D * Matrix)%type.

(** ** Machine integers *)

Definition INT_MAX : Z := 2 ^ 31 - 1.

(** Conversion to a 32-bit [int]. *)
Definition to_int (z : Z) : Z := (z + 2 ^ 31) mod 2 ^ 32 - 2 ^ 31.

(** Conversion to a 64-bit [size_t]. *)
Definition to_size_t (z : Z) : Z := z mod 2 ^ 64.

(** [size_t] to [double].  A vector holds fewer than 2^63 elements, the range
    of [of_uint63]. *)
Definition size_to_double (z : Z) : float := PrimFloat.of_uint63 (Uint63.of_Z z).

(** [int] to [double]. *)
Definition int_to_double (z : Z) : float :=
  if z <? 0 then PrimFloat.opp (PrimFloat.of_uint63 (Uint63.of_Z (- z)))
  else PrimFloat.of_uint63 (Uint63.of_Z z).

(** [std::to_string(int)]. *)
Definition to_string (z : Z) : string := NilZero.string_of_int (Z.to_int z).

(** ** Errors *)

Inductive error : Type :=
| OutOfRange (container : string) (index : Z)
| BadVariantAccess (container : string)
| InvalidArgument (msg : string)
| LengthError (container : string)
| IntOverflow (var : string)
| OutOfFuel.

Inductive res (A : Type) : Type :=
| Ret (a : A)
| Throw (e : error).
Arguments Ret {A} a.
Arguments Throw {A} e.

#[global] Instance res_ret : MRet res := fun A a => Ret a.
#[global] Instance res_bind : MBind res := fun A B k r =>
  match r with
  | Ret a => k a
  | Throw e => Throw e
  end.

(** [v[i]] on a vector. *)
Definition at_ {A : Type} (name : string) (v : list A) (i : Z) : res A :=
  if (i <? 0) || (Z.of_nat (length v) <=? i) then Throw (OutOfRange name i)
  else match v !! Z.to_nat i with
       | Some a => Ret a
       | None => Throw (OutOfRange name i)
       end.

(** [v[i] = a] on a vector. *)
Definition assign {A : Type} (name : string) (v : list A) (i : Z) (a : A) : res (list A) :=
  if (i <? 0) || (Z.of_nat (length v) <=? i) then Throw (OutOfRange name i)
  else Ret (<[Z.to_nat i := a]> v).

(** [std::vector<T> v(n, x)]: a count that is negative (as an [int]) or past
    [max_size] (as a [size_t]) throws. *)
Definition alloc {A : Type} (name : string) (n : Z) (x : A) : res (list A) :=
  if (n <? 0) || (2 ^ 63 <=? n) then Throw (LengthError name)
  else Ret (replicate (Z.to_nat n) x).

(** [for (i = lo; i < hi; i++) s = body(i, s)] over a counter that cannot
    overflow: [count] is [hi - lo]. *)
Fixpoint for_up {S : Type} (body : Z -> S -> res S) (lo : Z) (count : nat) (s : S) : res S :=
  match count with
  | O => Ret s
  | Datatypes.S n => body lo s ≫= for_up body (lo + 1) n
  end.

(** [std::get<Tensor3D>(v)] and [std::get<Matrix>(v)]. *)
Definition get_Tensor3D (name : string) (v : variantTensor) : res Tensor3D :=
  match v with
  | VTensor3D x => Ret x
  | VMatrix _ => Throw (BadVariantAccess name)
  end.

Definition get_Matrix (name : string) (v : variantTensor) : res Matrix :=
  match v with
  | VMatrix m => Ret m
  | VTensor3D _ => Throw (BadVariantAccess name)
  end.

(** ** Shape reconciliation *)

(** [Matrix reshape_last_timestep(const Tensor3D& hidden_state)]: the last
    timestep of every example. *)
Definition reshape_last_timestep_3D (hidden_state : Tensor3D) : res Matrix :=
  let batch_size := to_int (Z.of_nat (length hidden_state)) in
  h0 ← at_ "hidden_state" hidden_state 0;
  h00 ← at_ "hidden_state[0]" h0 0;
  let hidden_units := to_int (Z.of_nat (length h00)) in
  row ← alloc "std::vector<double>" hidden_units 0%float;
  reshaped_matrix ← alloc "reshaped_matrix" batch_size row;
  for_up (fun i reshaped_matrix =>
            hi ← at_ "hidden_state" hidden_state i;
            match last hi with
            | None => Throw (InvalidArgument "Hidden state is empty")
            | Some back => assign "reshaped_matrix" reshaped_matrix i back
            end)
         0 (Z.to_nat batch_size) reshaped_matrix.

(** [Tensor3D reshape_last_timestep(const Matrix& hidden_state)]: every row
    repeated over [TIMESTEPS] timesteps, where [TIMESTEPS] is read from the
    first example of the namespace-level [x_train]. *)
Definition reshape_last_timestep_2D (x_train : variantTensor) (hidden_state : Matrix)
  : res Tensor3D :=
  let batch_size := to_int (Z.of_nat (length hidden_state)) in
  h0 ← at_ "hidden_state" hidden_state 0;
  let hidden_units := to_int (Z.of_nat (length h0)) in
  x ← get_Tensor3D "x_train" x_train;
  x0 ← at_ "x_train" x 0;
  let TIMESTEPS := to_int (Z.of_nat (length x0)) in
  row ← alloc "std::vector<double>" hidden_units 0%float;
  mat ← alloc "Matrix" TIMESTEPS row;
  reshaped_tensor ← alloc "reshaped_tensor" batch_size mat;
  for_up (fun i reshaped_tensor =>
            for_up (fun t reshaped_tensor =>
                      hi ← at_ "hidden_state" hidden_state i;
                      ri ← at_ "reshaped_tensor" reshaped_tensor i;
                      ri' ← assign "reshaped_tensor[i]" ri t hi;
                      assign "reshaped_tensor" reshaped_tensor i ri')
                   0 (Z.to_nat TIMESTEPS) reshaped_tensor)
         0 (Z.to_nat batch_size) reshaped_tensor.

(** Every example has at least one timestep. *)
Definition nonempty_examples (x : Tensor3D) : Prop :=
  Forall (fun ex => ex <> []) x.

(** What the specification expects of the round trip: every example's last
    timestep, repeated [T] times. *)
Definition broadcast_last (T : nat) (x : Tensor3D) : Tensor3D :=
  map (fun ex => replicate T (default [] (last ex))) x.

(** ** The C++ standard library *)

Class StdLib : Type := {
  (** [std::pow(double, double)] *)
  std_pow : float -> float -> float;
  (** [std::shuffle(first, last, std::mt19937(seed))] *)
  std_shuffle : Z -> list Z -> list Z
}.

(** ** Minibatch generation *)

(** The indices [0, 1, ..., m-1]. *)
Definition iota (m : nat) : list Z := map Z.of_nat (seq 0 m).

(** The chunk sizes the specification promises for [r] examples and batch
    size [b]: [r / b] full chunks, then the remainder if there is one. *)
Definition chunk_sizes (b r : nat) : list nat :=
  replicate (r / b) b ++ (if (r mod b =? 0)%nat then [] else [(r mod b)%nat]).

Section Minibatches.
Context {std : StdLib}.

(** The body of [for (size_t k = 0; k < m; k += batch_size)].  The loop
    need not terminate ([batch_size = 0]); [fuel] bounds the number of
    iterations the model follows. *)
Fixpoint minibatch_loop (fuel : nat) (X shuffled_X : Tensor3D) (shuffled_Y : Matrix)
    (m batch_size k : Z) (minibatches : list minibatch) : res (list minibatch) :=
  if k <? m then
    match fuel with
    | O => Throw OutOfFuel
    | Datatypes.S fuel' =>
      let end_ := to_int (Z.min (to_size_t (k + batch_size)) m) in
      x0 ← at_ "X" X 0;
      x00 ← at_ "X[0]" x0 0;
      minibatch_X ← alloc "minibatch_X" (to_size_t (end_ - k))
                       (replicate (length x0) (replicate (length x00) 0%float));
      minibatch_Y ← alloc "minibatch_Y" (to_size_t (end_ - k)) [0%float];
      mb ← for_up (fun i (mb : minibatch) =>
                     sx ← at_ "shuffled_X" shuffled_X (to_size_t i);
                     mx ← assign "minibatch_X" mb.1 (to_size_t (i - k)) sx;
                     sy ← at_ "shuffled_Y" shuffled_Y (to_size_t i);
                     my ← assign "minibatch_Y" mb.2 (to_size_t (i - k)) sy;
                     Ret (mx, my))
                  (to_int k) (Z.to_nat (end_ - to_int k)) (minibatch_X, minibatch_Y);
      minibatch_loop fuel' X shuffled_X shuffled_Y m batch_size
                     (to_size_t (k + batch_size)) (minibatches ++ [mb])
    end
  else Ret minibatches.

(** [std::vector<minibatch> generate_minibatches(const Tensor3D& X,
    const Matrix& Y, const int batch_size, const int seed)] *)
Definition generate_minibatches (X : Tensor3D) (Y : Matrix) (batch_size seed : Z)
  : res (list minibatch) :=
  let m := Z.of_nat (length X) in
  permutation ← alloc "permutation" m 0;
  (* [for (int i = 0; i < m; i++)]: [i++] overflows when [m > INT_MAX] *)
  permutation ← (if INT_MAX <? m then Throw (IntOverflow "i")
                 else for_up (fun i p => assign "permutation" p i i)
                             0 (Z.to_nat m) permutation);
  let permutation := std_shuffle seed permutation in
  x0 ← at_ "X" X 0;
  x00 ← at_ "X[0]" x0 0;
  shuffled_X ← alloc "shuffled_X" m
                  (replicate (length x0) (replicate (length x00) 0%float));
  shuffled_Y ← alloc "shuffled_Y" m [0%float];
  shuffled ← for_up (fun i (sh : Tensor3D * Matrix) =>
                       p ← at_ "permutation" permutation i;
                       xp ← at_ "X" X (to_size_t p);
                       sx ← assign "shuffled_X" sh.1 i xp;
                       p ← at_ "permutation" permutation i;
                       yp ← at_ "Y" Y (to_size_t p);
                       sy ← assign "shuffled_Y" sh.2 i yp;
                       Ret (sx, sy))
                    0 (Z.to_nat m) (shuffled_X, shuffled_Y);
  minibatch_loop (Datatypes.S (length X)) X shuffled.1 shuffled.2 m batch_size 0 [].

End Minibatches.

(** ** Loss *)

Section Loss.
Context {std : StdLib}.
Local Open Scope float_scope.

(** [double MSE(const std::vector<double>& pred, const std::vector<double>& target)] *)
Definition MSE (pred target : list float) : res float :=
  if negb (Z.of_nat (length pred) =? Z.of_nat (length target))%Z
  then Throw (InvalidArgument "Prediction and target sizes do not match")
  else
    loss ← for_up (fun i loss =>
                     p ← at_ "pred" pred i;
                     t ← at_ "target" target i;
                     Ret (loss + std_pow (p - t) 2))
                  0%Z (length pred) 0;
    Ret (loss / size_to_double (to_size_t (2 * Z.of_nat (length pred)))).

(** The loss as the specification words it: the sum of the squared
    differences, divided by twice the number of elements. *)
Definition sum_squared_error (pred target : list float) : float :=
  fold_left (fun acc pt => acc + std_pow (fst pt - snd pt) 2) (combine pred target) 0.

Definition MSE_formula (pred target : list float) : float :=
  sum_squared_error pred target / size_to_double (to_size_t (2 * Z.of_nat (length pred))).

End Loss.

(** A double that is neither an infinity nor a NaN. *)
Definition is_finite_double (x : float) : bool :=
  match Prim2SF x with
  | S754_zero _ | S754_finite _ _ _ => true
  | S754_infinity _ | S754_nan => false
  end.

(** ** Instances used to exhibit concrete runs

    [pow_small] agrees with [std::pow] on the exponents 0, 1 and 2 (a
    correctly rounded square); [rev] is one of the permutations
    [std::shuffle] may produce. *)
Definition pow_small (x y : float) : float :=
  if PrimFloat.eqb y 0 then 1%float
  else if PrimFloat.eqb y 1 then x
  else PrimFloat.mul x x.

Definition stdlib_small : StdLib :=
  {| std_pow := pow_small; std_shuffle := fun _ l => rev l |}.

(** ** Dictionaries, caches and gradients *)

(** [std::map<std::string, Matrix>] and [std::map<std::string, variantTensor>]. *)
Abbreviation matrixDict := (gmap string Matrix).
Abbreviation gradientDict := (gmap string variantTensor).

(** [d[key]] on a [matrixDict]: the value, and the dictionary afterwards (a
    missing key is inserted with an empty matrix). *)
Definition dict_index (d : matrixDict) (key : string) : Matrix * matrixDict :=
  match d !! key with
  | Some m => (m, d)
  | None => ([], <[key := []]> d)
  end.

(** [g[key]] on a [gradientDict]: a missing key is inserted with the
    variant's first alternative, an empty [Matrix]. *)
Definition grad_index (g : gradientDict) (key : string) : variantTensor * gradientDict :=
  match g !! key with
  | Some v => (v, g)
  | None => (VMatrix [], <[key := VMatrix []]> g)
  end.

(** The LSTM cache tuples of the header:
    [std::tuple<Matrix x 9, matrixDict>] and
    [std::tuple<Tensor3D, Tensor3D, Tensor3D, std::tuple<std::vector<cacheTuple>, Tensor3D>>]. *)
Abbreviation cacheTuple :=
  (Matrix * Matrix * Matrix * Matrix * Matrix * Matrix * Matrix * Matrix * Matrix
   * matrixDict)%type.
Abbreviation LSTMCache :=
  (Tensor3D * Tensor3D * Tensor3D * (list cacheTuple * Tensor3D))%type.

(** [std::variant<LSTMCache, matrixDict>], an entry of [UnifiedCache]. *)
Inductive cache_entry : Type :=
| CacheLSTM (c : LSTMCache)
| CacheDict (d : matrixDict).

(** [std::variant<gradientDict, matrixDict>], an entry of [UnifiedGradients]. *)
Inductive grad_entry : Type :=
| GradVariants (g : gradientDict)
| GradMatrices (d : matrixDict).

(** [activations::relu] and [activations::linear], passed by name. *)
Inductive activation : Type := relu | linear.

(** ** The rest of the repository

    linalg, MLP and LSTMNetwork are not part of this translation unit; their
    functions are taken as total and free of side effects. *)

Class Linalg : Type := {
  generateZeros : Z -> Z -> Matrix;
  linalg_transpose : Matrix -> Matrix;
  linalg_reshape : Matrix -> list float;
  linalg_add : Matrix -> Matrix -> Matrix;
  linalg_add_scalar : Matrix -> float -> Matrix;
  linalg_subtract : Matrix -> Matrix -> Matrix;
  linalg_division : Matrix -> Matrix -> Matrix;
  linalg_division_scalar : Matrix -> float -> Matrix;
  scalarMultiply : float -> Matrix -> Matrix;
  linalg_pow : Matrix -> float -> Matrix;
  linalg_sqrt : Matrix -> Matrix
}.

Class Layers : Type := {
  (** [LSTMNetwork::init_params(n_input, n_hidden, n_output, layer)] *)
  init_params : Z -> Z -> Z -> Z -> matrixDict;
  (** [MLP::init_mlp_params(layer_dims, layer)] *)
  init_mlp_params : list Z -> Z -> matrixDict;
  (** [LSTMNetwork::lstm_forward(x, a0, params, layer)] *)
  lstm_forward : Tensor3D -> Matrix -> matrixDict -> Z -> LSTMCache;
  (** [MLP::Dense(a_in, params, activation, layer, first_mlp)] *)
  Dense : Matrix -> matrixDict -> activation -> Z -> bool -> Matrix * matrixDict;
  (** [LSTMNetwork::lstm_backprop(da, caches, layer)] *)
  lstm_backprop : Tensor3D -> list cacheTuple * Tensor3D -> Z -> gradientDict;
  (** [MLP::mlp_backward(a_in, dA, y, cache, layer, activation)] *)
  mlp_backward : Matrix -> Matrix -> Matrix -> matrixDict -> Z -> activation -> matrixDict
}.

(** ** The namespace-level state *)

(** What a run did, in order: the calls into the layers and the two
    reshape branches of [back_prop]. *)
Inductive event : Type :=
| CallLstmForward (layer : Z) (x : Tensor3D) (a0 : Matrix)
| CallDense (layer : Z) (input : Matrix) (first_mlp : bool)
| ReshapeInLSTMBranch (layer : Z)
| ReshapeInMLPBranch (layer : Z)
| ReadAdamParams (l : Z).

Record State : Type := {
  (* Global model parameters *)
  layer_types : list string;
  layer_dims : list Z;
  layer_params : list (gmap string Matrix);
  learning_rate : float;
  (* Forward prop variables *)
  cache : list cache_entry;
  finalPrediction : Matrix;
  (* Loss *)
  accumulated_loss : float;
  (* Data *)
  x_train : variantTensor;
  y_train : Matrix;
  BATCH_SIZE : Z;
  n_hidden : Z;
  (* Backprop variables *)
  grads : list grad_entry;
  (* Adam optimizer variables *)
  Adam_params : list (list (gmap string Matrix));
  t : Z;
  (* ghost: the calls and branches taken so far, newest last *)
  trace : list event
}.

Definition set_layer_types (v : list string) (s : State) : State :=
  {| layer_types := v; layer_dims := layer_dims s; layer_params := layer_params s;
     learning_rate := learning_rate s; cache := cache s; finalPrediction := finalPrediction
     s; accumulated_loss := accumulated_loss s; x_train := x_train s; y_train := y_train s;
     BATCH_SIZE := BATCH_SIZE s; n_hidden := n_hidden s; grads := grads s; Adam_params :=
     Adam_params s; t := t s; trace := trace s |}.

Definition set_layer_dims (v : list Z) (s : State) : State :=
  {| layer_types := layer_types s; layer_dims := v; layer_params := layer_params s;
     learning_rate := learning_rate s; cache := cache s; finalPrediction := finalPrediction
     s; accumulated_loss := accumulated_loss s; x_train := x_train s; y_train := y_train s;
     BATCH_SIZE := BATCH_SIZE s; n_hidden := n_hidden s; grads := grads s; Adam_params :=
     Adam_params s; t := t s; trace := trace s |}.

Definition set_layer_params (v : list (gmap string Matrix)) (s : State) : State :=
  {| layer_types := layer_types s; layer_dims := layer_dims s; layer_params := v;
     learning_rate := learning_rate s; cache := cache s; finalPrediction := finalPrediction
     s; accumulated_loss := accumulated_loss s; x_train := x_train s; y_train := y_train s;
     BATCH_SIZE := BATCH_SIZE s; n_hidden := n_hidden s; grads := grads s; Adam_params :=
     Adam_params s; t := t s; trace := trace s |}.

Definition set_learning_rate (v : float) (s : State) : State :=
  {| layer_types := layer_types s; layer_dims := layer_dims s; layer_params := layer_params
     s; learning_rate := v; cache := cache s; finalPrediction := finalPrediction s;
     accumulated_loss := accumulated_loss s; x_train := x_train s; y_train := y_train s;
     BATCH_SIZE := BATCH_SIZE s; n_hidden := n_hidden s; grads := grads s; Adam_params :=
     Adam_params s; t := t s; trace := trace s |}.

Definition set_cache (v : list cache_entry) (s : State) : State :=
  {| layer_types := layer_types s; layer_dims := layer_dims s; layer_params := layer_params
     s; learning_rate := learning_rate s; cache := v; finalPrediction := finalPrediction s;
     accumulated_loss := accumulated_loss s; x_train := x_train s; y_train := y_train s;
     BATCH_SIZE := BATCH_SIZE s; n_hidden := n_hidden s; grads := grads s; Adam_params :=
     Adam_params s; t := t s; trace := trace s |}.

Definition set_finalPrediction (v : Matrix) (s : State) : State :=
  {| layer_types := layer_types s; layer_dims := layer_dims s; layer_params := layer_params
     s; learning_rate := learning_rate s; cache := cache s; finalPrediction := v;
     accumulated_loss := accumulated_loss s; x_train := x_train s; y_train := y_train s;
     BATCH_SIZE := BATCH_SIZE s; n_hidden := n_hidden s; grads := grads s; Adam_params :=
     Adam_params s; t := t s; trace := trace s |}.

Definition set_accumulated_loss (v : float) (s : State) : State :=
  {| layer_types := layer_types s; layer_dims := layer_dims s; layer_params := layer_params
     s; learning_rate := learning_rate s; cache := cache s; finalPrediction :=
     finalPrediction s; accumulated_loss := v; x_train := x_train s; y_train := y_train s;
     BATCH_SIZE := BATCH_SIZE s; n_hidden := n_hidden s; grads := grads s; Adam_params :=
     Adam_params s; t := t s; trace := trace s |}.

Definition set_x_train (v : variantTensor) (s : State) : State :=
  {| layer_types := layer_types s; layer_dims := layer_dims s; layer_params := layer_params
     s; learning_rate := learning_rate s; cache := cache s; finalPrediction :=
     finalPrediction s; accumulated_loss := accumulated_loss s; x_train := v; y_train :=
     y_train s; BATCH_SIZE := BATCH_SIZE s; n_hidden := n_hidden s; grads := grads s;
     Adam_params := Adam_params s; t := t s; trace := trace s |}.

Definition set_y_train (v : Matrix) (s : State) : State :=
  {| layer_types := layer_types s; layer_dims := layer_dims s; layer_params := layer_params
     s; learning_rate := learning_rate s; cache := cache s; finalPrediction :=
     finalPrediction s; accumulated_loss := accumulated_loss s; x_train := x_train s;
     y_train := v; BATCH_SIZE := BATCH_SIZE s; n_hidden := n_hidden s; grads := grads s;
     Adam_params := Adam_params s; t := t s; trace := trace s |}.

Definition set_BATCH_SIZE (v : Z) (s : State) : State :=
  {| layer_types := layer_types s; layer_dims := layer_dims s; layer_params := layer_params
     s; learning_rate := learning_rate s; cache := cache s; finalPrediction :=
     finalPrediction s; accumulated_loss := accumulated_loss s; x_train := x_train s;
     y_train := y_train s; BATCH_SIZE := v; n_hidden := n_hidden s; grads := grads s;
     Adam_params := Adam_params s; t := t s; trace := trace s |}.

Definition set_n_hidden (v : Z) (s : State) : State :=
  {| layer_types := layer_types s; layer_dims := layer_dims s; layer_params := layer_params
     s; learning_rate := learning_rate s; cache := cache s; finalPrediction :=
     finalPrediction s; accumulated_loss := accumulated_loss s; x_train := x_train s;
     y_train := y_train s; BATCH_SIZE := BATCH_SIZE s; n_hidden := v; grads := grads s;
     Adam_params := Adam_params s; t := t s; trace := trace s |}.

Definition set_grads (v : list grad_entry) (s : State) : State :=
  {| layer_types := layer_types s; layer_dims := layer_dims s; layer_params := layer_params
     s; learning_rate := learning_rate s; cache := cache s; finalPrediction :=
     finalPrediction s; accumulated_loss := accumulated_loss s; x_train := x_train s;
     y_train := y_train s; BATCH_SIZE := BATCH_SIZE s; n_hidden := n_hidden s; grads := v;
     Adam_params := Adam_params s; t := t s; trace := trace s |}.

Definition set_Adam_params (v : list (list (gmap string Matrix))) (s : State) : State :=
  {| layer_types := layer_types s; layer_dims := layer_dims s; layer_params := layer_params
     s; learning_rate := learning_rate s; cache := cache s; finalPrediction :=
     finalPrediction s; accumulated_loss := accumulated_loss s; x_train := x_train s;
     y_train := y_train s; BATCH_SIZE := BATCH_SIZE s; n_hidden := n_hidden s; grads :=
     grads s; Adam_params := v; t := t s; trace := trace s |}.

Definition set_t (v : Z) (s : State) : State :=
  {| layer_types := layer_types s; layer_dims := layer_dims s; layer_params := layer_params
     s; learning_rate := learning_rate s; cache := cache s; finalPrediction :=
     finalPrediction s; accumulated_loss := accumulated_loss s; x_train := x_train s;
     y_train := y_train s; BATCH_SIZE := BATCH_SIZE s; n_hidden := n_hidden s; grads :=
     grads s; Adam_params := Adam_params s; t := v; trace := trace s |}.

Definition set_trace (v : list event) (s : State) : State :=
  {| layer_types := layer_types s; layer_dims := layer_dims s; layer_params := layer_params
     s; learning_rate := learning_rate s; cache := cache s; finalPrediction :=
     finalPrediction s; accumulated_loss := accumulated_loss s; x_train := x_train s;
     y_train := y_train s; BATCH_SIZE := BATCH_SIZE s; n_hidden := n_hidden s; grads :=
     grads s; Adam_params := Adam_params s; t := t s; trace := v |}.

(** The variables as the translation unit initialises them. *)
Definition initial_state : State :=
  {| layer_types := []; layer_dims := []; layer_params := [];
     learning_rate := 0%float;
     cache := []; finalPrediction := [];
     accumulated_loss := 0%float;
     x_train := VMatrix []; y_train := [[]]; BATCH_SIZE := 0; n_hidden := 0;
     grads := [];
     Adam_params := []; t := 0;
     trace := [] |}.

Definition beta1 : float := 0.9%float.
Definition beta2 : float := 0.999%float.
Definition epsilon : float := 1e-8%float.

(** ** State transformers with errors *)

Inductive outcome (A : Type) : Type :=
| Done (a : A) (s : State)
| Failed (e : error) (s : State).
Arguments Done {A} a s.
Arguments Failed {A} e s.

Definition M (A : Type) : Type := State -> outcome A.

#[global] Instance M_ret : MRet M := fun A a s => Done a s.
#[global] Instance M_bind : MBind M := fun A B k m s =>
  match m s with
  | Done a s' => k a s'
  | Failed e s' => Failed e s'
  end.

(** The state a run ends in, whether it returned or failed. *)
Definition final_state {A : Type} (o : outcome A) : State :=
  match o with
  | Done _ s => s
  | Failed _ s => s
  end.

Definition gets {A : Type} (f : State -> A) : M A := fun s => Done (f s) s.
Definition modify (f : State -> State) : M unit := fun s => Done tt (f s).
Definition liftR {A : Type} (r : res A) : M A :=
  fun s => match r with
           | Ret a => Done a s
           | Throw e => Failed e s
           end.
Definition log (e : event) : M unit := modify (fun s => set_trace (trace s ++ [e]) s).

(** A loop over layer numbers whose body may end early ([continue]). *)
Fixpoint for_each {L : Type} (body : Z -> L -> M L) (idx : list Z) (l : L) : M L :=
  match idx with
  | [] => mret l
  | i :: idx' => l' ← body i l; for_each body idx' l'
  end.

(** The layer numbers [1, ..., n]. *)
Definition layers_up (n : nat) : list Z := map Z.of_nat (seq 1 n).

(** A monadic fold: [for (x : xs) acc = f(acc, x)]. *)
Fixpoint fold_M {A B : Type} (f : B -> A -> M B) (xs : list A) (acc : B) : M B :=
  match xs with
  | [] => mret acc
  | x :: xs' => acc' ← f acc x; fold_M f xs' acc'
  end.

(** [f(s)[i]] on a vector of the state. *)
Definition at_state {A : Type} (name : string) (f : State -> list A) (i : Z) : M A :=
  v ← gets f; liftR (at_ name v i).

(** [layer_params[i] = d], [grads.grads[i] = e] and [Adam_params[i] = e]. *)
Definition assign_layer_params (i : Z) (d : gmap string Matrix) : M unit :=
  ps ← gets layer_params;
  ps' ← liftR (assign "layer_params" ps i d);
  modify (set_layer_params ps').

Definition assign_grads (i : Z) (e : grad_entry) : M unit :=
  gs ← gets grads;
  gs' ← liftR (assign "grads.grads" gs i e);
  modify (set_grads gs').

Definition assign_Adam_params (i : Z) (e : list (gmap string Matrix)) : M unit :=
  ap ← gets Adam_params;
  ap' ← liftR (assign "Adam_params" ap i e);
  modify (set_Adam_params ap').

Definition is_mlp (ty : string) : bool := String.eqb ty "Relu" || String.eqb ty "Linear".

(** ** The model *)

Section Model.
Context {std : StdLib} {la : Linalg} {ly : Layers}.

(** [void init_data(const variantTensor& X, const Matrix& Y, const int batch_size)] *)
Definition init_data (X : variantTensor) (Y : Matrix) (batch_size : Z) : M unit :=
  modify (fun s => set_BATCH_SIZE batch_size (set_y_train Y (set_x_train X s))).

(** [void init_layers(const std::vector<std::string>& layer_type,
    const std::vector<int>& layer_dim)] *)
Definition init_layers (layer_type : list string) (layer_dim : list Z) : M unit :=
  modify (fun s => set_layer_dims layer_dim (set_layer_types layer_type s)).

(** [void init_hidden_units(const int numUnits)] *)
Definition init_hidden_units (numUnits : Z) : M unit := modify (set_n_hidden numUnits).

(** [void init_learning_rate(const double lr = 3e-4)] *)
Definition init_learning_rate (lr : float) : M unit := modify (set_learning_rate lr).

(** [void initialize_network()] *)
Definition initialize_network : M unit :=
  L ← gets (fun s => length (layer_types s));
  for_each (fun i _ =>
      ty ← at_state "layer_types" layer_types (i - 1);
      current_params ←
        (if String.eqb ty "LSTM" then
           xt ← gets x_train;
           match xt with
           | VTensor3D x =>
             n_input ← (if i =? 1 then
                          x0 ← liftR (at_ "x" x 0);
                          x00 ← liftR (at_ "x[0]" x0 0);
                          mret (to_int (Z.of_nat (length x00)))
                        else at_state "layer_dims" layer_dims (i - 2));
             nh ← gets n_hidden;
             n_output ← at_state "layer_dims" layer_dims (i - 1);
             mret (init_params n_input nh n_output i)
           | VMatrix _ => mret ∅
           end
         else if is_mlp ty then
           dims ← gets layer_dims;
           mret (init_mlp_params dims (i - 1))
         else mret ∅);
      modify (fun s => set_layer_params (layer_params s ++ [current_params]) s))
    (layers_up L) tt.

(** *** Forward propagation *)

(** The local variables of [forward_prop] that the loop carries. *)
Record forward_locals : Type := {
  a_out : Matrix;
  first_mlp_encountered : bool;
  new_x_state : Tensor3D;
  new_hidden_state : Tensor3D
}.

(** [if (cache.cache.size() == layer_types.size()) cache.cache[i] = entry;
     else cache.cache.push_back(entry);] *)
Definition store_cache (i : Z) (entry : cache_entry) : M unit :=
  c ← gets cache;
  L ← gets (fun s => length (layer_types s));
  if (length c =? L)%nat then
    c' ← liftR (assign "cache.cache" c i entry);
    modify (set_cache c')
  else modify (set_cache (c ++ [entry])).

(** One iteration of [for (int i = 1; i <= layer_types.size(); i++)]. *)
Definition forward_layer (x_arg : variantTensor) (a_initial : Matrix)
    (i : Z) (loc : forward_locals) : M forward_locals :=
  ty ← at_state "layer_types" layer_types (i - 1);
  if String.eqb ty "LSTM" then
    if i =? 1 then
      x ← liftR (get_Tensor3D "x_train" x_arg);
      params ← at_state "layer_params" layer_params (i - 1);
      log (CallLstmForward i x a_initial);;
      let current_lstm_tuple := lstm_forward x a_initial params i in
      store_cache i (CacheLSTM current_lstm_tuple);;
      mret {| a_out := a_out loc;
              first_mlp_encountered := first_mlp_encountered loc;
              new_x_state := current_lstm_tuple.2.2;
              new_hidden_state := current_lstm_tuple.1.1.1 |}
    else
      a0 ← liftR (reshape_last_timestep_3D (new_hidden_state loc));
      params ← at_state "layer_params" layer_params (i - 1);
      log (CallLstmForward i (new_x_state loc) a0);;
      let current_lstm_tuple := lstm_forward (new_x_state loc) a0 params i in
      store_cache i (CacheLSTM current_lstm_tuple);;
      mret {| a_out := a_out loc;
              first_mlp_encountered := first_mlp_encountered loc;
              new_x_state := current_lstm_tuple.2.2;
              new_hidden_state := current_lstm_tuple.1.1.1 |}
  else if String.eqb ty "Relu" then
    (* [layer_types[i-2] == "LSTM" && i != 1] *)
    prev ← at_state "layer_types" layer_types (i - 2);
    reshaped ← (if String.eqb prev "LSTM" && negb (i =? 1) then
                  a ← liftR (reshape_last_timestep_3D (new_hidden_state loc));
                  mret (a, true)
                else mret (a_out loc, false));
    input ← (if i =? 1 then liftR (get_Matrix "x_train" x_arg) else mret reshaped.1);
    params ← at_state "layer_params" layer_params (i - 1);
    log (CallDense i input reshaped.2);;
    let current_dense_tuple := Dense input params relu i reshaped.2 in
    store_cache i (CacheDict current_dense_tuple.2);;
    mret {| a_out := current_dense_tuple.1;
            first_mlp_encountered := reshaped.2;
            new_x_state := new_x_state loc;
            new_hidden_state := new_hidden_state loc |}
  else if String.eqb ty "Linear" then
    (* [layer_types[i-1] == "LSTM" && i != 1] *)
    reshaped ← (if String.eqb ty "LSTM" && negb (i =? 1) then
                  a ← liftR (reshape_last_timestep_3D (new_hidden_state loc));
                  mret (a, true)
                else mret (a_out loc, false));
    params ← at_state "layer_params" layer_params (i - 1);
    log (CallDense i reshaped.1 reshaped.2);;
    let current_dense_tuple := Dense reshaped.1 params linear i reshaped.2 in
    store_cache i (CacheDict current_dense_tuple.2);;
    mret {| a_out := current_dense_tuple.1;
            first_mlp_encountered := reshaped.2;
            new_x_state := new_x_state loc;
            new_hidden_state := new_hidden_state loc |}
  else mret loc.

(** [void forward_prop(std::variant<Tensor3D, Matrix> x_train)]: the
    parameter shadows the namespace-level [x_train]. *)
Definition forward_prop (x_arg : variantTensor) : M unit :=
  (* [Matrix Wy = layer_params[0]["Wy1"]; int n_a = Wy[0].size();] *)
  p0 ← at_state "layer_params" layer_params 0;
  let Wy := dict_index p0 "Wy1" in
  assign_layer_params 0 Wy.2;;
  wy0 ← liftR (at_ "Wy" Wy.1 0);
  let n_a := to_int (Z.of_nat (length wy0)) in
  x ← liftR (get_Tensor3D "x_train" x_arg);
  let a_initial := generateZeros (to_int (Z.of_nat (length x))) n_a in
  L ← gets (fun s => length (layer_types s));
  loc ← for_each (forward_layer x_arg a_initial) (layers_up L)
                 {| a_out := []; first_mlp_encountered := false;
                    new_x_state := []; new_hidden_state := [] |};
  modify (set_finalPrediction (a_out loc)).

(** *** Loss *)

(** [m.size() == 1 && m[0].size() == BATCH_SIZE] *)
Definition single_row_of_batch (m : Matrix) (batch : Z) : bool :=
  match m with
  | [row] => Z.of_nat (length row) =? to_size_t batch
  | _ => false
  end.

(** [void loss(Matrix y_train)] *)
Definition loss (y_arg : Matrix) : M unit :=
  fp ← gets finalPrediction;
  batch ← gets BATCH_SIZE;
  let fp := if single_row_of_batch fp batch then linalg_transpose fp else fp in
  modify (set_finalPrediction fp);;
  let y := if single_row_of_batch y_arg batch then linalg_transpose y_arg else y_arg in
  l ← liftR (MSE (linalg_reshape fp) (linalg_reshape y));
  modify (fun s => set_accumulated_loss (accumulated_loss s + l)%float s).

(** *** Backward propagation *)

(** The local variables of [back_prop] that the loop carries. *)
Record backward_locals : Type := {
  dA_matrix : Matrix;
  dA_tensor : Tensor3D
}.

(** [if (grads.grads.size() == layer_types.size()) grads.grads[layer] = entry;
     else grads.grads.push_back(entry);] *)
Definition store_grads (layer : Z) (entry : grad_entry) : M unit :=
  g ← gets grads;
  L ← gets (fun s => length (layer_types s));
  if (length g =? L)%nat then
    g' ← liftR (assign "grads.grads" g layer entry);
    modify (set_grads g')
  else modify (set_grads (g ++ [entry])).

(** [std::get<matrixDict>(cache.cache[i])] *)
Definition cache_dict (i : Z) : M matrixDict :=
  c ← at_state "cache.cache" cache i;
  match c with
  | CacheDict d => mret d
  | CacheLSTM _ => liftR (Throw (BadVariantAccess "cache.cache"))
  end.

(** The part of [back_prop] before the loop: [a_in_matrix] and the seed
    gradient [dA_matrix].  [x_train] and [y_train] are the namespace-level
    variables; [m] is converted to [double] for [linalg::division]. *)
Definition back_prop_seed : M (Matrix * Matrix) :=
  L ← gets (fun s => to_int (Z.of_nat (length (layer_types s))));
  xt ← gets x_train;
  x ← liftR (get_Tensor3D "x_train" xt);
  let m := to_int (Z.of_nat (length x)) in
  a_in_matrix ← liftR (reshape_last_timestep_3D x);
  layer_cache ← cache_dict (L - 1);
  (* [layer_cache.find("A" + std::to_string(L-1))] *)
  let dA_matrix := default [] (layer_cache !! ("A" +:+ to_string (L - 1))) in
  y ← gets y_train;
  mret (a_in_matrix,
        linalg_division_scalar (linalg_subtract dA_matrix y) (int_to_double m)).

(** One iteration of [for (int layer = L; layer >= 1; layer--)]. *)
Definition back_layer (L : Z) (a_in_matrix : Matrix)
    (layer : Z) (loc : backward_locals) : M backward_locals :=
  ty ← at_state "layer_types" layer_types (layer - 1);
  if String.eqb ty "LSTM" then
    if layer =? L then mret loc (* continue *)
    else
      (* [layer_types[layer-1] == "Relu" || layer_types[layer-1] == "Linear"] *)
      loc ← (if String.eqb ty "Relu" || String.eqb ty "Linear" then
               log (ReshapeInLSTMBranch layer);;
               xt ← gets x_train;
               dA ← liftR (reshape_last_timestep_2D xt (dA_matrix loc));
               mret {| dA_matrix := dA_matrix loc; dA_tensor := dA |}
             else mret loc);
      c ← at_state "cache.cache" cache layer;
      match c with
      | CacheLSTM lstm_cache =>
        let current_lstm_grads :=
          lstm_backprop (dA_tensor loc) (lstm_cache.2.1, lstm_cache.2.2) layer in
        let da0 := grad_index current_lstm_grads ("da0" +:+ to_string layer) in
        dA ← liftR (get_Tensor3D "current_lstm_grads" da0.1);
        store_grads layer (GradVariants da0.2);;
        mret {| dA_matrix := dA_matrix loc; dA_tensor := dA |}
      | CacheDict _ => mret loc
      end
  else if String.eqb ty "Relu" || String.eqb ty "Linear" then
    if layer =? L then mret loc (* continue *)
    else
      (* [layer_types[layer-1] == "LSTM"] *)
      loc ← (if String.eqb ty "LSTM" then
               log (ReshapeInMLPBranch layer);;
               dA ← liftR (reshape_last_timestep_3D (dA_tensor loc));
               mret {| dA_matrix := dA; dA_tensor := dA_tensor loc |}
             else mret loc);
      layer_cache ← cache_dict (layer - 1);
      y ← gets y_train;
      let current_mlp_grads :=
        mlp_backward a_in_matrix (dA_matrix loc) y layer_cache layer
                     (if String.eqb ty "Relu" then relu else linear) in
      store_grads layer (GradMatrices current_mlp_grads);;
      mret loc
  else mret loc.

(** [void back_prop()] *)
Definition back_prop : M unit :=
  L ← gets (fun s => to_int (Z.of_nat (length (layer_types s))));
  seed ← back_prop_seed;
  for_each (back_layer L seed.1) (rev (layers_up (Z.to_nat L)))
           {| dA_matrix := seed.2; dA_tensor := [] |};;
  mret tt.

(** *** The Adam optimizer *)

(** [linalg::generateZeros(static_cast<int>(layer_params[i-1][key].size()),
    static_cast<int>(layer_params[i-1][key][0].size()))] *)
Definition zeros_like (i : Z) (key : string) : M Matrix :=
  p ← at_state "layer_params" layer_params (i - 1);
  let entry := dict_index p key in
  assign_layer_params (i - 1) entry.2;;
  row0 ← liftR (at_ key entry.1 0);
  mret (generateZeros (to_int (Z.of_nat (length entry.1)))
                      (to_int (Z.of_nat (length row0)))).

(** The four assignments [init_Adam] makes for one weight/bias pair:
    [v["dW.."]], [v["db.."]], [s["dW.."]], [s["db.."]]. *)
Definition init_moments (i : Z) (vs : matrixDict * matrixDict) (gate : string)
  : M (matrixDict * matrixDict) :=
  let W := "W" +:+ gate +:+ to_string i in
  let b := "b" +:+ gate +:+ to_string i in
  zW ← zeros_like i W;
  let v := <["d" +:+ W := zW]> vs.1 in
  zb ← zeros_like i b;
  let v := <["d" +:+ b := zb]> v in
  zW ← zeros_like i W;
  let s := <["d" +:+ W := zW]> vs.2 in
  zb ← zeros_like i b;
  let s := <["d" +:+ b := zb]> s in
  mret (v, s).

(** [void init_Adam()] *)
Definition init_Adam : M unit :=
  L ← gets (fun s => length (layer_types s));
  (* [Adam_params.resize(layer_types.size())] *)
  modify (fun s => set_Adam_params (resize L [] (Adam_params s)) s);;
  for_each (fun i _ =>
      ty ← at_state "layer_types" layer_types (i - 1);
      vs ← (if String.eqb ty "LSTM" then
              fold_M (init_moments i) ["f"; "i"; "c"; "o"; "y"] (∅, ∅)
            else if String.eqb ty "Relu" || String.eqb ty "Linear" then
              fold_M (init_moments i) [""] (∅, ∅)
            else mret (∅, ∅));
      assign_Adam_params (i - 1) [vs.1; vs.2])
    (layers_up L) tt.

(** The parameters [optimize] updates, in the order of the source. *)
Definition adam_names_lstm : list string :=
  ["Wf"; "bf"; "Wi"; "bi"; "Wc"; "bc"; "Wo"; "bo"; "Wy"; "by"].
Definition adam_names_mlp : list string := ["W"; "b"].

(** The local dictionaries of one iteration of [optimize]. *)
Record adam_locals : Type := {
  v : matrixDict;
  s : matrixDict;
  v_corrected : matrixDict;
  s_corrected : matrixDict
}.

(** [1 - std::pow(beta, t)] *)
Definition bias_correction (beta : float) (step : Z) : float :=
  (1 - std_pow beta (int_to_double step))%float.

(** [auto& grad_map = std::get<gradientDict>(grads.grads[l-1]);] *)
Definition grad_map (l : Z) : M gradientDict :=
  e ← at_state "grads.grads" grads (l - 1);
  match e with
  | GradVariants g => mret g
  | GradMatrices _ => liftR (Throw (BadVariantAccess "grads.grads"))
  end.

(** [std::get<Matrix>(grad_map[key])]: [grad_map] is a reference into
    [grads.grads[l-1]], so a missing key is inserted there. *)
Definition grad_matrix (l : Z) (key : string) : M Matrix :=
  g ← grad_map l;
  let entry := grad_index g key in
  assign_grads (l - 1) (GradVariants entry.2);;
  liftR (get_Matrix "grad_map" entry.1).

(** [v[k] = add(scalarMultiply(beta1, v[k]), scalarMultiply(1-beta1, g[k]))] *)
Definition momentum_step (l : Z) (loc : adam_locals) (name : string) : M adam_locals :=
  let k := "d" +:+ name +:+ to_string (l + 1) in
  let vk := dict_index (v loc) k in
  g ← grad_matrix l k;
  mret {| v := <[k := linalg_add (scalarMultiply beta1 vk.1)
                                 (scalarMultiply (1 - beta1)%float g)]> vk.2;
          s := s loc; v_corrected := v_corrected loc; s_corrected := s_corrected loc |}.

(** [v_corrected[k] = division(v[k], 1 - std::pow(beta1, t))] *)
Definition v_corrected_step (l : Z) (loc : adam_locals) (name : string) : M adam_locals :=
  let k := "d" +:+ name +:+ to_string (l + 1) in
  let vk := dict_index (v loc) k in
  step ← gets t;
  mret {| v := vk.2; s := s loc;
          v_corrected :=
            <[k := linalg_division_scalar vk.1 (bias_correction beta1 step)]>
              (v_corrected loc);
          s_corrected := s_corrected loc |}.

(** [s[k] = add(scalarMultiply(beta2, s[k]), scalarMultiply(1-beta2, pow(g[k], 2.0)))] *)
Definition rms_step (l : Z) (loc : adam_locals) (name : string) : M adam_locals :=
  let k := "d" +:+ name +:+ to_string (l + 1) in
  let sk := dict_index (s loc) k in
  g ← grad_matrix l k;
  mret {| v := v loc;
          s := <[k := linalg_add (scalarMultiply beta2 sk.1)
                                 (scalarMultiply (1 - beta2)%float (linalg_pow g 2))]> sk.2;
          v_corrected := v_corrected loc; s_corrected := s_corrected loc |}.

(** [s_corrected[k] = division(s[k], 1 - std::pow(beta2, t))] *)
Definition s_corrected_step (l : Z) (loc : adam_locals) (name : string) : M adam_locals :=
  let k := "d" +:+ name +:+ to_string (l + 1) in
  let sk := dict_index (s loc) k in
  step ← gets t;
  mret {| v := v loc; s := sk.2; v_corrected := v_corrected loc;
          s_corrected :=
            <[k := linalg_division_scalar sk.1 (bias_correction beta2 step)]>
              (s_corrected loc) |}.

(** [layer_params[l-1][p] = subtract(layer_params[l-1][p],
      division(scalarMultiply(learning_rate, v_corrected[k]),
               add(sqrt(s_corrected[k]), epsilon)))]
    with [p = name + std::to_string(l+1)] and [k = "d" + p]. *)
Definition update_step (l : Z) (loc : adam_locals) (name : string) : M adam_locals :=
  let p := name +:+ to_string (l + 1) in
  let k := "d" +:+ p in
  params ← at_state "layer_params" layer_params (l - 1);
  let pk := dict_index params p in
  let vc := dict_index (v_corrected loc) k in
  let sc := dict_index (s_corrected loc) k in
  lr ← gets learning_rate;
  let updated :=
    linalg_subtract pk.1
      (linalg_division (scalarMultiply lr vc.1)
                       (linalg_add_scalar (linalg_sqrt sc.1) epsilon)) in
  assign_layer_params (l - 1) (<[p := updated]> pk.2);;
  mret {| v := v loc; s := s loc; v_corrected := vc.2; s_corrected := sc.2 |}.

(** The five blocks of one branch of [optimize], for the parameters [names]. *)
Definition adam_update (l : Z) (names : list string) (loc : adam_locals) : M unit :=
  grad_map l;;
  loc ← fold_M (momentum_step l) names loc;
  loc ← fold_M (v_corrected_step l) names loc;
  loc ← fold_M (rms_step l) names loc;
  loc ← fold_M (s_corrected_step l) names loc;
  fold_M (update_step l) names loc;;
  mret tt.

(** One iteration of [for (int l = 1; l <= layer_types.size(); l++)]. *)
Definition optimize_layer (l : Z) : M unit :=
  (* [matrixDict v = Adam_params[l][0]; matrixDict s = Adam_params[l][1];] *)
  log (ReadAdamParams l);;
  moments ← at_state "Adam_params" Adam_params l;
  v0 ← liftR (at_ "Adam_params[l]" moments 0);
  moments ← at_state "Adam_params" Adam_params l;
  s0 ← liftR (at_ "Adam_params[l]" moments 1);
  let loc := {| v := v0; s := s0; v_corrected := ∅; s_corrected := ∅ |} in
  ty ← at_state "layer_types" layer_types (l - 1);
  if String.eqb ty "LSTM" then adam_update l adam_names_lstm loc
  else if String.eqb ty "Relu" || String.eqb ty "Linear" then
    adam_update l adam_names_mlp loc
  else mret tt.

(** [void optimize()] *)
Definition optimize : M unit :=
  L ← gets (fun s => length (layer_types s));
  for_each (fun l _ => optimize_layer l) (layers_up L) tt;;
  (* [t += 1] *)
  step ← gets t;
  if step =? INT_MAX then liftR (Throw (IntOverflow "t"))
  else modify (set_t (step + 1)).

(** The initialisation sequence of [main] in train_model.cpp. *)
Definition initialize (X : Tensor3D) (Y : Matrix) (batch_size numUnits : Z)
    (types : list string) (dims : list Z) (lr : float) : M unit :=
  init_data (VTensor3D X) Y batch_size;;
  init_hidden_units numUnits;;
  init_layers types dims;;
  initialize_network;;
  init_learning_rate lr;;
  init_Adam.

End Model.

(** The events a run of [m] from [s] appends to the trace. *)
Definition events_of {A : Type} (m : M A) (s : State) : list event :=
  drop (length (trace s)) (trace (final_state (m s))).

(** ** Frame properties

    [preserves f m]: running [m] leaves the component [f] of the state as it
    was, whether [m] returns or fails. *)
Definition preserves {A B : Type} (f : State -> B) (m : M A) : Prop :=
  forall s, f (final_state (m s)) = f s.

(** [grads_grow_by k m]: running [m] adds at most [k] entries to [grads],
    whether [m] returns or fails. *)
Definition grads_grow_by {A : Type} (k : nat) (m : M A) : Prop :=
  forall s, (length (grads (final_state (m s))) <= length (grads s) + k)%nat.

(** ** Instances used to exhibit concrete runs

    A small linalg (elementwise operations) and layers that pass their input
    through, with the key names the translation unit looks up: parameters
    are keyed by name and layer number ([init_Adam] reads ["Wf" + i], ...,
    ["W" + i]), the dense cache holds ["A" + (layer-1)], the recurrent
    gradients hold ["da0" + layer]. *)

Definition map2 (f : float -> float -> float) (a b : Matrix) : Matrix :=
  zip_with (zip_with f) a b.

Definition linalg_small : Linalg := {|
  generateZeros r c := replicate (Z.to_nat r) (replicate (Z.to_nat c) 0%float);
  linalg_transpose m :=
    match m with
    | [] => []
    | row :: _ => map (fun j => map (fun r => nth j r 0%float) m) (seq 0 (length row))
    end;
  linalg_reshape m := concat m;
  linalg_add := map2 PrimFloat.add;
  linalg_add_scalar m x := map (map (fun a => PrimFloat.add a x)) m;
  linalg_subtract := map2 PrimFloat.sub;
  linalg_division := map2 PrimFloat.div;
  linalg_division_scalar m x := map (map (fun a => PrimFloat.div a x)) m;
  scalarMultiply x m := map (map (PrimFloat.mul x)) m;
  linalg_pow m y := map (map (fun a => pow_small a y)) m;
  linalg_sqrt m := map (map PrimFloat.sqrt) m
|}.

Definition layers_small : Layers := {|
  init_params n_input n_hidden n_output layer :=
    list_to_map (map (fun name => (name +:+ to_string layer, [[0%float]]))
                     ["Wf"; "bf"; "Wi"; "bi"; "Wc"; "bc"; "Wo"; "bo"; "Wy"; "by"]);
  init_mlp_params dims layer :=
    list_to_map (map (fun name => (name +:+ to_string (layer + 1), [[0%float]]))
                     ["W"; "b"]);
  lstm_forward x a0 params layer := (x, x, x, ([], x));
  Dense a_in params act layer first_mlp :=
    (a_in, {[ "A" +:+ to_string (layer - 1) := a_in ]});
  lstm_backprop da caches layer := {[ "da0" +:+ to_string layer := VTensor3D da ]};
  mlp_backward a_in dA y layer_cache layer act :=
    {[ "dW" +:+ to_string layer := dA ]}
|}.

(** ** Scenarios

    The architecture of the specification's end-to-end scenario, one
    recurrent layer followed by one linear layer, initialised for a dataset
    of two examples with two timesteps and one feature each; [batch] is its
    first minibatch for batch size 1. *)
Definition dataset_X : Tensor3D := [[[1]; [2]]; [[3]; [4]]]%float.
Definition dataset_Y : Matrix := [[10]; [20]]%float.
Definition batch_X : Tensor3D := [[[1]; [2]]]%float.
Definition batch_Y : Matrix := [[10]]%float.

(** Parameter and moment dictionaries with the keys [init_Adam] reads and
    writes for layer [i], every matrix 1x1. *)
Definition params_of (names : list string) (i : Z) : matrixDict :=
  list_to_map (map (fun name => (name +:+ to_string i, [[0%float]])) names).
Definition moments_of (names : list string) (i : Z) : list matrixDict :=
  [ list_to_map (map (fun name => ("d" +:+ name +:+ to_string i, [[0%float]])) names);
    list_to_map (map (fun name => ("d" +:+ name +:+ to_string i, [[0%float]])) names) ].

Definition lstm_linear_state : State :=
  set_layer_params [params_of adam_names_lstm 1; params_of adam_names_mlp 2]
    (set_layer_dims [1; 1]
       (set_layer_types ["LSTM"; "Linear"]
          (set_BATCH_SIZE 1
             (set_y_train dataset_Y
                (set_x_train (VTensor3D dataset_X) initial_state))))).

(** Two recurrent layers and a linear one, initialised ([initialize_network],
    [init_Adam]) and after one forward and one backward pass: [back_prop]
    has stored the gradients of layer 1 only. *)
Definition lstm_lstm_linear_state : State :=
  set_grads [GradVariants {[ "da01" := VTensor3D [] ]}]
    (set_Adam_params [moments_of adam_names_lstm 1; moments_of adam_names_lstm 2;
                      moments_of adam_names_mlp 3]
       (set_layer_params [params_of adam_names_lstm 1; params_of adam_names_lstm 2;
                          params_of adam_names_mlp 3]
          (set_layer_dims [1; 1; 1]
             (set_layer_types ["LSTM"; "LSTM"; "Linear"]
                (set_BATCH_SIZE 1
                   (set_y_train dataset_Y
                      (set_x_train (VTensor3D dataset_X) initial_state))))))).

(** A single linear layer, initialised. *)
Definition linear_state : State :=
  set_Adam_params [moments_of adam_names_mlp 1]
    (set_layer_params [params_of adam_names_mlp 1]
       (set_layer_dims [1]
          (set_layer_types ["Linear"] initial_state))).

(** ** The average loss and the training driver

    [return_avg_loss] closes HybridModel.cpp's loss interface; [main] in
    src/train_model.cpp drives the model.  The dataset comes from
    DataFramework::preprocessDataFromFile, which is outside the translation
    unit: [main] is embedded as a function of the dataset.  What [main]
    prints is what it returns here: the average loss of every epoch. *)

Section Training.
Context {std : StdLib} {la : Linalg} {ly : Layers}.

(** [double return_avg_loss()]: [accumulated_loss] divided by the number of
    examples (or rows) of the namespace-level [x_train]. *)
Definition return_avg_loss : M float :=
  acc ← gets accumulated_loss;
  xt ← gets x_train;
  let size := match xt with
              | VTensor3D x => Z.of_nat (length x)
              | VMatrix m => Z.of_nat (length m)
              end in
  mret (acc / size_to_double size)%float.





End Training.

(** ** Further scenarios *)

(** One dense layer over a dataset that [init_data] was given as a matrix. *)
Definition relu_matrix_state : State :=
  set_layer_dims [1]
    (set_layer_types ["Relu"]
       (set_x_train (VMatrix [[1]; [2]]%float) initial_state)).

(** The architecture [LSTM, Linear] after initialisation and a first
    forward pass: the cache holds one entry per layer. *)
Definition after_first_pass : State :=
  set_cache [CacheLSTM ([], [], [], ([], [])); CacheDict ∅] lstm_linear_state.


(** One recurrent layer as [initialize_network] leaves it on a matrix
    dataset: its dictionary is empty. *)
Definition lstm_matrix_state : State :=
  set_layer_params [∅]
    (set_layer_dims [1]
       (set_layer_types ["LSTM"]
          (set_x_train (VMatrix [[1]; [2]]%float) initial_state))).

(** The architecture [LSTM, Relu, Linear], initialised and after a first
    forward pass. *)
Definition lstm_relu_linear_state : State :=
  set_cache [CacheLSTM ([], [], [], ([], [])); CacheDict ∅; CacheDict ∅]
    (set_layer_params [params_of adam_names_lstm 1; params_of adam_names_mlp 2;
                       params_of adam_names_mlp 3]
       (set_layer_dims [1; 1; 1]
          (set_layer_types ["LSTM"; "Relu"; "Linear"]
             (set_BATCH_SIZE 1
                (set_y_train dataset_Y
                   (set_x_train (VTensor3D dataset_X) initial_state)))))).

(** The same architecture with the moments of [init_Adam] and the one
    gradient entry a first backward pass stores, that of the Relu layer. *)
Definition trained_once_state : State :=
  set_grads [GradMatrices ∅]
    (set_Adam_params [moments_of adam_names_lstm 1; moments_of adam_names_mlp 2;
                      moments_of adam_names_mlp 3]
       lstm_relu_linear_state).

(** ** Invariants of returning runs

    [ensures P m Q]: when [m], started in a state that satisfies [P],
    returns, it returns in a state that satisfies [Q]. *)
Definition ensures {A : Type} (P : State -> Prop) (m : M A) (Q : State -> Prop) : Prop :=
  forall s a s', P s -> m s = Done a s' -> Q s'.

(** The number of cache entries, and the architecture they are counted
    against. *)
Definition cache_shape (s : State) : nat * list string :=
  (length (cache s), layer_types s).

(** The layer types the loops have a branch for. *)
Definition known_layer (ty : string) : Prop :=
  ty = "LSTM" \/ ty = "Relu" \/ ty = "Linear".

(** * Facts about binary64 arithmetic

    Derived from the specification of the primitive floats
    ([FloatAxioms], [SpecFloat]). *)

Section Binary64.

Lemma digits2_pos_log2 (p : positive) :
  Zpos (digits2_pos p) = Z.log2 (Zpos p) + 1.
Proof.
  assert (Hsize : forall q, digits2_pos q = Pos.size q)
    by (induction q as [q IH|q IH|]; simpl; congruence).
  destruct p as [p|p|]; simpl; rewrite ?Hsize; lia.
Qed.

Lemma digits2_pos_lower (p : positive) :
  2 ^ (Zpos (digits2_pos p) - 1) <= Zpos p.
Proof.
  rewrite digits2_pos_log2.
  replace (Z.log2 (Zpos p) + 1 - 1) with (Z.log2 (Zpos p)) by lia.
  apply Z.log2_spec. lia.
Qed.

Lemma shr_1_m (r : shr_record) :
  0 <= shr_m r -> shr_m (shr_1 r) = shr_m r / 2.
Proof.
  destruct r as [m b s]; simpl; intros Hm.
  rewrite <- Z.div2_div.
  destruct m as [|[p|p|]|p]; simpl; try reflexivity; lia.
Qed.

Lemma iter_shr_1_m (n : positive) :
  forall r, 0 <= shr_m r ->
    shr_m (SpecFloat.iter_pos shr_1 n r) = shr_m r / 2 ^ Zpos n.
Proof.
  assert (Hnn : forall a b, 0 <= a -> 0 < b -> 0 <= a / b)
    by (intros; apply Z.div_pos; lia).
  induction n as [n IH|n IH|]; intros r Hr; simpl SpecFloat.iter_pos.
  - assert (H1 : 0 <= shr_m (shr_1 r)) by (rewrite shr_1_m by lia; apply Hnn; lia).
    assert (H2 : 0 <= shr_m (SpecFloat.iter_pos shr_1 n (shr_1 r)))
      by (rewrite IH by lia; apply Hnn; lia).
    rewrite IH, IH, shr_1_m by lia.
    rewrite !Z.div_div by lia.
    f_equal.
    assert (E : Zpos n~1 = 1 + (Zpos n + Zpos n)) by lia.
    rewrite E, !Z.pow_add_r, Z.pow_1_r by lia. ring.
  - assert (H2 : 0 <= shr_m (SpecFloat.iter_pos shr_1 n r))
      by (rewrite IH by lia; apply Hnn; lia).
    rewrite IH, IH by lia.
    rewrite Z.div_div by lia.
    f_equal.
    assert (E : Zpos n~0 = Zpos n + Zpos n) by lia.
    rewrite E, Z.pow_add_r by lia. reflexivity.
  - rewrite shr_1_m by lia. reflexivity.
Qed.

Lemma shr_positive (r : shr_record) (m : positive) (e n : Z) :
  shr_m r = Zpos m -> n < Zpos (digits2_pos m) ->
  0 < shr_m (fst (shr r e n)) /\ (0 <= n -> e <= snd (shr r e n))
  /\ (n <= 0 -> snd (shr r e n) = e).
Proof.
  intros Hm Hn. destruct n as [|p|p]; simpl; try (rewrite Hm; lia).
  rewrite iter_shr_1_m by (rewrite Hm; lia). rewrite Hm.
  split; [|lia].
  pose proof (digits2_pos_lower m) as Hlow.
  assert (Hle : 2 ^ Zpos p <= 2 ^ (Zpos (digits2_pos m) - 1))
    by (apply Z.pow_le_mono_r; lia).
  assert (Hpow : 0 < 2 ^ Zpos p) by (apply Z.pow_pos_nonneg; lia).
  apply Z.div_str_pos. lia.
Qed.

Lemma shr_fexp_positive (m : positive) (e : Z) (l : location) :
  SpecFloat.emin prec emax <= e ->
  0 < shr_m (fst (shr_fexp prec emax (Zpos m) e l))
  /\ SpecFloat.emin prec emax <= snd (shr_fexp prec emax (Zpos m) e l).
Proof.
  intros He. unfold shr_fexp.
  set (n := fexp prec emax (Zdigits2 (Zpos m) + e) - e).
  assert (Hn : n < Zpos (digits2_pos m)).
  { subst n. unfold fexp, SpecFloat.emin, prec, emax in *. simpl Zdigits2.
    pose proof (Pos2Z.is_pos (digits2_pos m)). lia. }
  assert (Hr : shr_m (shr_record_of_loc (Zpos m) l) = Zpos m)
    by (destruct l as [|[]]; reflexivity).
  destruct (shr_positive _ m e n Hr Hn) as (Hpos & Hge & Heq).
  split; [exact Hpos|].
  destruct (Z_le_gt_dec 0 n) as [H0|H0]; [specialize (Hge H0); lia|].
  rewrite Heq by lia. exact He.
Qed.

Lemma round_nearest_even_ge (m : Z) (l : location) : m <= round_nearest_even m l.
Proof.
  destruct l as [|[]]; simpl; try lia. destruct (Z.even m); lia.
Qed.

Lemma binary_round_aux_positive (s : bool) (m : positive) (e : Z) (l : location) :
  SpecFloat.emin prec emax <= e ->
  (exists m' e', binary_round_aux prec emax s (Zpos m) e l = S754_finite s m' e')
  \/ binary_round_aux prec emax s (Zpos m) e l = S754_infinity s.
Proof.
  intros He. unfold binary_round_aux.
  destruct (shr_fexp_positive m e l He) as [H1 H1e].
  destruct (shr_fexp prec emax (Zpos m) e l) as [mrs' e'] eqn:E1. simpl in H1, H1e.
  pose proof (round_nearest_even_ge (shr_m mrs') (loc_of_shr_record mrs')) as Hr.
  destruct (round_nearest_even (shr_m mrs') (loc_of_shr_record mrs')) as [|m1|m1] eqn:E;
    try lia.
  destruct (shr_fexp_positive m1 e' loc_Exact H1e) as [H2 _].
  destruct (shr_fexp prec emax (Zpos m1) e' loc_Exact) as [mrs'' e''] eqn:E2. simpl in H2.
  destruct (shr_m mrs'') as [|m2|m2]; try lia.
  destruct (e'' <=? emax - prec); [left; eauto|right; reflexivity].
Qed.

Lemma binary_normalize_positive (p : positive) :
  (exists m' e', binary_normalize prec emax (Zpos p) 0 false = S754_finite false m' e')
  \/ binary_normalize prec emax (Zpos p) 0 false = S754_infinity false.
Proof.
  unfold binary_normalize, binary_round.
  destruct (shl_align p 0 (fexp prec emax (Zpos (digits2_pos p) + 0))) as [mz ez] eqn:E.
  apply binary_round_aux_positive.
  unfold shl_align in E.
  assert (Hf : SpecFloat.emin prec emax <= fexp prec emax (Zpos (digits2_pos p) + 0))
    by (unfold fexp; lia).
  destruct (fexp prec emax (Zpos (digits2_pos p) + 0) - 0) as [|d|d] eqn:Ed;
    inversion E; subst; try exact Hf; unfold SpecFloat.emin, prec, emax; lia.
Qed.

(** The conversion of a positive size is a positive double (or +infinity):
    never zero, never NaN. *)
Lemma size_to_double_positive (k : Z) :
  0 < k < 2 ^ 63 ->
  (exists m e, Prim2SF (size_to_double k) = S754_finite false m e)
  \/ Prim2SF (size_to_double k) = S754_infinity false.
Proof.
  intros Hk. unfold size_to_double. rewrite of_uint63_spec.
  rewrite Uint63.of_Z_spec, Z.mod_small by (change wB with (2 ^ 63); lia).
  destruct k as [|p|p]; try lia. apply binary_normalize_positive.
Qed.

(** [0.0 / n == 0.0] for a positive size [n]. *)
Lemma zero_div_size (k : Z) :
  0 < k < 2 ^ 63 -> (0 / size_to_double k)%float = 0%float.
Proof.
  intros Hk. apply Prim2SF_inj. rewrite FloatAxioms.div_spec.
  change (Prim2SF 0%float) with (S754_zero false).
  destruct (size_to_double_positive k Hk) as [(m & e & ->)| ->]; reflexivity.
Qed.

(** [x - x == +0.0] for every finite [x]. *)
Lemma sub_diag_finite (x : float) :
  is_finite_double x = true -> (x - x)%float = 0%float.
Proof.
  unfold is_finite_double. intros Hx. apply Prim2SF_inj. rewrite FloatAxioms.sub_spec.
  change (Prim2SF 0%float) with (S754_zero false).
  destruct (Prim2SF x) as [s|s| |s m e]; try discriminate.
  - destruct s; reflexivity.
  - unfold SF64sub, SFsub. rewrite Z.sub_diag. reflexivity.
Qed.

End Binary64.

(** * Vectors and counted loops *)

Section Vectors.
Context {A : Type}.
Implicit Types (v : list A) (a : A).

Lemma at_lookup name v (i : nat) a :
  v !! i = Some a -> at_ name v (Z.of_nat i) = Ret a.
Proof.
  intros Hi. unfold at_.
  pose proof (lookup_lt_Some _ _ _ Hi) as Hlt.
  destruct (Z.ltb_spec (Z.of_nat i) 0); [lia|].
  destruct (Z.leb_spec (Z.of_nat (length v)) (Z.of_nat i)); [lia|].
  simpl. rewrite Nat2Z.id, Hi. reflexivity.
Qed.

Lemma at_Ret name v (i : Z) a :
  at_ name v i = Ret a <-> 0 <= i /\ v !! Z.to_nat i = Some a.
Proof.
  unfold at_. destruct (Z.ltb_spec i 0); simpl.
  - split; [discriminate|lia].
  - destruct (Z.leb_spec (Z.of_nat (length v)) i); simpl.
    + split; [discriminate|]. intros [_ Hi]. apply lookup_lt_Some in Hi. lia.
    + destruct (v !! Z.to_nat i) eqn:E; split; intros; try discriminate; intuition congruence.
Qed.

Lemma at_lookup_Z name v (i : Z) a :
  0 <= i -> v !! Z.to_nat i = Some a -> at_ name v i = Ret a.
Proof. intros Hi Ha. apply at_Ret. split; assumption. Qed.

Lemma at_out_of_range name v (i : Z) :
  i < 0 \/ Z.of_nat (length v) <= i -> at_ name v i = Throw (OutOfRange name i).
Proof.
  unfold at_. intros [Hi|Hi].
  - destruct (Z.ltb_spec i 0); [reflexivity|lia].
  - destruct (Z.leb_spec (Z.of_nat (length v)) i); [|lia].
    rewrite orb_true_r. reflexivity.
Qed.

End Vectors.

(** * The loss *)

Section LossFacts.
Context {std : StdLib}.
Local Open Scope float_scope.

Lemma MSE_loop (n : nat) :
  forall (lo : nat) (acc : float) (pred target : list float),
    (lo + n)%nat = length pred -> length pred = length target ->
    for_up (fun i loss =>
              p ← at_ "pred" pred i;
              t ← at_ "target" target i;
              Ret (loss + std_pow (p - t) 2))
           (Z.of_nat lo) n acc
    = Ret (fold_left (fun acc pt => acc + std_pow (fst pt - snd pt) 2)
                     (combine (drop lo pred) (drop lo target)) acc).
Proof.
  induction n as [|n IH]; intros lo acc pred target Hlo Hlen; simpl.
  - rewrite !drop_ge by lia. reflexivity.
  - destruct (lookup_lt_is_Some_2 pred lo) as [p Hp]; [lia|].
    destruct (lookup_lt_is_Some_2 target lo) as [t Ht]; [lia|].
    rewrite (at_lookup _ _ _ _ Hp), (at_lookup _ _ _ _ Ht).
    rewrite (drop_S _ _ _ Hp), (drop_S _ _ _ Ht). simpl.
    replace (Z.of_nat lo + 1)%Z with (Z.of_nat (S lo)) by lia.
    apply IH; lia.
Qed.

Lemma sum_squared_error_self (pred : list float) :
  std_pow 0 2 = 0 ->
  Forall (fun x => is_finite_double x = true) pred ->
  sum_squared_error pred pred = 0.
Proof.
  intros Hpow Hfin. unfold sum_squared_error.
  induction Hfin as [|x pred Hx _ IH]; simpl; [reflexivity|].
  rewrite (sub_diag_finite x Hx), Hpow.
  change (0 + 0) with 0. exact IH.
Qed.

(** C8 (amended): [MSE] throws the shape-mismatch error exactly when the two
    vectors differ in length; when they agree it returns the sum of the
    squared differences divided by twice the element count; and
    [MSE(pred, pred)] is [0] for every non-empty vector of finite doubles
    (the empty vector gives [0.0/0.0], a NaN). *)
Theorem MSE_contract (pred target : list float) :
  (MSE pred target = Throw (InvalidArgument "Prediction and target sizes do not match")
   <-> length pred <> length target)
  /\ (length pred = length target -> MSE pred target = Ret (MSE_formula pred target))
  /\ (target = pred -> pred <> [] ->
      Forall (fun x => is_finite_double x = true) pred ->
      (2 * Z.of_nat (length pred) < 2 ^ 63)%Z ->
      std_pow 0 2 = 0 ->
      MSE pred target = Ret 0).
Proof.
  assert (Heq : length pred = length target ->
                MSE pred target = Ret (MSE_formula pred target)).
  { intros Hlen. unfold MSE, MSE_formula, sum_squared_error.
    destruct (Z.eqb_spec (Z.of_nat (length pred)) (Z.of_nat (length target))); [|lia].
    simpl negb. cbv iota.
    pose proof (MSE_loop (length pred) 0 0 pred target eq_refl Hlen) as Hloop.
    change (Z.of_nat 0) with 0%Z in Hloop. rewrite !drop_0 in Hloop.
    rewrite Hloop. reflexivity. }
  split; [|split].
  - split.
    + intros Hthrow Hlen. rewrite (Heq Hlen) in Hthrow. discriminate.
    + intros Hne. unfold MSE.
      destruct (Z.eqb_spec (Z.of_nat (length pred)) (Z.of_nat (length target))); [lia|].
      reflexivity.
  - exact Heq.
  - intros -> Hne Hfin Hsize Hpow. rewrite Heq by reflexivity. f_equal.
    unfold MSE_formula. rewrite sum_squared_error_self by assumption.
    unfold to_size_t. rewrite Z.mod_small by lia.
    apply zero_div_size. destruct pred; [congruence|]. simpl length in *. lia.
Qed.

End LossFacts.

(** A run of C8's theorem: two equal two-element vectors. *)
Lemma MSE_contract_witness :
  MSE (std := stdlib_small) [1.5; -2]%float [1.5; -2]%float = Ret 0%float.
Proof.
  apply (MSE_contract (std := stdlib_small) [1.5; -2]%float [1.5; -2]%float).
  - reflexivity.
  - discriminate.
  - repeat constructor.
  - reflexivity.
  - reflexivity.
Defined.

(** C8 as stated fails on the empty vector: the loop adds nothing and the
    function returns [0.0 / 0.0], which is a NaN and not [0]. *)
Lemma MSE_self_empty_is_nan :
  MSE (std := stdlib_small) [] [] = Ret nan
  /\ MSE (std := stdlib_small) [] [] <> Ret 0%float
  /\ PrimFloat.eqb nan 0 = false.
Proof.
  split; [reflexivity|split; [|reflexivity]].
  intros Heq. apply (f_equal (fun r => match r with Ret x => PrimFloat.is_nan x | Throw _ => false end)) in Heq.
  vm_compute in Heq. discriminate.
Qed.

(** * Counted loops and machine integers *)

Lemma to_int_small (z : Z) : 0 <= z <= INT_MAX -> to_int z = z.
Proof.
  unfold to_int, INT_MAX. intros Hz.
  rewrite Z.mod_small; lia.
Qed.

Lemma to_size_t_small (z : Z) : 0 <= z < 2 ^ 64 -> to_size_t z = z.
Proof. intros Hz. unfold to_size_t. apply Z.mod_small. exact Hz. Qed.

Lemma ret_bind {A B : Type} (a : A) (k : A -> res B) : Ret a ≫= k = k a.
Proof. reflexivity. Qed.

Lemma throw_bind {A B : Type} (e : error) (k : A -> res B) : Throw e ≫= k = Throw e.
Proof. reflexivity. Qed.

Ltac ret_step := rewrite ret_bind; cbv beta.

Lemma for_up_invariant {S : Type} (P : nat -> S -> Prop) (n : nat) :
  forall (body : Z -> S -> res S) (lo : Z) (s : S),
    P 0%nat s ->
    (forall k s, (k < n)%nat -> P k s ->
                 exists s', body (lo + Z.of_nat k) s = Ret s' /\ P (Datatypes.S k) s') ->
    exists s', for_up body lo n s = Ret s' /\ P n s'.
Proof.
  revert P. induction n as [|n IH]; intros P body lo s H0 Hstep; simpl.
  - eauto.
  - destruct (Hstep 0%nat s ltac:(lia) H0) as (s1 & Hb & H1).
    rewrite Z.add_0_r in Hb. rewrite Hb.
    apply (IH (fun k => P (Datatypes.S k))); [exact H1|].
    intros k s2 Hk Hs2.
    destruct (Hstep (Datatypes.S k) s2 ltac:(lia) Hs2) as (s3 & Hb3 & H3).
    exists s3. split; [|exact H3]. rewrite <- Hb3. f_equal. lia.
Qed.

Lemma assign_in_range {A : Type} name (v : list A) (i : nat) (a : A) :
  (i < length v)%nat -> assign name v (Z.of_nat i) a = Ret (<[i := a]> v).
Proof.
  intros Hi. unfold assign.
  destruct (Z.ltb_spec (Z.of_nat i) 0); [lia|].
  destruct (Z.leb_spec (Z.of_nat (length v)) (Z.of_nat i)); [lia|].
  simpl. rewrite Nat2Z.id. reflexivity.
Qed.

Lemma alloc_nat {A : Type} name (n : nat) (x : A) :
  Z.of_nat n < 2 ^ 63 -> alloc name (Z.of_nat n) x = Ret (replicate n x).
Proof.
  intros Hn. unfold alloc. destruct (Z.ltb_spec (Z.of_nat n) 0); [lia|].
  destruct (Z.leb_spec (2 ^ 63) (Z.of_nat n)); [lia|].
  simpl. rewrite Nat2Z.id. reflexivity.
Qed.

Lemma INT_MAX_lt (z : Z) : z <= INT_MAX -> z < 2 ^ 63.
Proof. unfold INT_MAX. lia. Qed.

(** * Shape reconciliation *)

Section Reshape.
Implicit Types (X : Tensor3D) (M : Matrix).

Lemma last_is_Some {A : Type} (l : list A) : l <> [] -> is_Some (last l).
Proof.
  intros Hl. destruct (last l) eqn:E; [eauto|].
  apply last_None in E. contradiction.
Qed.

Lemma reshape_last_timestep_3D_ok X :
  X <> [] -> nonempty_examples X ->
  Z.of_nat (length X) <= INT_MAX ->
  (forall ex f, X !! 0%nat = Some ex -> ex !! 0%nat = Some f -> Z.of_nat (length f) <= INT_MAX) ->
  reshape_last_timestep_3D X = Ret (map (fun ex => default [] (last ex)) X).
Proof.
  intros Hne Hex HB HF. unfold reshape_last_timestep_3D.
  destruct X as [|ex0 X'] eqn:EX; [congruence|]. rewrite <- EX in *.
  assert (H0 : X !! 0%nat = Some ex0) by (subst X; reflexivity).
  rewrite (at_lookup _ _ 0%nat _ H0). ret_step.
  assert (Hex0 : ex0 <> []).
  { unfold nonempty_examples in Hex. rewrite Forall_forall in Hex.
    apply Hex. subst X. left. }
  destruct ex0 as [|f0 ex0'] eqn:Eex0; [congruence|]. rewrite <- Eex0 in *.
  assert (H00 : ex0 !! 0%nat = Some f0) by (subst ex0; reflexivity).
  rewrite (at_lookup _ _ 0%nat _ H00). ret_step.
  rewrite (to_int_small (Z.of_nat (length f0))) by (specialize (HF ex0 f0 H0 H00); lia).
  rewrite alloc_nat by (apply INT_MAX_lt, (HF ex0 f0 H0 H00)). ret_step.
  rewrite (to_int_small (Z.of_nat (length X))) by lia.
  rewrite alloc_nat, Nat2Z.id by (apply INT_MAX_lt, HB). ret_step.
  set (g := fun ex : Matrix => default [] (last ex)).
  edestruct (for_up_invariant
               (fun k (v : Matrix) => length v = length X /\
                                      forall j, (j < k)%nat -> v !! j = g <$> X !! j)
               (length X)) as (v & Hv & Hlen & Hall).
  3: { rewrite Hv. f_equal. apply list_eq. intros j.
       rewrite list_lookup_fmap.
       destruct (Nat.lt_ge_cases j (length X)) as [Hj|Hj]; [apply Hall, Hj|].
       rewrite !lookup_ge_None_2; [reflexivity|exact Hj|rewrite Hlen; exact Hj]. }
  - split; [apply length_replicate|]. intros j Hj. exfalso. lia.
  - intros k v Hk [Hlen Hprev]. rewrite Z.add_0_l.
    destruct (lookup_lt_is_Some_2 X k Hk) as [ex Hexk].
    rewrite (at_lookup _ _ _ _ Hexk). ret_step.
    assert (Hexne : ex <> []).
    { unfold nonempty_examples in Hex. rewrite Forall_forall in Hex.
      apply Hex. eapply list_elem_of_lookup_2. exact Hexk. }
    destruct (last_is_Some ex Hexne) as [b Hb]. rewrite Hb.
    rewrite assign_in_range by lia.
    eexists. split; [reflexivity|]. split; [rewrite length_insert; exact Hlen|].
    intros j Hj. destruct (decide (j = k)) as [->|Hjk].
    + rewrite list_lookup_insert_eq by lia. rewrite Hexk. simpl. unfold g. rewrite Hb. reflexivity.
    + rewrite list_lookup_insert_ne by congruence. apply Hprev. lia.
Qed.

Lemma broadcast_row_loop M (i : nat) (hi : list float) (T : nat)
      (tensor : Tensor3D) (ri0 : Matrix) :
  M !! i = Some hi -> tensor !! i = Some ri0 -> length ri0 = T ->
  for_up (fun t reshaped_tensor =>
            hi ← at_ "hidden_state" M (Z.of_nat i);
            ri ← at_ "reshaped_tensor" reshaped_tensor (Z.of_nat i);
            ri' ← assign "reshaped_tensor[i]" ri t hi;
            assign "reshaped_tensor" reshaped_tensor (Z.of_nat i) ri')
         0 T tensor
  = Ret (<[i := replicate T hi]> tensor).
Proof.
  intros Hhi Hri0 Hlen0.
  pose proof (lookup_lt_Some _ _ _ Hri0) as Hi.
  edestruct (for_up_invariant
               (fun u (t' : Tensor3D) =>
                  exists ri, t' = <[i := ri]> tensor /\ length ri = T /\
                             forall w, (w < u)%nat -> ri !! w = Some hi)
               T) as (t' & Ht' & ri & -> & Hlen & Hall).
  3: { rewrite Ht'. do 2 f_equal. apply list_eq. intros w.
       destruct (Nat.lt_ge_cases w T) as [Hw|Hw].
       - rewrite Hall by exact Hw. symmetry. apply lookup_replicate_2. exact Hw.
       - rewrite !lookup_ge_None_2; [reflexivity|rewrite length_replicate; exact Hw|].
         rewrite Hlen. exact Hw. }
  - exists ri0. split; [symmetry; apply list_insert_id; exact Hri0|].
    split; [exact Hlen0|]. intros w Hw. exfalso. lia.
  - intros u t' Hu (ri & -> & Hlen & Hprev). rewrite Z.add_0_l.
    rewrite (at_lookup _ _ _ _ Hhi). ret_step.
    rewrite (at_lookup _ _ i ri) by (apply list_lookup_insert_eq; exact Hi). ret_step.
    rewrite assign_in_range by (rewrite Hlen; exact Hu). ret_step.
    rewrite assign_in_range by (rewrite length_insert; exact Hi).
    eexists. split; [reflexivity|].
    exists (<[u := hi]> ri). split; [apply list_insert_insert_eq|].
    split; [rewrite length_insert; exact Hlen|].
    intros w Hw. destruct (decide (w = u)) as [->|Hwu].
    + apply list_lookup_insert_eq. rewrite Hlen. exact Hu.
    + rewrite list_lookup_insert_ne by congruence. apply Hprev. lia.
Qed.

Lemma reshape_last_timestep_2D_ok (X0 : Tensor3D) (x0 : Matrix) M :
  X0 !! 0%nat = Some x0 -> M <> [] ->
  Z.of_nat (length M) <= INT_MAX ->
  Z.of_nat (length x0) <= INT_MAX ->
  (forall h, M !! 0%nat = Some h -> Z.of_nat (length h) <= INT_MAX) ->
  reshape_last_timestep_2D (VTensor3D X0) M = Ret (map (replicate (length x0)) M).
Proof.
  intros Hx0 Hne HB HT HF. unfold reshape_last_timestep_2D.
  destruct (lookup_lt_is_Some_2 M 0%nat) as [h0 Hh0];
    [destruct M; [congruence|simpl; lia]|].
  rewrite (at_lookup _ _ 0%nat _ Hh0). ret_step.
  simpl get_Tensor3D. ret_step.
  rewrite (at_lookup _ _ 0%nat _ Hx0). ret_step.
  rewrite (to_int_small (Z.of_nat (length h0))) by (specialize (HF h0 Hh0); lia).
  rewrite alloc_nat by (apply INT_MAX_lt, (HF h0 Hh0)). ret_step.
  rewrite (to_int_small (Z.of_nat (length x0))) by lia.
  rewrite alloc_nat, Nat2Z.id by (apply INT_MAX_lt, HT). ret_step.
  rewrite (to_int_small (Z.of_nat (length M))) by lia.
  rewrite alloc_nat, Nat2Z.id by (apply INT_MAX_lt, HB). ret_step.
  set (T := length x0). set (mat := replicate T (replicate (length h0) 0%float)).
  edestruct (for_up_invariant
               (fun k (t : Tensor3D) =>
                  length t = length M
                  /\ (forall j, (j < k)%nat -> t !! j = replicate T <$> M !! j)
                  /\ (forall j, (k <= j < length M)%nat -> t !! j = Some mat))
               (length M)) as (t & Ht & Hlen & Hall & _).
  3: { rewrite Ht. f_equal. apply list_eq. intros j. rewrite list_lookup_fmap.
       destruct (Nat.lt_ge_cases j (length M)) as [Hj|Hj]; [apply Hall, Hj|].
       rewrite !lookup_ge_None_2; [reflexivity|exact Hj|rewrite Hlen; exact Hj]. }
  - split; [apply length_replicate|]. split; [intros j Hj; exfalso; lia|].
    intros j Hj. apply lookup_replicate_2. lia.
  - intros k t Hk (Hlen & Hdone & Htodo). rewrite Z.add_0_l.
    destruct (lookup_lt_is_Some_2 M k Hk) as [hk Hhk].
    rewrite (broadcast_row_loop M k hk T t mat Hhk);
      [|apply Htodo; lia|apply length_replicate].
    eexists. split; [reflexivity|]. split; [rewrite length_insert; exact Hlen|]. split.
    + intros j Hj. destruct (decide (j = k)) as [->|Hjk].
      * rewrite list_lookup_insert_eq by (rewrite Hlen; exact Hk). rewrite Hhk. reflexivity.
      * rewrite list_lookup_insert_ne by congruence. apply Hdone. lia.
    + intros j Hj. rewrite list_lookup_insert_ne by lia. apply Htodo. lia.
Qed.

Lemma map_fixpoint {A : Type} (g : A -> A) (l : list A) :
  map g l = l <-> forall a, a ∈ l -> g a = a.
Proof.
  induction l as [|a l IH]; simpl.
  - split; [intros _ a Ha; inversion Ha|reflexivity].
  - split.
    + intros Heq b Hb. injection Heq as Ha Hl.
      apply elem_of_cons in Hb as [->|Hb]; [exact Ha|]. apply IH; assumption.
    + intros Hall. f_equal; [apply Hall; left|].
      apply IH. intros b Hb. apply Hall. right. exact Hb.
Qed.

Lemma replicate_last_fixpoint (T : nat) (ex : Matrix) :
  length ex = T -> (1 <= T)%nat ->
  replicate T (default [] (last ex)) = ex <-> (forall f, f ∈ ex -> last ex = Some f).
Proof.
  intros Hlen HT.
  destruct (last_is_Some ex) as [l Hl]; [destruct ex; simpl in *; [lia|congruence]|].
  rewrite Hl. simpl. split.
  - intros Heq f Hf. rewrite <- Heq in Hf.
    apply elem_of_replicate in Hf as [-> _]. reflexivity.
  - intros Hall. apply list_eq. intros w.
    destruct (Nat.lt_ge_cases w T) as [Hw|Hw].
    + rewrite lookup_replicate_2 by exact Hw.
      destruct (lookup_lt_is_Some_2 ex w) as [f Hf]; [rewrite Hlen; exact Hw|].
      rewrite Hf. f_equal.
      specialize (Hall f (list_elem_of_lookup_2 _ _ _ Hf)). congruence.
    + rewrite !lookup_ge_None_2; [reflexivity|rewrite Hlen; exact Hw|].
      rewrite length_replicate. exact Hw.
Qed.

(** C7 (amended): on a tensor of [B >= 1] examples with [T >= 1] timesteps
    each, where [T] is the timestep count of the first example of the
    namespace-level [x_train], last-timestep extraction followed by the
    broadcast succeeds and yields, for every example, [T] copies of that
    example's final timestep.  The round trip gives back the tensor it
    started from exactly when, in every example, all timesteps equal the
    final one; that is always so when [T = 1]. *)
Theorem reshape_round_trip (X0 X : Tensor3D) (x0 : Matrix) (T : nat) :
  X <> [] ->
  (1 <= T)%nat ->
  Forall (fun ex => length ex = T) X ->
  X0 !! 0%nat = Some x0 -> length x0 = T ->
  Z.of_nat (length X) <= INT_MAX ->
  Z.of_nat T <= INT_MAX ->
  Forall (Forall (fun f => Z.of_nat (length f) <= INT_MAX)) X ->
  (reshape_last_timestep_3D X ≫= reshape_last_timestep_2D (VTensor3D X0))
    = Ret (broadcast_last T X)
  /\ (forall (i t : nat) ex, X !! i = Some ex -> (t < T)%nat ->
        exists f, last ex = Some f /\ (broadcast_last T X !! i) ≫= (.!! t) = Some f)
  /\ (broadcast_last T X = X <-> forall ex f, ex ∈ X -> f ∈ ex -> last ex = Some f)
  /\ (T = 1%nat -> broadcast_last T X = X).
Proof.
  intros Hne HT Hshape Hx0 Hlen0 HB HTmax Hfeat.
  rewrite Forall_forall in Hshape.
  assert (Hnonempty : nonempty_examples X).
  { apply Forall_forall. intros ex Hex Hnil. specialize (Hshape ex Hex).
    subst ex. simpl in Hshape. lia. }
  assert (Hfix : broadcast_last T X = X <->
                 forall ex f, ex ∈ X -> f ∈ ex -> last ex = Some f).
  { unfold broadcast_last. rewrite map_fixpoint. split.
    - intros Hall ex f Hex Hf.
      apply (proj1 (replicate_last_fixpoint T ex (Hshape ex Hex) HT) (Hall ex Hex)); exact Hf.
    - intros Hall ex Hex.
      apply (replicate_last_fixpoint T ex (Hshape ex Hex) HT). intros f Hf.
      apply Hall; assumption. }
  split; [|split; [|split]].
  - rewrite reshape_last_timestep_3D_ok; try assumption.
    + rewrite ret_bind.
      rewrite (reshape_last_timestep_2D_ok X0 x0); try assumption.
      * rewrite Hlen0. unfold broadcast_last. rewrite map_map. reflexivity.
      * destruct X; [congruence|discriminate].
      * rewrite length_map. exact HB.
      * lia.
      * intros h Hh. rewrite list_lookup_fmap in Hh.
        destruct (X !! 0%nat) as [ex|] eqn:Hex; [|discriminate].
        injection Hh as <-.
        rewrite Forall_forall in Hfeat.
        specialize (Hfeat ex (list_elem_of_lookup_2 _ _ _ Hex)).
        destruct (last ex) as [l|] eqn:Hl; simpl; [|unfold INT_MAX; lia].
        rewrite Forall_forall in Hfeat. apply Hfeat.
        apply last_Some in Hl as [l' ->]. apply elem_of_app. right. left.
    + intros ex f Hex Hf. rewrite Forall_forall in Hfeat.
      specialize (Hfeat ex (list_elem_of_lookup_2 _ _ _ Hex)).
      rewrite Forall_forall in Hfeat. apply Hfeat.
      eapply list_elem_of_lookup_2. exact Hf.
  - intros i t ex Hex Ht.
    destruct (last_is_Some ex) as [l Hl].
    { unfold nonempty_examples in Hnonempty.
      rewrite Forall_forall in Hnonempty. apply Hnonempty.
      eapply list_elem_of_lookup_2. exact Hex. }
    exists l. split; [exact Hl|].
    unfold broadcast_last. rewrite list_lookup_fmap, Hex. simpl.
    rewrite Hl. simpl. apply lookup_replicate_2. exact Ht.
  - exact Hfix.
  - intros ->. apply Hfix. intros ex f Hex Hf.
    specialize (Hshape ex Hex).
    destruct ex as [|f0 [|f1 ex]]; simpl in Hshape; try lia.
    apply list_elem_of_singleton in Hf as ->. reflexivity.
Qed.

End Reshape.

(** A run of C7's theorem: two examples, two timesteps, one feature. *)
Lemma reshape_round_trip_witness :
  (reshape_last_timestep_3D [[[1]; [2]]; [[3]; [4]]]%float
     ≫= reshape_last_timestep_2D (VTensor3D [[[1]; [2]]; [[3]; [4]]]%float))
  = Ret [[[2]; [2]]; [[4]; [4]]]%float.
Proof.
  apply (reshape_round_trip [[[1]; [2]]; [[3]; [4]]]%float
                            [[[1]; [2]]; [[3]; [4]]]%float
                            [[1]; [2]]%float 2%nat).
  - discriminate.
  - lia.
  - repeat constructor.
  - reflexivity.
  - reflexivity.
  - simpl; unfold INT_MAX; lia.
  - unfold INT_MAX; lia.
  - repeat constructor; simpl; unfold INT_MAX; lia.
Defined.

(** C7 as stated fails on a tensor that is constant over time: with [T = 2]
    timesteps the round trip still gives the tensor back. *)
Lemma reshape_round_trip_constant :
  (reshape_last_timestep_3D [[[1]; [1]]]%float
     ≫= reshape_last_timestep_2D (VTensor3D [[[1]; [1]]]%float))
  = Ret [[[1]; [1]]]%float
  /\ length [[1]; [1]]%float = 2%nat /\ 2%nat <> 1%nat.
Proof. split; [reflexivity|split; [reflexivity|discriminate]]. Qed.

(** * Minibatch generation *)

Section MinibatchFacts.
Context {std : StdLib}.

Lemma iota_lookup (m w : nat) : (w < m)%nat -> iota m !! w = Some (Z.of_nat w).
Proof.
  intros Hw. unfold iota. rewrite list_lookup_fmap, lookup_seq_lt by exact Hw.
  reflexivity.
Qed.

Lemma iota_length (m : nat) : length (iota m) = m.
Proof. unfold iota. rewrite length_map, length_seq. reflexivity. Qed.

Lemma iota_elem (m : nat) (p : Z) : p ∈ iota m -> 0 <= p < Z.of_nat m.
Proof.
  unfold iota. intros Hp. apply list_elem_of_fmap in Hp as (w & -> & Hw).
  apply elem_of_seq in Hw. lia.
Qed.

(** [for (int i = 0; i < m; i++) permutation[i] = i;] *)
Lemma iota_loop (m : nat) :
  for_up (fun i p => assign "permutation" p i i) 0 m (replicate m 0) = Ret (iota m).
Proof.
  edestruct (for_up_invariant
               (fun u (p : list Z) =>
                  length p = m /\ forall w, (w < u)%nat -> p !! w = Some (Z.of_nat w))
               m) as (p & Hp & Hlen & Hall).
  3: { rewrite Hp. f_equal. apply list_eq. intros w.
       destruct (Nat.lt_ge_cases w m) as [Hw|Hw].
       - rewrite Hall, iota_lookup by exact Hw. reflexivity.
       - rewrite !lookup_ge_None_2; [reflexivity|rewrite iota_length; exact Hw|].
         rewrite Hlen. exact Hw. }
  - split; [apply length_replicate|]. intros w Hw. exfalso. lia.
  - intros u p Hu [Hlen Hprev]. rewrite Z.add_0_l.
    rewrite assign_in_range by (rewrite Hlen; exact Hu).
    eexists. split; [reflexivity|]. split; [rewrite length_insert; exact Hlen|].
    intros w Hw. destruct (decide (w = u)) as [->|Hwu].
    + apply list_lookup_insert_eq. rewrite Hlen. exact Hu.
    + rewrite list_lookup_insert_ne by congruence. apply Hprev. lia.
Qed.

(** The loop that fills [shuffled_X] and [shuffled_Y]. *)
Lemma shuffle_loop (X : Tensor3D) (Y : Matrix) (perm : list Z)
      (sx0 : Tensor3D) (sy0 : Matrix) :
  length Y = length X -> length perm = length X ->
  length sx0 = length X -> length sy0 = length X ->
  Z.of_nat (length X) <= INT_MAX ->
  (forall p, p ∈ perm -> 0 <= p < Z.of_nat (length X)) ->
  exists sX sY,
    for_up (fun i (sh : Tensor3D * Matrix) =>
              p ← at_ "permutation" perm i;
              xp ← at_ "X" X (to_size_t p);
              sx ← assign "shuffled_X" sh.1 i xp;
              p ← at_ "permutation" perm i;
              yp ← at_ "Y" Y (to_size_t p);
              sy ← assign "shuffled_Y" sh.2 i yp;
              Ret (sx, sy))
           0 (length X) (sx0, sy0) = Ret (sX, sY)
    /\ Forall2 (fun p x => X !! Z.to_nat p = Some x) perm sX
    /\ Forall2 (fun p y => Y !! Z.to_nat p = Some y) perm sY.
Proof.
  intros HY Hperm Hsx0 Hsy0 Hmax Hrange. apply INT_MAX_lt in Hmax.
  edestruct (for_up_invariant
               (fun u (sh : Tensor3D * Matrix) =>
                  length sh.1 = length X /\ length sh.2 = length X /\
                  forall w p, (w < u)%nat -> perm !! w = Some p ->
                              sh.1 !! w = X !! Z.to_nat p /\ sh.2 !! w = Y !! Z.to_nat p)
               (length X)) as ([sX sY] & Hrun & HlX & HlY & Hall).
  3: { exists sX, sY. split; [exact Hrun|]. simpl in *.
       split; apply Forall2_same_length_lookup_2; try congruence.
       - intros w p x Hp Hx. pose proof (lookup_lt_Some _ _ _ Hp) as Hw.
         destruct (Hall w p ltac:(lia) Hp) as [<- _]. exact Hx.
       - intros w p y Hp Hy. pose proof (lookup_lt_Some _ _ _ Hp) as Hw.
         destruct (Hall w p ltac:(lia) Hp) as [_ <-]. exact Hy. }
  - simpl. repeat split; try assumption; exfalso; lia.
  - intros u [sx sy] Hu (HlX & HlY & Hprev). simpl in HlX, HlY. rewrite Z.add_0_l.
    destruct (lookup_lt_is_Some_2 perm u) as [p Hp]; [rewrite Hperm; exact Hu|].
    pose proof (Hrange p (list_elem_of_lookup_2 _ _ _ Hp)) as Hpr.
    rewrite (at_lookup _ _ _ _ Hp). ret_step.
    rewrite to_size_t_small by lia.
    destruct (lookup_lt_is_Some_2 X (Z.to_nat p)) as [xp Hxp]; [lia|].
    destruct (lookup_lt_is_Some_2 Y (Z.to_nat p)) as [yp Hyp]; [lia|].
    rewrite (at_lookup_Z _ _ _ _ (proj1 Hpr) Hxp). ret_step. simpl fst. simpl snd.
    rewrite assign_in_range by (rewrite HlX; exact Hu). ret_step.
    ret_step. rewrite to_size_t_small by lia.
    rewrite (at_lookup_Z _ _ _ _ (proj1 Hpr) Hyp). ret_step.
    rewrite assign_in_range by (rewrite HlY; exact Hu). ret_step.
    eexists. split; [reflexivity|]. simpl.
    split; [rewrite length_insert; exact HlX|].
    split; [rewrite length_insert; exact HlY|].
    intros w q Hw Hq. destruct (decide (w = u)) as [->|Hwu].
    + rewrite !list_lookup_insert_eq by lia.
      assert (q = p) as -> by congruence. split; congruence.
    + rewrite !list_lookup_insert_ne by congruence. apply Hprev; [lia|exact Hq].
Qed.

(** The loop that copies one chunk out of the shuffled data. *)
Lemma copy_loop (sX : Tensor3D) (sY : Matrix) (k n : nat) (mx0 : Tensor3D) (my0 : Matrix) :
  length sY = length sX -> (k + n <= length sX)%nat ->
  length mx0 = n -> length my0 = n ->
  Z.of_nat (length sX) <= INT_MAX ->
  for_up (fun i (mb : minibatch) =>
            sx ← at_ "shuffled_X" sX (to_size_t i);
            mx ← assign "minibatch_X" mb.1 (to_size_t (i - Z.of_nat k)) sx;
            sy ← at_ "shuffled_Y" sY (to_size_t i);
            my ← assign "minibatch_Y" mb.2 (to_size_t (i - Z.of_nat k)) sy;
            Ret (mx, my))
         (Z.of_nat k) n (mx0, my0)
  = Ret (take n (drop k sX), take n (drop k sY)).
Proof.
  intros HY Hkn Hmx0 Hmy0 Hmax. apply INT_MAX_lt in Hmax.
  edestruct (for_up_invariant
               (fun u (mb : minibatch) =>
                  length mb.1 = n /\ length mb.2 = n /\
                  forall w, (w < u)%nat ->
                            mb.1 !! w = sX !! (k + w)%nat /\ mb.2 !! w = sY !! (k + w)%nat)
               n) as ([mx my] & Hrun & Hlx & Hly & Hall).
  3: { rewrite Hrun. simpl in *. f_equal. f_equal; apply list_eq; intros w.
       - destruct (Nat.lt_ge_cases w n) as [Hw|Hw].
         + rewrite lookup_take_lt, lookup_drop by exact Hw. apply Hall, Hw.
         + rewrite !lookup_ge_None_2; [reflexivity| |lia].
           rewrite length_take. lia.
       - destruct (Nat.lt_ge_cases w n) as [Hw|Hw].
         + rewrite lookup_take_lt, lookup_drop by exact Hw. apply Hall, Hw.
         + rewrite !lookup_ge_None_2; [reflexivity| |lia].
           rewrite length_take. lia. }
  - simpl. repeat split; try assumption; exfalso; lia.
  - intros u [mx my] Hu (Hlx & Hly & Hprev). simpl in Hlx, Hly. simpl fst. simpl snd.
    rewrite to_size_t_small by lia.
    replace (Z.of_nat k + Z.of_nat u - Z.of_nat k) with (Z.of_nat u) by lia.
    rewrite to_size_t_small by lia.
    replace (Z.of_nat k + Z.of_nat u) with (Z.of_nat (k + u)) by lia.
    destruct (lookup_lt_is_Some_2 sX (k + u)) as [sx Hsx]; [lia|].
    destruct (lookup_lt_is_Some_2 sY (k + u)) as [sy Hsy]; [lia|].
    rewrite (at_lookup _ _ _ _ Hsx). ret_step.
    rewrite assign_in_range by lia. ret_step.
    rewrite (at_lookup _ _ _ _ Hsy). ret_step.
    rewrite assign_in_range by lia. ret_step.
    eexists. split; [reflexivity|]. simpl.
    split; [rewrite length_insert; exact Hlx|].
    split; [rewrite length_insert; exact Hly|].
    intros w Hw. destruct (decide (w = u)) as [->|Hwu].
    + rewrite !list_lookup_insert_eq by lia. split; congruence.
    + rewrite !list_lookup_insert_ne by congruence. apply Hprev. lia.
Qed.

Lemma chunk_sizes_done (b : nat) : (1 <= b)%nat -> chunk_sizes b 0 = [].
Proof.
  intros Hb. unfold chunk_sizes.
  rewrite Nat.Div0.div_0_l, Nat.Div0.mod_0_l. reflexivity.
Qed.

Lemma chunk_sizes_step (b r : nat) :
  (1 <= b)%nat -> (0 < r)%nat ->
  chunk_sizes b r = Nat.min b r :: chunk_sizes b (r - b).
Proof.
  intros Hb Hr. unfold chunk_sizes.
  destruct (Nat.lt_ge_cases r b) as [Hlt|Hge].
  - rewrite Nat.div_small, Nat.mod_small by exact Hlt.
    replace (r - b)%nat with 0%nat by lia.
    rewrite Nat.Div0.div_0_l, Nat.Div0.mod_0_l. simpl.
    destruct (Nat.eqb_spec r 0); [lia|]. f_equal. lia.
  - assert (Hdiv : (r / b = Datatypes.S ((r - b) / b))%nat).
    { replace r with ((r - b) + 1 * b)%nat at 1 by lia.
      rewrite Nat.div_add by lia. lia. }
    assert (Hmod : (r mod b = (r - b) mod b)%nat).
    { replace r with ((r - b) + 1 * b)%nat at 1 by lia.
      apply Nat.Div0.mod_add. }
    rewrite Hdiv, Hmod. simpl. f_equal. lia.
Qed.

Section Loop.
Variables (X sX : Tensor3D) (sY : Matrix) (x0 : Matrix) (x00 : list float).
Variables (m : nat) (batch_size : Z).
Hypothesis HX0 : X !! 0%nat = Some x0.
Hypothesis Hx00 : x0 !! 0%nat = Some x00.
Hypothesis HsX : length sX = m.
Hypothesis HsY : length sY = m.
Hypothesis Hm : Z.of_nat m <= INT_MAX.
Hypothesis Hb : 1 <= batch_size <= INT_MAX.

Lemma minibatch_loop_ok (fuel : nat) :
  forall (k : nat) (acc : list minibatch),
    (m < k + fuel)%nat ->
    exists mbs,
      minibatch_loop fuel X sX sY (Z.of_nat m) batch_size (Z.of_nat k) acc
      = Ret (acc ++ mbs)
      /\ concat (map fst mbs) = drop k sX
      /\ concat (map snd mbs) = drop k sY
      /\ map (fun mb : minibatch => length mb.1) mbs
         = chunk_sizes (Z.to_nat batch_size) (m - k)
      /\ map (fun mb : minibatch => length mb.2) mbs
         = chunk_sizes (Z.to_nat batch_size) (m - k).
Proof.
  pose proof Hm as Hm63. apply INT_MAX_lt in Hm63.
  assert (Hbmax : batch_size < 2 ^ 63) by (apply INT_MAX_lt; lia).
  assert (Hdone : forall fl (k : nat) acc, (m <= k)%nat ->
            exists mbs,
              minibatch_loop fl X sX sY (Z.of_nat m) batch_size (Z.of_nat k) acc
              = Ret (acc ++ mbs)
              /\ concat (map fst mbs) = drop k sX
              /\ concat (map snd mbs) = drop k sY
              /\ map (fun mb : minibatch => length mb.1) mbs
                 = chunk_sizes (Z.to_nat batch_size) (m - k)
              /\ map (fun mb : minibatch => length mb.2) mbs
                 = chunk_sizes (Z.to_nat batch_size) (m - k)).
  { intros fl k acc Hk. exists []. rewrite app_nil_r.
    replace (m - k)%nat with 0%nat by lia.
    rewrite chunk_sizes_done, !drop_ge by lia.
    split; [|auto].
    destruct fl; simpl;
      (destruct (Z.ltb_spec (Z.of_nat k) (Z.of_nat m)); [lia|reflexivity]). }
  induction fuel as [|fuel IH]; intros k acc Hfuel; [apply Hdone; lia|].
  destruct (Nat.le_gt_cases m k) as [Hge|Hk]; [apply Hdone; exact Hge|].
  set (b := Z.to_nat batch_size) in *.
  assert (Hbz : Z.of_nat b = batch_size) by (unfold b; lia). clearbody b.
  set (n := Nat.min b (m - k)).
  assert (Hn : n = Nat.min b (m - k)) by reflexivity. clearbody n.
  simpl minibatch_loop.
  destruct (Z.ltb_spec (Z.of_nat k) (Z.of_nat m)) as [_|]; [|lia].
  rewrite (to_size_t_small (Z.of_nat k + batch_size)) by lia.
  assert (Hend : to_int (Z.min (Z.of_nat k + batch_size) (Z.of_nat m)) = Z.of_nat (k + n)).
  { rewrite to_int_small by lia. lia. }
  rewrite Hend.
  rewrite (at_lookup _ _ 0%nat _ HX0). ret_step.
  rewrite (at_lookup _ _ 0%nat _ Hx00). ret_step.
  replace (Z.of_nat (k + n) - Z.of_nat k) with (Z.of_nat n) by lia.
  rewrite (to_size_t_small (Z.of_nat n)) by lia.
  rewrite !alloc_nat by lia. ret_step. ret_step.
  rewrite (to_int_small (Z.of_nat k)) by lia.
  replace (Z.of_nat (k + n) - Z.of_nat k) with (Z.of_nat n) by lia.
  rewrite Nat2Z.id.
  rewrite (copy_loop sX sY k n); try rewrite length_replicate; try lia.
  ret_step.
  replace (Z.of_nat k + batch_size) with (Z.of_nat (k + b)) by lia.
  destruct (IH (k + b)%nat (acc ++ [(take n (drop k sX), take n (drop k sY))]))
    as (mbs & Hrun & HcX & HcY & HlX & HlY); [lia|].
  exists ((take n (drop k sX), take n (drop k sY)) :: mbs).
  split; [rewrite Hrun, <- app_assoc; reflexivity|].
  assert (Hglue : forall (A : Type) (l : list A), length l = m ->
                    take n (drop k l) ++ drop (k + b) l = drop k l).
  { intros A l Hl. destruct (Nat.le_gt_cases b (m - k)) as [Hle|Hgt].
    - replace n with b by lia. rewrite <- drop_drop. apply take_drop.
    - rewrite take_ge by (rewrite length_drop; lia).
      rewrite (drop_ge l (k + b)) by lia. apply app_nil_r. }
  simpl. rewrite HcX, HcY, HlX, HlY, !Hglue by assumption.
  rewrite !length_take, !length_drop.
  rewrite (chunk_sizes_step b (m - k)) by lia.
  replace (m - k - b)%nat with (m - (k + b))%nat by lia.
  replace (Nat.min n (length sX - k)) with n by lia.
  replace (Nat.min n (length sY - k)) with n by lia.
  rewrite <- Hn. auto.
Qed.

End Loop.

(** Gathering two vectors along permuted indices permutes their pairs. *)
Lemma gather_permutation {A B : Type} (PX : Z -> A -> Prop) (PY : Z -> B -> Prop)
      (perm l : list Z) :
  Permutation perm l ->
  forall sX sY, Forall2 PX perm sX -> Forall2 PY perm sY ->
    exists tX tY, Forall2 PX l tX /\ Forall2 PY l tY
                  /\ Permutation (combine sX sY) (combine tX tY).
Proof.
  induction 1 as [|p perm l _ IH|p q l|perm l1 l2 _ IH1 _ IH2]; intros sX sY HX HY.
  - inversion HX; inversion HY; subst. exists [], [].
    split; [constructor|split; constructor].
  - inversion HX as [|? a ? sX' Ha HX']; inversion HY as [|? b ? sY' Hb HY']; subst.
    destruct (IH sX' sY' HX' HY') as (tX & tY & HtX & HtY & Hperm).
    exists (a :: tX), (b :: tY).
    split; [constructor; assumption|split; [constructor; assumption|]].
    simpl. apply perm_skip. exact Hperm.
  - inversion HX as [|? a1 ? sX1 Ha1 HX1]; subst.
    inversion HX1 as [|? a2 ? sX2 Ha2 HX2]; subst.
    inversion HY as [|? b1 ? sY1 Hb1 HY1]; subst.
    inversion HY1 as [|? b2 ? sY2 Hb2 HY2]; subst.
    exists (a2 :: a1 :: sX2), (b2 :: b1 :: sY2).
    split; [repeat constructor; assumption|split; [repeat constructor; assumption|]].
    simpl. apply perm_swap.
  - destruct (IH1 sX sY HX HY) as (uX & uY & HuX & HuY & Hp1).
    destruct (IH2 uX uY HuX HuY) as (tX & tY & HtX & HtY & Hp2).
    exists tX, tY. split; [assumption|split; [assumption|]].
    eapply Permutation_trans; eassumption.
Qed.

Lemma gather_iota {A : Type} (v t : list A) :
  Forall2 (fun p x => v !! Z.to_nat p = Some x) (iota (length v)) t -> t = v.
Proof.
  intros HF. pose proof (Forall2_length _ _ _ HF) as Hlen. rewrite iota_length in Hlen.
  apply list_eq. intros w.
  destruct (Nat.lt_ge_cases w (length v)) as [Hw|Hw].
  - destruct (lookup_lt_is_Some_2 t w) as [x Hx]; [lia|].
    rewrite Hx. symmetry.
    pose proof (Forall2_lookup_lr _ _ _ _ _ _ HF (iota_lookup _ _ Hw) Hx) as Hv.
    cbv beta in Hv. rewrite Nat2Z.id in Hv. exact Hv.
  - rewrite !lookup_ge_None_2; [reflexivity|lia..].
Qed.

(** C5 (amended): for a dataset whose first example has at least one
    timestep, with [m <= INT_MAX] examples in [X] and in [Y], and a batch size
    [b >= 1], [generate_minibatches] returns chunks whose concatenation is
    the dataset gathered along one permutation of the indices [0..m-1], the
    same for [X] and for [Y]: every example appears exactly once, paired with
    its own target.  There are [m / b] chunks of [b] examples, followed by one
    of [m mod b] examples when [b] does not divide [m]. *)
Theorem generate_minibatches_partition (X : Tensor3D) (Y : Matrix) (x0 : Matrix)
    (batch_size seed : Z) :
  (forall s l, Permutation (std_shuffle s l) l) ->
  X !! 0%nat = Some x0 -> x0 <> [] ->
  length Y = length X ->
  Z.of_nat (length X) <= INT_MAX ->
  1 <= batch_size <= INT_MAX ->
  exists (mbs : list minibatch) (sX : Tensor3D) (sY : Matrix),
    generate_minibatches X Y batch_size seed = Ret mbs
    /\ Permutation (std_shuffle seed (iota (length X))) (iota (length X))
    /\ Forall2 (fun p x => X !! Z.to_nat p = Some x)
               (std_shuffle seed (iota (length X))) sX
    /\ Forall2 (fun p y => Y !! Z.to_nat p = Some y)
               (std_shuffle seed (iota (length X))) sY
    /\ concat (map fst mbs) = sX
    /\ concat (map snd mbs) = sY
    /\ Permutation (combine sX sY) (combine X Y)
    /\ map (fun mb : minibatch => length mb.1) mbs
       = chunk_sizes (Z.to_nat batch_size) (length X)
    /\ map (fun mb : minibatch => length mb.2) mbs
       = chunk_sizes (Z.to_nat batch_size) (length X).
Proof.
  intros Hshuffle HX0 Hx0 HY Hm Hb.
  set (perm := std_shuffle seed (iota (length X))).
  assert (Hperm : Permutation perm (iota (length X))) by apply Hshuffle.
  assert (Hplen : length perm = length X)
    by (rewrite (Permutation_length Hperm); apply iota_length).
  assert (Hrange : forall p, p ∈ perm -> 0 <= p < Z.of_nat (length X)).
  { intros p Hp. apply iota_elem. rewrite <- Hperm. exact Hp. }
  destruct x0 as [|x00 x0'] eqn:Ex0; [congruence|]. rewrite <- Ex0 in *.
  assert (Hx00 : x0 !! 0%nat = Some x00) by (subst x0; reflexivity).
  pose proof (INT_MAX_lt _ Hm) as Hm63.
  unfold generate_minibatches. cbv zeta.
  rewrite (alloc_nat "permutation") by exact Hm63. ret_step.
  destruct (Z.ltb_spec INT_MAX (Z.of_nat (length X))) as [|_]; [lia|].
  cbv iota. rewrite Nat2Z.id, iota_loop. ret_step. fold perm.
  rewrite (at_lookup _ _ 0%nat _ HX0). ret_step.
  rewrite (at_lookup _ _ 0%nat _ Hx00). ret_step.
  rewrite (alloc_nat "shuffled_X") by exact Hm63. ret_step.
  rewrite (alloc_nat "shuffled_Y") by exact Hm63. ret_step.
  destruct (shuffle_loop X Y perm
              (replicate (length X) (replicate (length x0) (replicate (length x00) 0%float)))
              (replicate (length X) [0%float]))
    as (sX & sY & Hrun & HsX & HsY);
    try rewrite length_replicate; try assumption; try reflexivity.
  rewrite Hrun. ret_step. simpl fst. simpl snd.
  destruct (minibatch_loop_ok X sX sY x0 x00 (length X) batch_size HX0 Hx00)
    with (fuel := Datatypes.S (length X)) (k := 0%nat) (acc := @nil minibatch)
    as (mbs & Hloop & HcX & HcY & HlX & HlY);
    try assumption.
  { rewrite <- (Forall2_length _ _ _ HsX). exact Hplen. }
  { rewrite <- (Forall2_length _ _ _ HsY). exact Hplen. }
  { lia. }
  exists mbs, sX, sY. simpl in Hloop. rewrite ?drop_0 in HcX. rewrite ?drop_0 in HcY.
  rewrite Nat.sub_0_r in HlX, HlY.
  repeat split; try assumption.
  destruct (gather_permutation _ _ perm (iota (length X)) Hperm sX sY HsX HsY)
    as (tX & tY & HtX & HtY & Hpairs).
  rewrite <- HY in HtY at 1.
  apply gather_iota in HtX. apply gather_iota in HtY. subst tX tY. exact Hpairs.
Qed.

End MinibatchFacts.

(** A run of C5's theorem: five examples in batches of two. *)
Lemma generate_minibatches_partition_witness :
  exists mbs : list minibatch,
    generate_minibatches (std := stdlib_small)
      [[[1]]; [[2]]; [[3]]; [[4]]; [[5]]]%float [[10]; [20]; [30]; [40]; [50]]%float 2 7
    = Ret mbs
    /\ map (fun mb : minibatch => length mb.1) mbs = [2; 2; 1]%nat.
Proof.
  destruct (generate_minibatches_partition (std := stdlib_small)
              [[[1]]; [[2]]; [[3]]; [[4]]; [[5]]]%float
              [[10]; [20]; [30]; [40]; [50]]%float [[1]]%float 2 7)
    as (mbs & sX & sY & Hrun & _ & _ & _ & _ & _ & _ & Hsizes & _).
  - intros s l. simpl. symmetry. apply Permutation_rev.
  - reflexivity.
  - discriminate.
  - reflexivity.
  - simpl; unfold INT_MAX; lia.
  - unfold INT_MAX; lia.
  - exists mbs. split; [exact Hrun|exact Hsizes].
Defined.

(** C5 as stated fails on a dataset whose first example has no timestep: the
    allocation of [shuffled_X] reads [X[0][0]], which is out of range. *)
Lemma generate_minibatches_empty_example :
  generate_minibatches (std := stdlib_small) [[]] [[1%float]] 1 7
  = Throw (OutOfRange "X[0]" 0).
Proof. reflexivity. Qed.

(** * Reasoning about state transformers *)

Section Monad.
Context {A B : Type}.

Lemma bind_Done (m : M A) (k : A -> M B) (s s' : State) (a : A) :
  m s = Done a s' -> (m ≫= k) s = k a s'.
Proof. intros Hm. unfold mbind, M_bind. rewrite Hm. reflexivity. Qed.

Lemma bind_Failed (m : M A) (k : A -> M B) (s s' : State) (e : error) :
  m s = Failed e s' -> (m ≫= k) s = Failed e s'.
Proof. intros Hm. unfold mbind, M_bind. rewrite Hm. reflexivity. Qed.

Lemma bind_Done_inv (m : M A) (k : A -> M B) (s s2 : State) (b : B) :
  (m ≫= k) s = Done b s2 -> exists a s1, m s = Done a s1 /\ k a s1 = Done b s2.
Proof.
  unfold mbind, M_bind. destruct (m s) as [a s1|e s1]; [eauto|discriminate].
Qed.

Lemma ret_bind_M (a : A) (k : A -> M B) (s : State) : (mret a ≫= k) s = k a s.
Proof. reflexivity. Qed.

Lemma gets_bind (f : State -> A) (k : A -> M B) (s : State) :
  (gets f ≫= k) s = k (f s) s.
Proof. reflexivity. Qed.

Lemma liftR_Ret_bind (a : A) (k : A -> M B) (s : State) :
  (liftR (Ret a) ≫= k) s = k a s.
Proof. reflexivity. Qed.

Lemma liftR_Throw_bind (e : error) (k : A -> M B) (s : State) :
  (liftR (Throw e) ≫= k) s = Failed e s.
Proof. reflexivity. Qed.

Lemma at_state_bind name (f : State -> list A) (i : nat) (a : A) (k : A -> M B)
      (s : State) :
  f s !! i = Some a -> (at_state name f (Z.of_nat i) ≫= k) s = k a s.
Proof.
  intros Hi. unfold at_state, gets, liftR, mbind, M_bind.
  rewrite (at_lookup _ _ _ _ Hi). reflexivity.
Qed.

End Monad.

Lemma bind_assoc_M {A B C : Type} (m : M A) (k1 : A -> M B) (k2 : B -> M C) (s : State) :
  ((m ≫= k1) ≫= k2) s = (m ≫= fun a => k1 a ≫= k2) s.
Proof. unfold mbind, M_bind. destruct (m s); reflexivity. Qed.

Lemma modify_bind {B : Type} (g : State -> State) (k : unit -> M B) (s : State) :
  (modify g ≫= k) s = k tt (g s).
Proof. reflexivity. Qed.

Lemma log_bind {B : Type} (e : event) (k : unit -> M B) (s : State) :
  (log e ≫= k) s = k tt (set_trace (trace s ++ [e]) s).
Proof. reflexivity. Qed.

(** One step of symbolic execution: the first statement of the program is
    one whose effect is known. *)
Ltac mstep :=
  first [ rewrite bind_assoc_M | rewrite ret_bind_M | rewrite gets_bind | rewrite liftR_Ret_bind
        | rewrite liftR_Throw_bind | rewrite modify_bind | rewrite log_bind ];
  cbv beta.

Section Preserves.
Context {B : Type} (f : State -> B).

Lemma preserves_ret {A : Type} (a : A) : preserves f (mret a).
Proof. intros s. reflexivity. Qed.

Lemma preserves_bind {A C : Type} (m : M A) (k : A -> M C) :
  preserves f m -> (forall a, preserves f (k a)) -> preserves f (m ≫= k).
Proof.
  intros Hm Hk s. specialize (Hm s). unfold mbind, M_bind.
  destruct (m s) as [a s1|e s1]; simpl in Hm.
  - rewrite (Hk a s1). exact Hm.
  - exact Hm.
Qed.

Lemma preserves_gets {A : Type} (g : State -> A) : preserves f (gets g).
Proof. intros s. reflexivity. Qed.

Lemma preserves_liftR {A : Type} (r : res A) : preserves f (liftR r).
Proof. intros s. destruct r; reflexivity. Qed.

Lemma preserves_modify (g : State -> State) :
  (forall s, f (g s) = f s) -> preserves f (modify g).
Proof. intros Hg s. apply Hg. Qed.

Lemma preserves_at_state {A : Type} name (g : State -> list A) (i : Z) :
  preserves f (at_state name g i).
Proof.
  unfold at_state. apply preserves_bind; [apply preserves_gets|].
  intros v. apply preserves_liftR.
Qed.

Lemma preserves_for_each {L : Type} (body : Z -> L -> M L) (idx : list Z) :
  (forall i l, preserves f (body i l)) -> forall l, preserves f (for_each body idx l).
Proof.
  intros Hbody. induction idx as [|i idx IH]; intros l; simpl.
  - apply preserves_ret.
  - apply preserves_bind; [apply Hbody|exact IH].
Qed.

Lemma preserves_fold_M {A C : Type} (g : C -> A -> M C) (xs : list A) :
  (forall c x, preserves f (g c x)) -> forall c, preserves f (fold_M g xs c).
Proof.
  intros Hg. induction xs as [|x xs IH]; intros c; simpl.
  - apply preserves_ret.
  - apply preserves_bind; [apply Hg|exact IH].
Qed.

End Preserves.

(** Decomposes a [preserves] goal along the structure of the program; what
    is left are the writes to the state and the branches that need an
    argument. *)
Ltac preserves_step :=
  match goal with
  | |- preserves _ (mret _) => apply preserves_ret
  | |- preserves _ (gets _) => apply preserves_gets
  | |- preserves _ (liftR _) => apply preserves_liftR
  | |- preserves _ (at_state _ _ _) => apply preserves_at_state
  | |- preserves _ (_ ≫= _) => apply preserves_bind; [|intros ?]
  | |- preserves _ (for_each _ _ _) => apply preserves_for_each; intros ? ?
  | |- preserves _ (fold_M _ _ _) => apply preserves_fold_M; intros ? ?
  | |- preserves _ (log _) => unfold log
  | |- preserves _ (assign_layer_params _ _) => unfold assign_layer_params
  | |- preserves _ (assign_grads _ _) => unfold assign_grads
  | |- preserves _ (assign_Adam_params _ _) => unfold assign_Adam_params
  | |- preserves _ (modify _) => apply preserves_modify; intros ?; reflexivity
  | |- preserves _ (if ?b then _ else _) => destruct b
  | |- preserves _ (match ?x with _ => _ end) => destruct x
  | |- preserves _ (let _ := _ in _) => cbv zeta
  end.
Ltac preserves_auto := repeat preserves_step.

Section Frames.
Context {std : StdLib} {la : Linalg} {ly : Layers}.

Lemma store_grads_trace (layer : Z) (entry : grad_entry) :
  preserves trace (store_grads layer entry).
Proof. unfold store_grads. preserves_auto. Qed.

Lemma cache_dict_preserves {B : Type} (f : State -> B) (i : Z) :
  preserves f (cache_dict i).
Proof. unfold cache_dict. preserves_auto. Qed.

Lemma back_prop_seed_preserves {B : Type} (f : State -> B) :
  preserves f back_prop_seed.
Proof. unfold back_prop_seed. preserves_auto; apply cache_dict_preserves. Qed.

(** In [back_prop] the two branches that log are guarded by a test that is
    false where it stands. *)
Lemma back_layer_trace (L : Z) (a_in_matrix : Matrix) (layer : Z) (loc : backward_locals) :
  preserves trace (back_layer L a_in_matrix layer loc).
Proof.
  unfold back_layer. apply preserves_bind; [apply preserves_at_state|]. intros ty.
  destruct (String.eqb_spec ty "LSTM") as [->|Hty].
  - (* the recurrent case: [ty] is "LSTM", so it is neither "Relu" nor "Linear" *)
    change (String.eqb "LSTM" "Relu" || String.eqb "LSTM" "Linear") with false.
    cbv iota.
    destruct (layer =? L); [apply preserves_ret|].
    preserves_auto; apply store_grads_trace.
  - (* the feed-forward case: [ty] is not "LSTM" *)
    destruct (String.eqb ty "Relu" || String.eqb ty "Linear"); [|apply preserves_ret].
    destruct (layer =? L); [apply preserves_ret|].
    preserves_auto; try apply cache_dict_preserves; apply store_grads_trace.
Qed.

(** C9: [back_prop] logs an event exactly when it enters the 2D->3D reshape
    branch of the recurrent case or the 3D->2D reshape branch of the
    feed-forward case, and it logs nothing else.  Whatever the state (the
    architecture, the data, the caches) and whether it returns or fails,
    [back_prop] leaves the trace as it found it: neither branch is ever
    executed. *)
Theorem back_prop_reshape_branches_dead (st : State) :
  trace (final_state (back_prop st)) = trace st
  /\ events_of back_prop st = []
  /\ (forall layer, ReshapeInLSTMBranch layer ∉ events_of back_prop st)
  /\ (forall layer, ReshapeInMLPBranch layer ∉ events_of back_prop st).
Proof.
  assert (Htrace : preserves trace back_prop).
  { unfold back_prop. preserves_auto.
    - apply back_prop_seed_preserves.
    - apply back_layer_trace. }
  assert (Hnone : events_of back_prop st = []).
  { unfold events_of. rewrite (Htrace st). apply drop_all. }
  split; [apply Htrace|]. split; [exact Hnone|].
  rewrite Hnone. split; intros layer; apply not_elem_of_nil.
Qed.

End Frames.

(** * Forward propagation *)

Section Forward.
Context {std : StdLib} {la : Linalg} {ly : Layers}.





(** C6 at its failing input: on the architecture [LSTM, Linear] the dense
    call of layer 2 receives the empty matrix [a_out] was initialised with,
    not the last-timestep slice of the hidden state the recurrent layer
    returned, and no reshape took place ([first_mlp_encountered] is false).
    This holds whatever the layers compute. *)
Theorem forward_prop_linear_after_lstm :
  events_of (forward_prop (VTensor3D batch_X)) lstm_linear_state
  = [CallLstmForward 1 batch_X (generateZeros 1 1); CallDense 2 [] false].
Proof. vm_compute. reflexivity. Qed.

End Forward.

(** * Backward propagation *)

Section Backward.
Context {std : StdLib} {la : Linalg} {ly : Layers}.

(** X16: The seed gradient of [back_prop]: the matrix under ["A" + (L-1)] in
    the last layer's cache entry (empty when the key is missing), minus the
    namespace-level [y_train], divided by the number of examples of the
    namespace-level [x_train]. *)
Lemma back_prop_seed_formula (st : State) (X : Tensor3D) (a_in : Matrix)
      (d : matrixDict) (L : nat) :
  L = length (layer_types st) -> (1 <= L)%nat -> Z.of_nat L <= INT_MAX ->
  x_train st = VTensor3D X ->
  reshape_last_timestep_3D X = Ret a_in ->
  cache st !! (L - 1)%nat = Some (CacheDict d) ->
  back_prop_seed st
  = Done (a_in,
          linalg_division_scalar
            (linalg_subtract (default [] (d !! ("A" +:+ to_string (Z.of_nat L - 1))))
                             (y_train st))
            (int_to_double (to_int (Z.of_nat (length X)))))
         st.
Proof.
  intros HL H1 Hmax Hx Hre Hcache. unfold back_prop_seed.
  do 2 mstep. rewrite Hx. simpl get_Tensor3D. mstep. rewrite Hre. mstep.
  rewrite <- HL. rewrite to_int_small by lia.
  unfold cache_dict. mstep.
  replace (Z.of_nat L - 1) with (Z.of_nat (L - 1)) by lia.
  rewrite (at_state_bind _ _ _ _ _ _ Hcache). cbv beta. do 2 mstep.
  reflexivity.
Qed.

(** C1 at its failing input: the dataset given to [init_data] has two
    examples, the minibatch given to [forward_prop] has one.  [back_prop]
    reads the matrix under ["A1"] in the last layer's cache entry, subtracts
    the targets of the whole dataset and divides by 2, the number of examples
    of the whole dataset, not by 1, the size of the minibatch. *)
Theorem back_prop_seed_divides_by_dataset_size :
  back_prop_seed (final_state (forward_prop (VTensor3D batch_X) lstm_linear_state))
  = Done ([[2]; [4]]%float,
          linalg_division_scalar
            (linalg_subtract
               (default [] ((Dense [] (params_of adam_names_mlp 2) linear 2 false).2 !! "A1"))
               dataset_Y)
            2%float)
         (final_state (forward_prop (VTensor3D batch_X) lstm_linear_state))
  /\ length batch_X = 1%nat /\ length dataset_X = 2%nat.
Proof. split; [vm_compute; reflexivity|split; reflexivity]. Qed.

(** C3 at its failing input: one forward pass and one backward pass on the
    architecture [LSTM, Linear] both return, and leave two layer types, two
    layer dimensions, two parameter dictionaries, two cache entries, and no
    gradient entry at all.  This holds whatever the layers compute. *)
Theorem forward_backward_lengths :
  exists st : State,
    (forward_prop (VTensor3D batch_X) ;; back_prop) lstm_linear_state = Done tt st
    /\ length (layer_types st) = 2%nat
    /\ length (layer_dims st) = 2%nat
    /\ length (layer_params st) = 2%nat
    /\ length (cache st) = 2%nat
    /\ length (grads st) = 0%nat.
Proof.
  set (run := (forward_prop (VTensor3D batch_X) ;; back_prop) lstm_linear_state).
  assert (Hrun : match run with
                 | Done _ st => Some [length (layer_types st); length (layer_dims st);
                                      length (layer_params st); length (cache st);
                                      length (grads st)]
                 | Failed _ _ => None
                 end = Some [2; 2; 2; 2; 0]%nat) by (vm_compute; reflexivity).
  clearbody run. destruct run as [[] st|e st]; [|discriminate Hrun].
  exists st. injection Hrun as -> -> -> -> ->. repeat split.
Qed.

Lemma grow_of_preserves {A : Type} (m : M A) :
  preserves grads m -> grads_grow_by 0 m.
Proof. intros Hm s. rewrite (Hm s). lia. Qed.

Lemma grow_bind {A B : Type} (k1 k2 : nat) (m : M A) (k : A -> M B) :
  grads_grow_by k1 m -> (forall a, grads_grow_by k2 (k a)) ->
  grads_grow_by (k1 + k2) (m ≫= k).
Proof.
  intros Hm Hk s. specialize (Hm s). unfold mbind, M_bind.
  destruct (m s) as [a s1|e s1]; simpl in Hm.
  - specialize (Hk a s1). lia.
  - simpl. lia.
Qed.

Lemma grow_weaken {A : Type} (k k' : nat) (m : M A) :
  (k <= k')%nat -> grads_grow_by k m -> grads_grow_by k' m.
Proof. intros Hk Hm s. specialize (Hm s). lia. Qed.

Lemma store_grads_grow (layer : Z) (entry : grad_entry) :
  grads_grow_by 1 (store_grads layer entry).
Proof.
  intros s. unfold store_grads. do 2 mstep.
  destruct (length (grads s) =? length (layer_types s))%nat.
  - unfold assign.
    destruct ((layer <? 0) || (Z.of_nat (length (grads s)) <=? layer)); simpl; [lia|].
    rewrite length_insert. lia.
  - simpl. rewrite length_app. simpl. lia.
Qed.

Lemma back_layer_grow (L : Z) (a_in_matrix : Matrix) (layer : Z) (loc : backward_locals) :
  grads_grow_by (if layer =? L then 0 else 1) (back_layer L a_in_matrix layer loc).
Proof.
  unfold back_layer.
  apply (grow_bind 0 _); [apply grow_of_preserves, preserves_at_state|]. intros ty.
  destruct (String.eqb ty "LSTM").
  - destruct (layer =? L); [apply grow_of_preserves, preserves_ret|].
    apply (grow_bind 0 1).
    { apply grow_of_preserves. preserves_auto. }
    intros loc1. apply (grow_bind 0 1); [apply grow_of_preserves, preserves_at_state|].
    intros [c|d]; [|apply (grow_weaken 0); [lia|apply grow_of_preserves, preserves_ret]].
    cbv zeta.
    apply (grow_bind 0 1); [apply grow_of_preserves, preserves_liftR|]. intros dA.
    apply (grow_bind 1 0); [apply store_grads_grow|].
    intros _. apply grow_of_preserves, preserves_ret.
  - destruct (String.eqb ty "Relu" || String.eqb ty "Linear");
      [|apply (grow_weaken 0); [destruct (layer =? L); lia|
                                apply grow_of_preserves, preserves_ret]].
    destruct (layer =? L); [apply grow_of_preserves, preserves_ret|].
    apply (grow_bind 0 1).
    { apply grow_of_preserves. preserves_auto. }
    intros loc1.
    apply (grow_bind 0 1); [apply grow_of_preserves, cache_dict_preserves|]. intros d.
    apply (grow_bind 0 1); [apply grow_of_preserves, preserves_gets|]. intros y.
    cbv zeta.
    apply (grow_bind 1 0); [apply store_grads_grow|].
    intros _. apply grow_of_preserves, preserves_ret.
Qed.

Lemma back_loop_grow (L : Z) (a_in_matrix : Matrix) (idx : list Z) :
  forall loc, grads_grow_by (length (filter (fun i => i <> L) idx))
                            (for_each (back_layer L a_in_matrix) idx loc).
Proof.
  induction idx as [|i idx IH]; intros loc; simpl for_each.
  - apply grow_of_preserves, preserves_ret.
  - rewrite filter_cons. pose proof (back_layer_grow L a_in_matrix i loc) as Hi.
    destruct (Z.eqb_spec i L) as [->|Hne].
    + rewrite decide_False by congruence.
      apply (grow_bind 0 _); [exact Hi|exact IH].
    + rewrite decide_True by exact Hne. simpl length.
      apply (grow_bind 1 _); [exact Hi|exact IH].
Qed.

Lemma layers_up_S (n : nat) : layers_up (Datatypes.S n) = layers_up n ++ [Z.of_nat (Datatypes.S n)].
Proof. unfold layers_up. rewrite seq_S, map_app. reflexivity. Qed.

Lemma layers_up_range (n : nat) (i : Z) : i ∈ layers_up n -> 1 <= i <= Z.of_nat n.
Proof.
  unfold layers_up. intros Hi. apply list_elem_of_fmap in Hi as (w & -> & Hw).
  apply elem_of_seq in Hw. lia.
Qed.

Lemma store_grads_layer_types (layer : Z) (entry : grad_entry) :
  preserves layer_types (store_grads layer entry).
Proof. unfold store_grads. preserves_auto. Qed.

Lemma back_prop_layer_types : preserves layer_types back_prop.
Proof.
  unfold back_prop. preserves_auto; try apply back_prop_seed_preserves.
  unfold back_layer.
  preserves_auto;
    try apply cache_dict_preserves; try apply store_grads_layer_types.
Qed.

Lemma rev_layers_up_filter (n : nat) :
  (length (filter (fun i => i <> Z.of_nat (Datatypes.S n)) (rev (layers_up (Datatypes.S n))))
   <= n)%nat.
Proof.
  assert (Hlt : (length (filter (fun i => i <> Z.of_nat (Datatypes.S n))
                                (rev (layers_up (Datatypes.S n))))
                 < length (rev (layers_up (Datatypes.S n))))%nat).
  { apply (length_filter_lt _ _ (Z.of_nat (Datatypes.S n))); [|auto].
    apply list_elem_of_In. apply (proj1 (in_rev _ _)).
    rewrite layers_up_S. apply in_or_app. right. left. reflexivity. }
  unfold layers_up in *. rewrite length_rev, length_map, length_seq in Hlt. lia.
Qed.

Lemma layers_up_length (n : nat) : length (layers_up n) = n.
Proof. unfold layers_up. rewrite length_map, length_seq. reflexivity. Qed.

(** X17: After [back_prop], started with no gradient entries, there are
    fewer gradient entries than layers: the iteration for the top layer
    never stores one. *)
Lemma back_prop_grads_shorter (st : State) :
  grads st = [] ->
  (1 <= length (layer_types st))%nat ->
  Z.of_nat (length (layer_types st)) <= INT_MAX ->
  (length (grads (final_state (back_prop st)))
   < length (layer_types (final_state (back_prop st))))%nat.
Proof.
  intros Hgrads H1 Hmax. rewrite (back_prop_layer_types st).
  destruct (length (layer_types st)) as [|n] eqn:HL; [lia|].
  assert (Hgrow : grads_grow_by n
            (seed ← back_prop_seed;
             for_each (back_layer (Z.of_nat (Datatypes.S n)) seed.1)
                      (rev (layers_up (Datatypes.S n)))
                      {| dA_matrix := seed.2; dA_tensor := [] |} ;; mret tt)).
  { apply (grow_bind 0 n); [apply grow_of_preserves, back_prop_seed_preserves|].
    intros seed. replace n with (n + 0)%nat at 1 by lia.
    apply grow_bind; [|intros _; apply grow_of_preserves, preserves_ret].
    eapply grow_weaken; [|apply back_loop_grow].
    apply rev_layers_up_filter. }
  specialize (Hgrow st). rewrite Hgrads in Hgrow.
  change (length (@nil grad_entry)) with 0%nat in Hgrow.
  unfold back_prop. rewrite gets_bind, HL, to_int_small, Nat2Z.id by lia.
  lia.
Qed.

End Backward.

(** * The Adam optimizer *)

Section Adam.
Context {std : StdLib} {la : Linalg} {ly : Layers}.

(** ** The step counter *)

Lemma zeros_like_preserves {B : Type} (f : State -> B) (i : Z) (key : string) :
  (forall v s, f (set_layer_params v s) = f s) ->
  preserves f (zeros_like i key).
Proof.
  intros Hf. unfold zeros_like, assign_layer_params.
  preserves_auto. apply preserves_modify. intros s. apply Hf.
Qed.

Lemma initialize_t X Y batch_size numUnits types dims lr :
  preserves t (initialize X Y batch_size numUnits types dims lr).
Proof.
  unfold initialize, init_data, init_hidden_units, init_layers, initialize_network,
    init_learning_rate, init_Adam, init_moments.
  preserves_auto; apply zeros_like_preserves; reflexivity.
Qed.

Lemma optimize_layer_t (l : Z) : preserves t (optimize_layer l).
Proof.
  unfold optimize_layer, adam_update, grad_map, momentum_step, v_corrected_step,
    rms_step, s_corrected_step, update_step, grad_matrix, grad_map.
  preserves_auto.
Qed.

(** C2 at its failing input, the first [optimize] after the initialisation
    sequence of [main]: the step counter is still 0 (no initialisation
    function writes it, and [optimize] increments it only after the loop),
    so both bias-correction denominators are [1 - pow(beta, 0) = 0] and
    every moment estimate is divided by zero.  [pow(x, 0)] is 1 for every
    [x] (C standard, Annex F). *)
Theorem first_optimize_divides_by_zero X Y batch_size numUnits types dims lr
    (l : Z) (loc : adam_locals) (name : string) :
  (forall x, std_pow x 0 = 1%float) ->
  let st := final_state (initialize X Y batch_size numUnits types dims lr initial_state) in
  t st = 0
  /\ bias_correction beta1 (t st) = 0%float
  /\ bias_correction beta2 (t st) = 0%float
  /\ (forall idx, t (final_state (for_each (fun l _ => optimize_layer l) idx tt st)) = 0)
  /\ v_corrected (match v_corrected_step l loc name st with
                  | Done loc' _ => loc'
                  | Failed _ _ => loc
                  end) !! ("d" +:+ name +:+ to_string (l + 1))
     = Some (linalg_division_scalar (dict_index (v loc) ("d" +:+ name +:+ to_string (l + 1))).1
                                    0%float).
Proof.
  intros Hpow st.
  assert (Ht : t st = 0) by (unfold st; rewrite initialize_t; reflexivity).
  assert (Hbias : forall beta, bias_correction beta (t st) = 0%float).
  { intros beta. rewrite Ht. unfold bias_correction.
    change (int_to_double 0) with 0%float. rewrite Hpow. reflexivity. }
  split; [exact Ht|]. split; [apply Hbias|]. split; [apply Hbias|]. split.
  - intros idx. rewrite (preserves_for_each t _ idx); [exact Ht|].
    intros i []. apply optimize_layer_t.
  - unfold v_corrected_step. cbv zeta. rewrite gets_bind. simpl.
    rewrite lookup_insert_eq, Hbias. reflexivity.
Qed.

(** ** The moment dictionaries *)

Lemma for_each_app {L : Type} (body : Z -> L -> M L) (idx1 idx2 : list Z) :
  forall (l : L) (s : State),
    for_each body (idx1 ++ idx2) l s
    = match for_each body idx1 l s with
      | Done l' s' => for_each body idx2 l' s'
      | Failed e s' => Failed e s'
      end.
Proof.
  induction idx1 as [|i idx1 IH]; intros l s; simpl.
  - reflexivity.
  - unfold mbind, M_bind. destruct (body i l s) as [l' s'|e s']; [apply IH|reflexivity].
Qed.

Lemma optimize_layer_frame {B : Type} (f : State -> B) (l : Z) :
  (forall v s, f (set_trace v s) = f s) ->
  (forall v s, f (set_grads v s) = f s) ->
  (forall v s, f (set_layer_params v s) = f s) ->
  preserves f (optimize_layer l).
Proof.
  intros Htrace Hgrads Hparams.
  unfold optimize_layer, adam_update, grad_map, momentum_step, v_corrected_step,
    rms_step, s_corrected_step, update_step, grad_matrix, grad_map.
  preserves_auto; apply preserves_modify; intros ?; auto.
Qed.

(** The first statement of an iteration reads [Adam_params[l]]; past the end
    of the vector the iteration stops there. *)
Lemma optimize_layer_out_of_range (l : Z) (s : State) :
  Z.of_nat (length (Adam_params s)) <= l ->
  optimize_layer l s
  = Failed (OutOfRange "Adam_params" l) (set_trace (trace s ++ [ReadAdamParams l]) s).
Proof.
  intros Hl. unfold optimize_layer. rewrite log_bind. unfold at_state.
  rewrite bind_assoc_M, gets_bind. cbv beta.
  change (Adam_params (set_trace (trace s ++ [ReadAdamParams l]) s)) with (Adam_params s).
  rewrite at_out_of_range by (right; exact Hl). reflexivity.
Qed.

Lemma assign_Adam_params_length (i : Z) (e : list matrixDict) :
  preserves (fun s => length (Adam_params s)) (assign_Adam_params i e).
Proof.
  intros s. unfold assign_Adam_params. rewrite gets_bind. unfold assign.
  destruct ((i <? 0) || (Z.of_nat (length (Adam_params s)) <=? i)); simpl;
    [reflexivity|apply length_insert].
Qed.

(** [init_Adam] leaves [Adam_params] with one entry per layer, indices
    [0 .. L-1]. *)
Lemma init_Adam_length (st : State) :
  length (Adam_params (final_state (init_Adam st)))
  = length (layer_types (final_state (init_Adam st))).
Proof.
  assert (Htypes : preserves layer_types init_Adam).
  { unfold init_Adam, init_moments. preserves_auto; apply zeros_like_preserves; reflexivity. }
  rewrite (Htypes st). unfold init_Adam. rewrite gets_bind, modify_bind.
  rewrite (preserves_for_each (fun s => length (Adam_params s))).
  - simpl. apply length_resize.
  - intros i []. unfold init_moments.
    repeat first [ apply assign_Adam_params_length
                 | apply (zeros_like_preserves (fun s => length (Adam_params s)));
                   reflexivity
                 | preserves_step ].
Qed.

(** C10 (amended): with [L >= 1] layers and the [L] entries [init_Adam]
    leaves in [Adam_params], the loop of [optimize] runs [l = 1, ..., L] and
    each iteration it starts begins by reading [Adam_params[l]]; index [L] is
    out of bounds, so [optimize] never completes.  It fails at
    [Adam_params[L]] whenever the iterations before the last complete, and
    at once when [L = 1]; an earlier iteration may fail first. *)
Theorem optimize_reads_past_Adam_params (st : State) (n : nat) :
  length (layer_types st) = Datatypes.S n ->
  length (Adam_params st) = Datatypes.S n ->
  layers_up (Datatypes.S n) = layers_up n ++ [Z.of_nat (Datatypes.S n)]
  /\ Adam_params st !! (Datatypes.S n) = None
  /\ (exists e s', optimize st = Failed e s')
  /\ (forall s1,
        for_each (fun l _ => optimize_layer l) (layers_up n) tt st = Done tt s1 ->
        optimize st
        = Failed (OutOfRange "Adam_params" (Z.of_nat (Datatypes.S n)))
                 (set_trace (trace s1 ++ [ReadAdamParams (Z.of_nat (Datatypes.S n))]) s1))
  /\ (n = 0%nat ->
      optimize st
      = Failed (OutOfRange "Adam_params" 1) (set_trace (trace st ++ [ReadAdamParams 1]) st))
  /\ (forall st0, length (Adam_params (final_state (init_Adam st0)))
                  = length (layer_types (final_state (init_Adam st0)))).
Proof.
  intros Htypes Hadam.
  assert (Hlast : forall s1,
             for_each (fun l _ => optimize_layer l) (layers_up n) tt st = Done tt s1 ->
             optimize st
             = Failed (OutOfRange "Adam_params" (Z.of_nat (Datatypes.S n)))
                      (set_trace (trace s1 ++ [ReadAdamParams (Z.of_nat (Datatypes.S n))]) s1)).
  { intros s1 Hs1. unfold optimize. rewrite gets_bind, Htypes, layers_up_S.
    unfold mbind at 1, M_bind at 1. rewrite for_each_app, Hs1. simpl for_each.
    assert (Hsame : Adam_params s1 = Adam_params st).
    { pose proof (preserves_for_each Adam_params (fun l _ => optimize_layer l)
                    (layers_up n)) as Hp.
      specialize (Hp (fun i _ => optimize_layer_frame Adam_params i
                                   (fun _ _ => eq_refl) (fun _ _ => eq_refl)
                                   (fun _ _ => eq_refl)) tt st).
      rewrite Hs1 in Hp. exact Hp. }
    unfold mbind at 1, M_bind at 1.
    rewrite optimize_layer_out_of_range by (rewrite Hsame, Hadam; lia).
    reflexivity. }
  split; [apply layers_up_S|].
  split; [apply lookup_ge_None_2; lia|].
  split; [|split; [exact Hlast|split; [|exact init_Adam_length]]].
  - destruct (for_each (fun l _ => optimize_layer l) (layers_up n) tt st)
      as [[] s1|e s1] eqn:Hrun.
    + rewrite (Hlast s1 eq_refl). eauto.
    + exists e, s1. unfold optimize. rewrite gets_bind, Htypes, layers_up_S.
      unfold mbind at 1, M_bind at 1. rewrite for_each_app, Hrun. reflexivity.
  - intros ->. apply (Hlast st). reflexivity.
Qed.

(** C4 at its failing input: two recurrent layers and a linear one, after
    initialisation and one forward and one backward pass.  [optimize] does
    not return: the iteration for layer 2 fails on [grads.grads[1]], before
    [Adam_params[3]] would.  The iteration for layer 1 has by then updated
    layer 1's dictionary under the keys ["Wf2", ..., "by2"]: the ten
    matrices ["Wf1", ..., "by1"] are as they were, and ten entries have been
    added.  This holds whatever linalg computes. *)
Theorem optimize_inserts_new_entries :
  exists (s' : State) (p1 : matrixDict),
    optimize lstm_lstm_linear_state = Failed (OutOfRange "grads.grads" 1) s'
    /\ layer_params s' !! 0%nat = Some p1
    /\ size (params_of adam_names_lstm 1) = 10%nat
    /\ size p1 = 20%nat
    /\ Forall (fun name => p1 !! (name +:+ "1") = Some [[0%float]]
                           /\ params_of adam_names_lstm 1 !! (name +:+ "2") = None
                           /\ is_Some (p1 !! (name +:+ "2")))
              adam_names_lstm.
Proof.
  set (run := optimize lstm_lstm_linear_state).
  assert (Hrun :
            match run with
            | Failed e s' =>
                p1 ← layer_params s' !! 0%nat;
                Some (e, size p1,
                      map (fun name => p1 !! (name +:+ "1")) adam_names_lstm,
                      map (fun name => if p1 !! (name +:+ "2") is Some _ then true else false)
                          adam_names_lstm)
            | Done _ _ => None
            end
            = Some (OutOfRange "grads.grads" 1, 20%nat,
                    replicate 10 (Some [[0%float]]), replicate 10 true))
    by (vm_compute; reflexivity).
  clearbody run. destruct run as [|e s']; [discriminate Hrun|].
  destruct (layer_params s' !! 0%nat) as [p1|] eqn:Hp1; [|discriminate Hrun].
  exists s', p1. injection Hrun. intros. subst e.
  split; [reflexivity|]. split; [exact Hp1|].
  split; [vm_compute; reflexivity|]. split; [assumption|].
  repeat constructor; try assumption; try (vm_compute; reflexivity);
    match goal with
    | |- is_Some ?o => destruct o; [eauto|discriminate]
    end.
Qed.

End Adam.

(** A run of C2's theorem: the architecture [LSTM, Linear]. *)
Lemma first_optimize_divides_by_zero_witness :
  t (final_state (initialize (la := linalg_small) (ly := layers_small)
                    dataset_X dataset_Y 1 1 ["LSTM"; "Linear"] [1; 1] 3e-4%float
                    initial_state)) = 0
  /\ bias_correction (std := stdlib_small) beta1 0 = 0%float.
Proof.
  pose proof (first_optimize_divides_by_zero
                (std := stdlib_small) (la := linalg_small) (ly := layers_small)
                dataset_X dataset_Y 1 1 ["LSTM"; "Linear"] [1; 1] 3e-4%float
                1 {| v := ∅; s := ∅; v_corrected := ∅; s_corrected := ∅ |} "W"
                (fun x => eq_refl)) as (Ht & Hb1 & _).
  split; [exact Ht|]. rewrite Ht in Hb1. exact Hb1.
Defined.

(** C10 as stated fails on the architecture [LSTM, Relu, Linear] after
    initialisation and one forward pass, loss and backward pass: the
    iteration for layer 1 reads [Adam_params[1]] and then throws on
    [std::get<gradientDict>(grads.grads[0])], which holds the dense layer's
    gradients; [Adam_params[2]] and [Adam_params[3]] are never read. *)
Lemma optimize_stops_at_first_layer :
  let st := final_state
              ((initialize (la := linalg_small) (ly := layers_small)
                  dataset_X dataset_Y 1 1 ["LSTM"; "Relu"; "Linear"] [1; 1; 1] 3e-4%float;;
                forward_prop (la := linalg_small) (ly := layers_small) (VTensor3D batch_X);;
                loss (std := stdlib_small) (la := linalg_small) batch_Y;;
                back_prop (la := linalg_small) (ly := layers_small)) initial_state) in
  length (layer_types st) = 3%nat
  /\ length (Adam_params st) = 3%nat
  /\ (exists s', optimize (std := stdlib_small) (la := linalg_small) st
                 = Failed (BadVariantAccess "grads.grads") s')
  /\ events_of (optimize (std := stdlib_small) (la := linalg_small)) st = [ReadAdamParams 1].
Proof.
  cbv zeta. split; [vm_compute; reflexivity|]. split; [vm_compute; reflexivity|].
  split; [eexists; vm_compute; reflexivity|vm_compute; reflexivity].
Qed.

(** A run of C10's theorem: a single linear layer, initialised. *)
Lemma optimize_reads_past_Adam_params_witness :
  optimize (std := stdlib_small) (la := linalg_small) linear_state
  = Failed (OutOfRange "Adam_params" 1)
           (set_trace (trace linear_state ++ [ReadAdamParams 1]) linear_state).
Proof.
  apply (optimize_reads_past_Adam_params (std := stdlib_small) (la := linalg_small)
           linear_state 0 eq_refl eq_refl).
  reflexivity.
Defined.

(** * Runs that do not return

    How a sequence of statements ends in an error: its first statement
    throws, or what follows throws wherever the first statement returns. *)

Section Fails.
Context {A B : Type}.

Lemma fails_bind_l (m : M A) (k : A -> M B) (s : State) :
  (exists e s', m s = Failed e s') -> exists e s', (m ≫= k) s = Failed e s'.
Proof.
  intros (e & s' & Hm). exists e, s'. apply bind_Failed. exact Hm.
Qed.

Lemma fails_bind_r (m : M A) (k : A -> M B) (s : State) :
  (forall a s1, m s = Done a s1 -> exists e s', k a s1 = Failed e s') ->
  exists e s', (m ≫= k) s = Failed e s'.
Proof.
  intros Hk. unfold mbind, M_bind. destruct (m s) as [a s1|e s1]; [|eauto].
  apply Hk. reflexivity.
Qed.

(** A statement that leaves [f] alone hands [f] on to what follows. *)
Lemma fails_after {C : Type} (f : State -> C) (m : M A) (k : A -> M B) (s : State) :
  preserves f m ->
  (forall a s1, f s1 = f s -> exists e s', k a s1 = Failed e s') ->
  exists e s', (m ≫= k) s = Failed e s'.
Proof.
  intros Hm Hk. apply fails_bind_r. intros a s1 Hrun. apply Hk.
  specialize (Hm s). rewrite Hrun in Hm. exact Hm.
Qed.

End Fails.

Lemma Done_preserves {A C : Type} (f : State -> C) (m : M A) (s s' : State) (a : A) :
  preserves f m -> m s = Done a s' -> f s' = f s.
Proof. intros Hm Hrun. specialize (Hm s). rewrite Hrun in Hm. exact Hm. Qed.

(** * Invariants of returning runs *)

Section Ensures.
Context {A : Type}.

Lemma ensures_ret (P : State -> Prop) (a : A) : ensures P (mret a) P.
Proof. intros s a' s' HP Hrun. injection Hrun as _ <-. exact HP. Qed.

Lemma ensures_bind {B : Type} (P R Q : State -> Prop) (m : M A) (k : A -> M B) :
  ensures P m R -> (forall a, ensures R (k a) Q) -> ensures P (m ≫= k) Q.
Proof.
  intros Hm Hk s b s' HP Hrun.
  apply bind_Done_inv in Hrun as (a & s1 & Hrun1 & Hrun2).
  exact (Hk a s1 b s' (Hm s a s1 HP Hrun1) Hrun2).
Qed.

Lemma ensures_frame {C : Type} (f : State -> C) (c : C) (m : M A) :
  preserves f m -> ensures (fun s => f s = c) m (fun s => f s = c).
Proof.
  intros Hm s a s' HP Hrun. rewrite (Done_preserves f m s s' a Hm Hrun). exact HP.
Qed.

Lemma ensures_for_each (P : State -> Prop) (body : Z -> A -> M A) (idx : list Z) :
  (forall i l, ensures P (body i l) P) -> forall l, ensures P (for_each body idx l) P.
Proof.
  intros Hbody. induction idx as [|i idx IH]; intros l; simpl for_each.
  - apply ensures_ret.
  - apply (ensures_bind P P P); [apply Hbody|exact IH].
Qed.

Lemma ensures_for_each_in (P : State -> Prop) (body : Z -> A -> M A) (idx : list Z) :
  (forall i l, i ∈ idx -> ensures P (body i l) P) ->
  forall l, ensures P (for_each body idx l) P.
Proof.
  induction idx as [|i idx IH]; intros Hbody l; simpl for_each.
  - apply ensures_ret.
  - apply (ensures_bind P P P); [apply Hbody; left|].
    intros l'. apply IH. intros j l'' Hj. apply Hbody. right. exact Hj.
Qed.

End Ensures.

(** * Minibatch generation: the edge cases *)

Section Minibatches.
Context {std : StdLib}.

Lemma res_bind_inv {A B : Type} (r : res A) (k : A -> res B) (b : B) :
  r ≫= k = Ret b -> exists a, r = Ret a /\ k a = Ret b.
Proof. destruct r as [a|e]; [eauto|discriminate]. Qed.

(** The loop of [generate_minibatches] only ever appends. *)
Lemma minibatch_loop_grows (X sX : Tensor3D) (sY : Matrix) (m batch_size : Z) (fuel : nat) :
  forall (k : Z) (acc r : list minibatch),
    minibatch_loop fuel X sX sY m batch_size k acc = Ret r ->
    (length acc <= length r)%nat.
Proof.
  induction fuel as [|fuel IH]; intros k acc r Hrun; simpl minibatch_loop in Hrun.
  - destruct (k <? m); [discriminate Hrun|]. injection Hrun as <-. lia.
  - destruct (k <? m); [|injection Hrun as <-; lia].
    do 5 (apply res_bind_inv in Hrun as (? & _ & Hrun)).
    apply IH in Hrun. rewrite length_app in Hrun. simpl in Hrun. lia.
Qed.

Lemma minibatch_loop_first (X sX : Tensor3D) (sY : Matrix) (m batch_size : Z) (fuel : nat)
      (acc r : list minibatch) :
  0 < m ->
  minibatch_loop fuel X sX sY m batch_size 0 acc = Ret r ->
  (length acc < length r)%nat.
Proof.
  intros Hm Hrun. destruct fuel as [|fuel]; simpl minibatch_loop in Hrun;
    destruct (Z.ltb_spec 0 m) as [_|]; try lia; [discriminate Hrun|].
  do 5 (apply res_bind_inv in Hrun as (? & _ & Hrun)).
  apply minibatch_loop_grows in Hrun. rewrite length_app in Hrun. simpl in Hrun. lia.
Qed.

(** What [generate_minibatches] returns has at least one minibatch. *)
Lemma generate_minibatches_nonempty (X : Tensor3D) (Y : Matrix) (batch_size seed : Z)
      (r : list minibatch) :
  generate_minibatches X Y batch_size seed = Ret r -> r <> [].
Proof.
  unfold generate_minibatches. cbv zeta. intros Hrun.
  do 2 (apply res_bind_inv in Hrun as (? & _ & Hrun)).
  apply res_bind_inv in Hrun as (first & HX & Hrun).
  do 4 (apply res_bind_inv in Hrun as (? & _ & Hrun)).
  apply minibatch_loop_first in Hrun.
  - intros ->. simpl in Hrun. lia.
  - destruct X; [discriminate HX|]. simpl length. lia.
Qed.

(** X1: [generate_minibatches] never returns an empty vector of minibatches.
    On an empty dataset it does not return at all: whatever the targets, the
    batch size and the seed are, it reads [X[0]] to size [shuffled_X]. *)
Theorem generate_minibatches_never_empty (X : Tensor3D) (Y : Matrix) (batch_size seed : Z) :
  generate_minibatches [] Y batch_size seed = Throw (OutOfRange "X" 0)
  /\ (forall r, generate_minibatches X Y batch_size seed = Ret r -> X <> [] /\ r <> []).
Proof.
  split; [reflexivity|]. intros r Hrun. split.
  - intros ->. discriminate Hrun.
  - exact (generate_minibatches_nonempty _ _ _ _ _ Hrun).
Qed.

(** With batch size 0 every iteration appends an empty minibatch and leaves
    [k] at 0. *)
Lemma minibatch_loop_zero_batch_size (X sX : Tensor3D) (sY : Matrix) (x0 : Matrix)
      (x00 : list float) (m : Z) (fuel : nat) :
  X !! 0%nat = Some x0 -> x0 !! 0%nat = Some x00 -> 0 < m ->
  forall acc, minibatch_loop fuel X sX sY m 0 0 acc = Throw OutOfFuel.
Proof.
  intros HX0 Hx00 Hm. induction fuel as [|fuel IH]; intros acc; simpl minibatch_loop;
    destruct (Z.ltb_spec 0 m) as [_|]; try lia; [reflexivity|].
  change (to_size_t (0 + 0)) with 0.
  replace (to_int (Z.min 0 m)) with 0 by (rewrite Z.min_l by lia; reflexivity).
  rewrite (at_lookup _ _ 0%nat _ HX0). ret_step.
  rewrite (at_lookup _ _ 0%nat _ Hx00). ret_step.
  change (to_size_t (0 - 0)) with 0. change (to_int 0) with 0.
  unfold alloc. simpl. apply IH.
Qed.

(** X2: With batch size 0, on a dataset [generate_minibatches] can otherwise
    process, the loop [for (size_t k = 0; k < m; k += batch_size)] stays at
    [k = 0]: the function does not return, and no number of iterations ends
    the loop. *)
Theorem generate_minibatches_zero_batch_size (X : Tensor3D) (Y : Matrix) (x0 : Matrix)
    (seed : Z) :
  (forall s l, Permutation (std_shuffle s l) l) ->
  X !! 0%nat = Some x0 -> x0 <> [] ->
  length Y = length X ->
  Z.of_nat (length X) <= INT_MAX ->
  generate_minibatches X Y 0 seed = Throw OutOfFuel
  /\ (forall fuel sX sY acc,
        minibatch_loop fuel X sX sY (Z.of_nat (length X)) 0 0 acc = Throw OutOfFuel).
Proof.
  intros Hshuffle HX0 Hx0 HY Hm.
  destruct x0 as [|x00 x0'] eqn:Ex0; [congruence|]. rewrite <- Ex0 in *.
  assert (Hx00 : x0 !! 0%nat = Some x00) by (subst x0; reflexivity).
  assert (Hpos : 0 < Z.of_nat (length X)) by (destruct X; [discriminate HX0|simpl; lia]).
  assert (Hloop : forall fuel sX sY acc,
             minibatch_loop fuel X sX sY (Z.of_nat (length X)) 0 0 acc = Throw OutOfFuel).
  { intros fuel sX sY acc.
    apply (minibatch_loop_zero_batch_size X sX sY x0 x00); assumption. }
  split; [|exact Hloop].
  set (perm := std_shuffle seed (iota (length X))).
  assert (Hperm : Permutation perm (iota (length X))) by apply Hshuffle.
  assert (Hplen : length perm = length X)
    by (rewrite (Permutation_length Hperm); apply iota_length).
  assert (Hrange : forall p, p ∈ perm -> 0 <= p < Z.of_nat (length X)).
  { intros p Hp. apply iota_elem. rewrite <- Hperm. exact Hp. }
  pose proof (INT_MAX_lt _ Hm) as Hm63.
  unfold generate_minibatches. cbv zeta.
  rewrite (alloc_nat "permutation") by exact Hm63. ret_step.
  destruct (Z.ltb_spec INT_MAX (Z.of_nat (length X))) as [|_]; [lia|].
  cbv iota. rewrite Nat2Z.id, iota_loop. ret_step. fold perm.
  rewrite (at_lookup _ _ 0%nat _ HX0). ret_step.
  rewrite (at_lookup _ _ 0%nat _ Hx00). ret_step.
  rewrite (alloc_nat "shuffled_X") by exact Hm63. ret_step.
  rewrite (alloc_nat "shuffled_Y") by exact Hm63. ret_step.
  destruct (shuffle_loop X Y perm
              (replicate (length X) (replicate (length x0) (replicate (length x00) 0%float)))
              (replicate (length X) [0%float]))
    as (sX & sY & Hrun & _ & _);
    try rewrite length_replicate; try assumption; try reflexivity.
  rewrite Hrun. ret_step. apply Hloop.
Qed.

End Minibatches.

(** * Initialisation *)

Section Initialisation.
Context {std : StdLib} {la : Linalg} {ly : Layers}.

Lemma set_layer_params_same (s : State) : set_layer_params (layer_params s) s = s.
Proof. destruct s. reflexivity. Qed.

(** A call of [initialize_network] that returns has appended one dictionary
    per layer to [layer_params] and has touched nothing else: the vector is
    not cleared first. *)
Lemma initialize_network_Done (s s' : State) :
  initialize_network s = Done tt s' ->
  exists new, s' = set_layer_params (layer_params s ++ new) s
              /\ length new = length (layer_types s).
Proof.
  unfold initialize_network. rewrite gets_bind. intros Hrun.
  rewrite <- (layers_up_length (length (layer_types s))).
  revert Hrun. generalize (layers_up (length (layer_types s))) as idx.
  intros idx. revert s s'.
  induction idx as [|i idx IH]; intros s s' Hrun; simpl for_each in Hrun.
  - injection Hrun as <-. exists []. rewrite app_nil_r, set_layer_params_same. auto.
  - apply bind_Done_inv in Hrun as ([] & s1 & Hbody & Hrest).
    assert (Hs1 : exists p, s1 = set_layer_params (layer_params s ++ [p]) s).
    { apply bind_Done_inv in Hbody as (ty & s2 & Hty & Hbody).
      apply (Done_preserves (fun s => s)) in Hty; [|preserves_auto; fail]. subst s2.
      apply bind_Done_inv in Hbody as (p & s2 & Hp & Hbody).
      apply (Done_preserves (fun s => s)) in Hp; [|preserves_auto; fail]. subst s2.
      injection Hbody as <-. eauto. }
    destruct Hs1 as (p & ->).
    destruct (IH _ _ Hrest) as (new & -> & Hlen).
    exists (p :: new). split; [|simpl; rewrite Hlen; reflexivity].
    simpl layer_params. rewrite <- app_assoc. reflexivity.
Qed.

(** X3: When [init_data] was given a [Matrix], [initialize_network] returns
    for every architecture: a recurrent layer gets an empty dictionary (the
    function only prints that it requires a Tensor3D), a dense layer gets
    what [MLP::init_mlp_params] returns for it, any other layer type an
    empty dictionary. *)
Theorem initialize_network_matrix_dataset (s : State) (m : Matrix) :
  x_train s = VMatrix m ->
  exists new,
    initialize_network s = Done tt (set_layer_params (layer_params s ++ new) s)
    /\ length new = length (layer_types s)
    /\ (forall (i : nat) (ty : string),
          layer_types s !! i = Some ty ->
          new !! i = Some (if is_mlp ty
                           then init_mlp_params (layer_dims s) (Z.of_nat i)
                           else ∅)).
Proof.
  intros Hx. unfold initialize_network. rewrite gets_bind.
  match goal with
  | |- context [for_each ?b _ _ _] => set (body := b)
  end.
  assert (Hloop : forall n, (n <= length (layer_types s))%nat ->
            exists new,
              for_each body (layers_up n) tt s
              = Done tt (set_layer_params (layer_params s ++ new) s)
              /\ length new = n
              /\ (forall (i : nat) (ty : string),
                    (i < n)%nat -> layer_types s !! i = Some ty ->
                    new !! i = Some (if is_mlp ty
                                     then init_mlp_params (layer_dims s) (Z.of_nat i)
                                     else ∅))).
  { induction n as [|n IH]; intros Hn.
    - exists []. rewrite app_nil_r, set_layer_params_same.
      split; [reflexivity|]. split; [reflexivity|]. intros i ty Hi. lia.
    - destruct IH as (new & Hrun & Hlen & Hnew); [lia|].
      destruct (lookup_lt_is_Some_2 (layer_types s) n) as [ty Hty]; [lia|].
      exists (new ++ [if is_mlp ty
                      then init_mlp_params (layer_dims s) (Z.of_nat n) else ∅]).
      split; [|split].
      + rewrite layers_up_S, for_each_app, Hrun. simpl for_each. unfold body at 1.
        replace (Z.of_nat (Datatypes.S n) - 1) with (Z.of_nat n) by lia.
        rewrite bind_assoc_M.
        rewrite (at_state_bind "layer_types" layer_types n ty _
                   (set_layer_params (layer_params s ++ new) s) Hty).
        cbv beta. rewrite bind_assoc_M.
        rewrite (app_assoc (layer_params s) new).
        destruct (String.eqb_spec ty "LSTM") as [->|_].
        * rewrite bind_assoc_M, gets_bind.
          change (x_train (set_layer_params (layer_params s ++ new) s)) with (x_train s).
          rewrite Hx. reflexivity.
        * destruct (is_mlp ty); reflexivity.
      + rewrite length_app, Hlen. simpl. lia.
      + intros i ty' Hi Hty'. destruct (Nat.eq_dec i n) as [->|Hne].
        * rewrite lookup_app_r by lia. rewrite Hlen, Nat.sub_diag.
          assert (ty' = ty) by congruence. subst ty'. reflexivity.
        * rewrite lookup_app_l by lia. apply Hnew; [lia|exact Hty']. }
  destruct (Hloop _ (Nat.le_refl _)) as (new & Hrun & Hlen & Hnew).
  exists new. split; [exact Hrun|]. split; [exact Hlen|].
  intros i ty Hty. apply Hnew; [|exact Hty].
  apply lookup_lt_Some in Hty. exact Hty.
Qed.

Lemma assign_layer_params_length (i : Z) (d : matrixDict) :
  preserves (fun s => length (layer_params s)) (assign_layer_params i d).
Proof.
  intros s. unfold assign_layer_params. rewrite gets_bind. unfold assign.
  destruct ((i <? 0) || (Z.of_nat (length (layer_params s)) <=? i)); simpl;
    [reflexivity|apply length_insert].
Qed.

(** [init_Adam] writes to [layer_params] (a key it looks up and does not
    find is inserted) but never changes the number of dictionaries. *)
Lemma init_Adam_layer_params_length :
  preserves (fun s => length (layer_params s)) init_Adam.
Proof.
  unfold init_Adam, init_moments, zeros_like.
  repeat first [ apply assign_layer_params_length | preserves_step ].
Qed.

(** X4: The initialisation sequence of [main], when it returns: the setters
    have stored their arguments, [layer_params] has grown by one dictionary
    per layer, [Adam_params] has exactly one entry per layer, and the step
    counter, the cache, the gradients, the accumulated loss and the
    prediction are as they were. *)
Theorem initialize_postcondition (X : Tensor3D) (Y : Matrix) (batch_size numUnits : Z)
    (types : list string) (dims : list Z) (lr : float) (s0 st : State) :
  initialize X Y batch_size numUnits types dims lr s0 = Done tt st ->
  (layer_types st, layer_dims st, x_train st, y_train st, BATCH_SIZE st, n_hidden st,
   learning_rate st)
  = (types, dims, VTensor3D X, Y, batch_size, numUnits, lr)
  /\ length (layer_params st) = (length (layer_params s0) + length types)%nat
  /\ length (Adam_params st) = length types
  /\ (t st, cache st, grads st, accumulated_loss st, finalPrediction st, trace st)
     = (t s0, cache s0, grads s0, accumulated_loss s0, finalPrediction s0, trace s0).
Proof.
  intros Hrun.
  unfold initialize, init_data, init_hidden_units, init_layers, init_learning_rate in Hrun.
  rewrite !modify_bind in Hrun.
  apply bind_Done_inv in Hrun as ([] & s1 & Hnet & Hrun).
  apply initialize_network_Done in Hnet as (new & -> & Hnew). simpl in Hnew.
  rewrite modify_bind in Hrun.
  match type of Hrun with
  | init_Adam ?s5 = _ =>
      pose proof (init_Adam_length s5) as Hadam;
      pose proof (init_Adam_layer_params_length s5) as Hparams;
      set (s := s5) in *
  end.
  assert (Hframe : preserves
            (fun s => (layer_types s, layer_dims s, x_train s, y_train s, BATCH_SIZE s,
                       n_hidden s, learning_rate s, t s, cache s, grads s,
                       accumulated_loss s, finalPrediction s, trace s)) init_Adam).
  { unfold init_Adam, init_moments. preserves_auto; apply zeros_like_preserves; reflexivity. }
  specialize (Hframe s). cbv beta in Hparams, Hframe.
  rewrite Hrun in Hadam, Hparams, Hframe.
  subst s. simpl in Hadam, Hparams, Hframe.
  injection Hframe as Htypes -> -> -> -> -> -> -> -> -> -> -> ->.
  rewrite Hadam, Hparams, Htypes, length_app, Hnew. auto.
Qed.

End Initialisation.

(** * Shape reconciliation: the error path *)

Lemma for_up_throws {S : Type} (j : nat) :
  forall (P : nat -> S -> Prop) (n : nat) (body : Z -> S -> res S) (lo : Z) (s : S)
         (e : error),
    (j < n)%nat ->
    P 0%nat s ->
    (forall k s, (k < j)%nat -> P k s ->
                 exists s', body (lo + Z.of_nat k) s = Ret s' /\ P (Datatypes.S k) s') ->
    (forall s, P j s -> body (lo + Z.of_nat j) s = Throw e) ->
    for_up body lo n s = Throw e.
Proof.
  induction j as [|j IH]; intros P n body lo s e Hj H0 Hstep Hthrow;
    (destruct n as [|n]; [lia|]); simpl for_up.
  - specialize (Hthrow s H0). rewrite Z.add_0_r in Hthrow. rewrite Hthrow. reflexivity.
  - destruct (Hstep 0%nat s ltac:(lia) H0) as (s1 & Hb & H1).
    rewrite Z.add_0_r in Hb. rewrite Hb. ret_step.
    apply (IH (fun k => P (Datatypes.S k))); [lia|exact H1| |].
    + intros k s2 Hk Hs2.
      destruct (Hstep (Datatypes.S k) s2 ltac:(lia) Hs2) as (s3 & Hb3 & H3).
      exists s3. split; [|exact H3]. rewrite <- Hb3. f_equal. lia.
    + intros s2 Hs2. rewrite <- (Hthrow s2 Hs2). f_equal. lia.
Qed.

(** X5: The 3D->2D extraction throws [invalid_argument] at the first example
    without a timestep, provided it is not the very first example: the
    function reads [hidden_state[0][0]] before its loop, so that for an
    empty first example the check is never reached. *)
Theorem reshape_last_timestep_3D_empty_example (X : Tensor3D) (j : nat)
    (ex0 : Matrix) (f0 : list float) :
  X !! 0%nat = Some ex0 -> ex0 !! 0%nat = Some f0 ->
  X !! j = Some [] ->
  (forall k ex, (k < j)%nat -> X !! k = Some ex -> ex <> []) ->
  Z.of_nat (length X) <= INT_MAX ->
  Z.of_nat (length f0) <= INT_MAX ->
  reshape_last_timestep_3D X = Throw (InvalidArgument "Hidden state is empty")
  /\ reshape_last_timestep_3D ([] :: X) = Throw (OutOfRange "hidden_state[0]" 0).
Proof.
  intros H0 H00 Hj Hbefore HB HF. split; [|reflexivity].
  unfold reshape_last_timestep_3D.
  rewrite (at_lookup _ _ 0%nat _ H0). ret_step.
  rewrite (at_lookup _ _ 0%nat _ H00). ret_step.
  rewrite (to_int_small (Z.of_nat (length f0))) by lia.
  rewrite alloc_nat by (apply INT_MAX_lt, HF). ret_step.
  rewrite (to_int_small (Z.of_nat (length X))) by lia.
  rewrite alloc_nat, Nat2Z.id by (apply INT_MAX_lt, HB). ret_step.
  apply (for_up_throws j (fun _ (v : Matrix) => length v = length X)).
  - apply lookup_lt_Some in Hj. exact Hj.
  - apply length_replicate.
  - intros k v Hk Hlen. rewrite Z.add_0_l.
    assert (Hkn : (k < length X)%nat) by (apply lookup_lt_Some in Hj; lia).
    destruct (lookup_lt_is_Some_2 X k Hkn) as [ex Hex].
    rewrite (at_lookup _ _ _ _ Hex). ret_step.
    destruct (last_is_Some ex (Hbefore k ex Hk Hex)) as [b Hb]. rewrite Hb.
    rewrite assign_in_range by lia.
    eexists. split; [reflexivity|]. rewrite length_insert. exact Hlen.
  - intros v Hlen. rewrite Z.add_0_l.
    rewrite (at_lookup _ _ _ _ Hj). reflexivity.
Qed.

(** * Forward propagation: the statements before the loop *)

Section ForwardPrologue.
Context {std : StdLib} {la : Linalg} {ly : Layers}.

(** X6: [forward_prop] starts with [layer_params[0]["Wy1"]] whatever the
    first layer is. When the first layer's dictionary has no "Wy1" (a dense
    first layer), [operator[]] inserts an empty matrix under that key, and
    the next statement, [Wy[0].size()], reads past the end of it. *)
Theorem forward_prop_missing_Wy1 (x_arg : variantTensor) (s : State) (p0 : matrixDict) :
  layer_params s !! 0%nat = Some p0 ->
  p0 !! "Wy1" = None ->
  forward_prop x_arg s
  = Failed (OutOfRange "Wy" 0)
           (set_layer_params (<[0%nat := <["Wy1" := []]> p0]> (layer_params s)) s).
Proof.
  intros Hp0 Hnone. unfold forward_prop.
  change 0 with (Z.of_nat 0) at 1. rewrite (at_state_bind _ _ _ _ _ _ Hp0). cbv beta zeta.
  unfold dict_index. rewrite Hnone. simpl fst. simpl snd.
  unfold assign_layer_params. rewrite bind_assoc_M, gets_bind.
  destruct (layer_params s) as [|p ps] eqn:Hps; [discriminate Hp0|].
  unfold assign. simpl length.
  destruct (Z.leb_spec (Z.of_nat (Datatypes.S (length ps))) 0) as [Hle|_]; [lia|].
  simpl orb. cbv iota. rewrite bind_assoc_M, liftR_Ret_bind, modify_bind.
  injection Hp0 as ->. reflexivity.
Qed.

(** X7: The parameter of [forward_prop] may hold a [Matrix], and the dense
    branch for a first layer reads it with [std::get<Matrix>]; but the
    statements before the loop read it with [std::get<Tensor3D>], so a call
    with a [Matrix] never returns. *)
Theorem forward_prop_matrix_input (m : Matrix) (s : State) :
  exists e s', forward_prop (VMatrix m) s = Failed e s'.
Proof.
  unfold forward_prop.
  apply fails_bind_r. intros p0 s1 _. cbv zeta.
  apply fails_bind_r. intros _ s2 _.
  apply fails_bind_r. intros wy0 s3 _.
  apply fails_bind_l. exists (BadVariantAccess "x_train"), s3. reflexivity.
Qed.


End ForwardPrologue.

(** * Forward propagation: the cache *)

Section ForwardCache.
Context {std : StdLib} {la : Linalg} {ly : Layers}.

(** [store_cache] appends while the cache is shorter than the architecture
    and replaces once it has one entry per layer. *)
Lemma store_cache_shape (k : nat) (tys : list string) (i : Z) (entry : cache_entry) :
  ensures (fun s => cache_shape s = (k, tys)) (store_cache i entry)
          (fun s => cache_shape s
                    = ((if (k =? length tys)%nat then k else Datatypes.S k), tys)).
Proof.
  intros s [] s' Hshape Hrun. unfold cache_shape in *.
  injection Hshape as Hk Htys. unfold store_cache in Hrun.
  rewrite !gets_bind, Hk, Htys in Hrun.
  destruct (k =? length tys)%nat.
  - unfold assign in Hrun.
    destruct ((i <? 0) || (Z.of_nat (length (cache s)) <=? i)); [discriminate Hrun|].
    rewrite liftR_Ret_bind in Hrun. injection Hrun as <-. simpl.
    rewrite length_insert, Hk, Htys. reflexivity.
  - injection Hrun as <-. simpl. rewrite length_app, Hk, Htys. simpl.
    f_equal. lia.
Qed.

Lemma store_cache_full (tys : list string) (i : Z) (entry : cache_entry) :
  ensures (fun s => cache_shape s = (length tys, tys)) (store_cache i entry)
          (fun s => cache_shape s = (length tys, tys)).
Proof.
  intros s a s' Hshape Hrun.
  pose proof (store_cache_shape (length tys) tys i entry s a s' Hshape Hrun) as Hs.
  rewrite Nat.eqb_refl in Hs. exact Hs.
Qed.

Lemma store_cache_push (k : nat) (tys : list string) (i : Z) (entry : cache_entry) :
  (k < length tys)%nat ->
  ensures (fun s => cache_shape s = (k, tys)) (store_cache i entry)
          (fun s => cache_shape s = (Datatypes.S k, tys)).
Proof.
  intros Hk s a s' Hshape Hrun.
  pose proof (store_cache_shape k tys i entry s a s' Hshape Hrun) as Hs.
  destruct (Nat.eqb_spec k (length tys)); [lia|exact Hs].
Qed.

(** With one entry per layer in the cache, the slot [cache.cache[i]] of the
    last layer ([i = L]) does not exist. *)
Lemma store_cache_full_fails (tys : list string) (i : Z) (entry : cache_entry) (s : State) :
  cache_shape s = (length tys, tys) ->
  Z.of_nat (length tys) <= i ->
  store_cache i entry s = Failed (OutOfRange "cache.cache" i) s.
Proof.
  intros Hshape Hi. unfold cache_shape in Hshape. injection Hshape as Hk Htys.
  unfold store_cache. rewrite !gets_bind, Hk, Htys, Nat.eqb_refl.
  unfold assign. rewrite Hk.
  destruct (Z.leb_spec (Z.of_nat (length tys)) i) as [_|]; [|lia].
  rewrite orb_true_r. reflexivity.
Qed.

(** Decomposes an [ensures] goal about the cache shape along the program:
    [store_cache] is handled by [store], every other statement leaves the
    shape alone. *)
Ltac ensures_step store :=
  lazymatch goal with
  | |- ensures _ (mret _) _ => apply ensures_ret
  | |- ensures _ (if ?b then _ else _) _ => destruct b
  | |- ensures _ (let _ := _ in _) _ => cbv zeta
  | |- ensures _ (store_cache _ _ ≫= _) _ =>
      eapply ensures_bind; [store|intros ?; cbv beta]
  | |- ensures _ (_ ≫= _) _ =>
      eapply ensures_bind;
      [apply (ensures_frame cache_shape); preserves_auto; fail|intros ?; cbv beta]
  end.

(** Once the cache has one entry per layer, an iteration of the loop of
    [forward_prop] that returns leaves it so. *)
Lemma forward_layer_full (tys : list string) (x_arg : variantTensor) (a_initial : Matrix)
      (i : Z) (loc : forward_locals) :
  ensures (fun s => cache_shape s = (length tys, tys))
          (forward_layer x_arg a_initial i loc)
          (fun s => cache_shape s = (length tys, tys)).
Proof.
  unfold forward_layer. repeat ensures_step ltac:(apply store_cache_full).
Qed.

(** While the cache is shorter than the architecture, an iteration for a
    layer of a known type that returns has appended one entry. *)
Lemma forward_layer_push (tys : list string) (x_arg : variantTensor) (a_initial : Matrix)
      (k : nat) (loc : forward_locals) (ty : string) :
  (k < length tys)%nat -> tys !! k = Some ty -> known_layer ty ->
  ensures (fun s => cache_shape s = (k, tys))
          (forward_layer x_arg a_initial (Z.of_nat (Datatypes.S k)) loc)
          (fun s => cache_shape s = (Datatypes.S k, tys)).
Proof.
  intros Hk Hty Hknown s loc' s' Hshape Hrun.
  assert (Htys : layer_types s !! k = Some ty).
  { unfold cache_shape in Hshape. injection Hshape as _ ->. exact Hty. }
  unfold forward_layer in Hrun.
  replace (Z.of_nat (Datatypes.S k) - 1) with (Z.of_nat k) in Hrun by lia.
  rewrite (at_state_bind _ _ _ _ _ _ Htys) in Hrun. cbv beta in Hrun.
  revert Hrun.
  match goal with
  | |- ?m s = _ -> _ =>
      cut (ensures (fun s => cache_shape s = (k, tys)) m
                   (fun s => cache_shape s = (Datatypes.S k, tys)));
      [intros Hm Hrun; exact (Hm s loc' s' Hshape Hrun)|]
  end.
  destruct Hknown as [->|[->| ->]]; cbn [String.eqb Ascii.eqb Bool.eqb andb];
    repeat ensures_step ltac:(apply store_cache_push; exact Hk).
Qed.

(** With one entry per layer in the cache, the iteration for the last layer,
    of a known type, does not return: whichever branch it takes ends in
    [cache.cache[L] = ...]. *)
Lemma forward_layer_full_fails (tys : list string) (x_arg : variantTensor)
      (a_initial : Matrix) (n : nat) (loc : forward_locals) (ty : string) (s : State) :
  cache_shape s = (length tys, tys) ->
  length tys = Datatypes.S n -> tys !! n = Some ty -> known_layer ty ->
  exists e s', forward_layer x_arg a_initial (Z.of_nat (Datatypes.S n)) loc s = Failed e s'.
Proof.
  intros Hshape Hlen Hty Hknown.
  assert (Htys : layer_types s !! n = Some ty).
  { unfold cache_shape in Hshape. injection Hshape as _ ->. exact Hty. }
  unfold forward_layer.
  replace (Z.of_nat (Datatypes.S n) - 1) with (Z.of_nat n) by lia.
  rewrite (at_state_bind _ _ _ _ _ _ Htys). cbv beta.
  destruct Hknown as [->|[->| ->]]; cbn [String.eqb Ascii.eqb Bool.eqb andb];
    repeat
      (cbv zeta;
       lazymatch goal with
       | |- exists e s', (if ?b then _ else _) _ = Failed e s' => destruct b
       | |- exists e s', (store_cache _ _ ≫= _) ?s1 = Failed e s' =>
           apply fails_bind_l; exists (OutOfRange "cache.cache" (Z.of_nat (Datatypes.S n))), s1;
           apply (store_cache_full_fails tys); [assumption|lia]
       | |- exists e s', (_ ≫= _) ?s0 = Failed e s' =>
           apply (fails_after cache_shape); [preserves_auto; fail|];
           let s1 := fresh "s" in
           let Heq := fresh "Heq" in
           intros ? s1 Heq; cbv beta;
           match goal with
           | H : cache_shape s0 = _ |- _ => rewrite <- Heq in H; clear Heq
           end
       end).
Qed.

Lemma forward_loop_push (tys : list string) (x_arg : variantTensor) (a_initial : Matrix) :
  Forall known_layer tys ->
  forall (n k : nat) (loc : forward_locals),
    (k + n <= length tys)%nat ->
    ensures (fun s => cache_shape s = (k, tys))
            (for_each (forward_layer x_arg a_initial)
                      (map Z.of_nat (seq (Datatypes.S k) n)) loc)
            (fun s => cache_shape s = ((k + n)%nat, tys)).
Proof.
  intros Hknown. induction n as [|n IH]; intros k loc Hle; simpl.
  - rewrite Nat.add_0_r. apply ensures_ret.
  - destruct (lookup_lt_is_Some_2 tys k) as [ty Hty]; [lia|].
    eapply ensures_bind.
    + apply (forward_layer_push tys _ _ k loc ty); [lia|exact Hty|].
      exact (proj1 (Forall_lookup _ _) Hknown k ty Hty).
    + intros loc'. replace (k + Datatypes.S n)%nat with (Datatypes.S k + n)%nat by lia.
      apply IH. lia.
Qed.

(** Moves one state-preserving statement of a returning run into the
    hypothesis about the cache shape. *)
Ltac run_frame Hrun Hshape :=
  let a := fresh "a" in
  let s1 := fresh "s" in
  let H1 := fresh "Hstep" in
  apply bind_Done_inv in Hrun as (a & s1 & H1 & Hrun);
  apply (Done_preserves cache_shape) in H1; [|preserves_auto; fail];
  rewrite <- H1 in Hshape; clear H1; cbv beta zeta in Hrun.

(** X9: The first forward pass: started with an empty cache on an
    architecture of known layer types, a call of [forward_prop] that returns
    leaves one cache entry per layer. *)
Theorem forward_prop_first_pass (x_arg : variantTensor) (s s' : State) :
  cache s = [] ->
  Forall known_layer (layer_types s) ->
  forward_prop x_arg s = Done tt s' ->
  length (cache s') = length (layer_types s') /\ layer_types s' = layer_types s.
Proof.
  intros Hcache Hknown Hrun.
  assert (Hshape : cache_shape s = (0%nat, layer_types s))
    by (unfold cache_shape; rewrite Hcache; reflexivity).
  set (tys := layer_types s) in *. clearbody tys.
  unfold forward_prop in Hrun.
  do 4 run_frame Hrun Hshape.
  rewrite gets_bind in Hrun.
  assert (Htys : layer_types s3 = tys) by (injection Hshape as _ ->; reflexivity).
  rewrite Htys in Hrun.
  apply bind_Done_inv in Hrun as (loc & s4 & Hloop & Hrun).
  pose proof (forward_loop_push tys _ _ Hknown (length tys) 0 _ (Nat.le_refl _)
                                _ _ _ Hshape Hloop) as Hend.
  injection Hrun as <-. unfold cache_shape in Hend. simpl in *.
  injection Hend as -> ->. auto.
Qed.

(** X10: A later forward pass: once the cache has one entry per layer,
    [forward_prop] replaces instead of appending, and writes the entry of
    layer [i] to [cache.cache[i]], not [cache.cache[i-1]]. On an
    architecture whose last layer is of a known type the call does not
    return: the iteration for the last layer, if reached, addresses
    [cache.cache[L]]. *)
Theorem forward_prop_later_pass (x_arg : variantTensor) (s : State) (n : nat) (ty : string) :
  length (layer_types s) = Datatypes.S n ->
  length (cache s) = Datatypes.S n ->
  layer_types s !! n = Some ty ->
  known_layer ty ->
  exists e s', forward_prop x_arg s = Failed e s'.
Proof.
  intros Hlen Hcache Hty Hknown.
  assert (Hshape : cache_shape s = (length (layer_types s), layer_types s))
    by (unfold cache_shape; rewrite Hcache, Hlen; reflexivity).
  set (tys := layer_types s) in *. clearbody tys.
  unfold forward_prop.
  do 4 (apply (fails_after cache_shape); [preserves_auto; fail|];
        let Heq := fresh "Heq" in
        intros ? ? Heq; cbv beta zeta; rewrite <- Heq in Hshape; clear Heq).
  rewrite gets_bind.
  assert (Htys : layer_types s3 = tys) by (injection Hshape as _ ->; reflexivity).
  rewrite Htys, Hlen, layers_up_S.
  apply fails_bind_l. rewrite for_each_app.
  destruct (for_each _ (layers_up n) _ s3) as [loc s4|e s4] eqn:Hloop; [|eauto].
  assert (Hfull : cache_shape s4 = (length tys, tys)).
  { exact (ensures_for_each _ _ _ (forward_layer_full tys _ _) _ _ _ _ Hshape Hloop). }
  simpl for_each. apply fails_bind_l.
  apply (forward_layer_full_fails tys _ _ n _ ty); assumption.
Qed.

End ForwardCache.

(** * Forward and backward propagation: what the layers are handed *)

Section LayerCalls.
Context {std : StdLib} {la : Linalg} {ly : Layers}.


(** X23: In [back_prop], the iteration for a dense layer below the top layer
    hands [MLP::mlp_backward] the last-timestep slice of the dataset
    ([a_in_matrix]), the gradient [dA_matrix] as it stands and the
    namespace-level [y_train], stores what it returns, and leaves the loop's
    variables as they were: [dA_matrix] is not replaced by the gradient of
    the layer, so every dense layer is handed the same one. *)
Theorem back_layer_dense_keeps_gradient (L : Z) (a_in_matrix : Matrix) (i : nat)
    (loc : backward_locals) (ty : string) (d : matrixDict) (s : State) :
  layer_types s !! i = Some ty ->
  ty = "Relu" \/ ty = "Linear" ->
  Z.of_nat (Datatypes.S i) <> L ->
  cache s !! i = Some (CacheDict d) ->
  back_layer L a_in_matrix (Z.of_nat (Datatypes.S i)) loc s
  = (store_grads (Z.of_nat (Datatypes.S i))
       (GradMatrices
          (mlp_backward a_in_matrix (dA_matrix loc) (y_train s) d
                        (Z.of_nat (Datatypes.S i))
                        (if String.eqb ty "Relu" then relu else linear)));;
     mret loc) s.
Proof.
  intros Hty Hknown HL Hcache. unfold back_layer.
  replace (Z.of_nat (Datatypes.S i) - 1) with (Z.of_nat i) by lia.
  rewrite (at_state_bind _ _ _ _ _ _ Hty). cbv beta.
  destruct (Z.eqb_spec (Z.of_nat (Datatypes.S i)) L) as [|_]; [contradiction|].
  destruct Hknown as [-> | ->]; cbn [String.eqb Ascii.eqb Bool.eqb andb orb];
    rewrite ret_bind_M; unfold cache_dict;
    rewrite bind_assoc_M, (at_state_bind _ _ _ _ _ _ Hcache); cbv beta;
    rewrite ret_bind_M, gets_bind; reflexivity.
Qed.

(** X24: In [back_prop], the iteration for a recurrent layer [layer] below
    the top layer looks at [cache.cache[layer]], which is the slot the first
    forward pass filled for layer [layer + 1]. When that slot holds a dense
    layer's dictionary the iteration does nothing at all: no call of
    [lstm_backprop], no gradient entry, the loop's variables unchanged. *)
Theorem back_layer_lstm_below_dense (L : Z) (a_in_matrix : Matrix) (i : nat)
    (loc : backward_locals) (d : matrixDict) (s : State) :
  layer_types s !! i = Some "LSTM" ->
  Z.of_nat (Datatypes.S i) <> L ->
  cache s !! (Datatypes.S i) = Some (CacheDict d) ->
  back_layer L a_in_matrix (Z.of_nat (Datatypes.S i)) loc s = Done loc s.
Proof.
  intros Hty HL Hcache. unfold back_layer.
  replace (Z.of_nat (Datatypes.S i) - 1) with (Z.of_nat i) by lia.
  rewrite (at_state_bind _ _ _ _ _ _ Hty). cbv beta.
  change (String.eqb "LSTM" "LSTM") with true. cbv iota.
  destruct (Z.eqb_spec (Z.of_nat (Datatypes.S i)) L) as [|_]; [contradiction|].
  change (String.eqb "LSTM" "Relu" || String.eqb "LSTM" "Linear") with false. cbv iota.
  rewrite ret_bind_M.
  rewrite (at_state_bind _ _ _ _ _ _ Hcache). reflexivity.
Qed.

(** The iteration for the top layer is skipped, whatever its type. *)
Lemma back_layer_top (L : Z) (a_in_matrix : Matrix) (loc loc' : backward_locals)
      (s s' : State) :
  back_layer L a_in_matrix L loc s = Done loc' s' -> loc' = loc /\ s' = s.
Proof.
  unfold back_layer. intros Hrun.
  apply bind_Done_inv in Hrun as (ty & s1 & Hty & Hrun).
  apply (Done_preserves (fun s => s)) in Hty; [|preserves_auto; fail]. subst s1.
  rewrite Z.eqb_refl in Hrun.
  destruct (String.eqb ty "LSTM");
    [|destruct (String.eqb ty "Relu" || String.eqb ty "Linear")];
    injection Hrun as <- <-; auto.
Qed.

(** [store_grads] never touches [grads.grads[0]] once it is there: it
    appends, or replaces the slot of a layer number [>= 1]. *)
Lemma store_grads_keeps_first (g0 : grad_entry) (layer : Z) (entry : grad_entry) :
  1 <= layer ->
  ensures (fun s => grads s !! 0%nat = Some g0) (store_grads layer entry)
          (fun s => grads s !! 0%nat = Some g0).
Proof.
  intros Hlayer s [] s' Hfirst Hrun. unfold store_grads in Hrun.
  rewrite !gets_bind in Hrun.
  destruct (length (grads s) =? length (layer_types s))%nat.
  - unfold assign in Hrun.
    destruct ((layer <? 0) || (Z.of_nat (length (grads s)) <=? layer)); [discriminate Hrun|].
    rewrite liftR_Ret_bind in Hrun. injection Hrun as <-. simpl.
    rewrite list_lookup_insert_ne by lia. exact Hfirst.
  - injection Hrun as <-. simpl. rewrite lookup_app_l; [exact Hfirst|].
    apply lookup_lt_Some in Hfirst. exact Hfirst.
Qed.

Lemma back_layer_keeps_first (g0 : grad_entry) (L : Z) (a_in_matrix : Matrix) (layer : Z)
      (loc : backward_locals) :
  1 <= layer ->
  ensures (fun s => grads s !! 0%nat = Some g0) (back_layer L a_in_matrix layer loc)
          (fun s => grads s !! 0%nat = Some g0).
Proof.
  intros Hlayer. unfold back_layer, cache_dict.
  repeat
    lazymatch goal with
    | |- ensures _ (mret _) _ => apply ensures_ret
    | |- ensures _ (if ?b then _ else _) _ => destruct b
    | |- ensures _ (match ?c with _ => _ end) _ => destruct c
    | |- ensures _ (let _ := _ in _) _ => cbv zeta
    | |- ensures _ (store_grads _ _ ≫= _) _ =>
        eapply ensures_bind;
        [apply store_grads_keeps_first; exact Hlayer|intros ?; cbv beta]
    | |- ensures _ (_ ≫= _) _ =>
        eapply ensures_bind;
        [apply (ensures_frame (fun s => grads s !! 0%nat)); preserves_auto; fail
        |intros ?; cbv beta]
    end.
Qed.

(** X25: [back_prop] stores the gradient entries in the order of its loop,
    from the top layer down. Started with no entries on an architecture of
    [L >= 2] layers whose layer [L-1] is dense, a call that returns leaves
    in [grads.grads[0]] the gradients of layer [L-1], computed from the seed
    gradient and the dictionary in [cache.cache[L-2]]: that slot is where
    [optimize] looks for the gradients of layer 1. *)
Theorem back_prop_stores_top_down (s s' : State) (n : nat) (ty : string) :
  grads s = [] ->
  length (layer_types s) = Datatypes.S (Datatypes.S n) ->
  Z.of_nat (Datatypes.S (Datatypes.S n)) <= INT_MAX ->
  layer_types s !! n = Some ty ->
  ty = "Relu" \/ ty = "Linear" ->
  back_prop s = Done tt s' ->
  exists a_in_matrix seed d,
    back_prop_seed s = Done (a_in_matrix, seed) s
    /\ cache s !! n = Some (CacheDict d)
    /\ grads s' !! 0%nat
       = Some (GradMatrices
                 (mlp_backward a_in_matrix seed (y_train s) d (Z.of_nat (Datatypes.S n))
                               (if String.eqb ty "Relu" then relu else linear))).
Proof.
  intros Hgrads HL Hmax Hty Hknown Hrun.
  unfold back_prop in Hrun. rewrite gets_bind, HL in Hrun.
  rewrite to_int_small, Nat2Z.id in Hrun by lia.
  apply bind_Done_inv in Hrun as ([a_in seed] & s1 & Hseed & Hrun).
  pose proof (Done_preserves (fun s => s) _ _ _ _ (back_prop_seed_preserves _) Hseed) as Hs1.
  simpl in Hs1. subst s1.
  apply bind_Done_inv in Hrun as (locN & s2 & Hloop & Hrun).
  injection Hrun as <-.
  rewrite !layers_up_S, !rev_app_distr in Hloop. simpl app in Hloop.
  simpl for_each in Hloop.
  apply bind_Done_inv in Hloop as (loc1 & s1 & Htop & Hloop).
  apply back_layer_top in Htop as [-> ->].
  apply bind_Done_inv in Hloop as (loc2 & s3 & Hdense & Hloop).
  assert (Hstore : forall e, store_grads (Z.of_nat (Datatypes.S n)) e s
                             = Done tt (set_grads [e] s)).
  { intros e. unfold store_grads. rewrite !gets_bind, Hgrads, HL. reflexivity. }
  unfold back_layer in Hdense.
  replace (Z.of_nat (Datatypes.S n) - 1) with (Z.of_nat n) in Hdense by lia.
  rewrite (at_state_bind _ _ _ _ _ _ Hty) in Hdense. cbv beta in Hdense.
  destruct (Z.eqb_spec (Z.of_nat (Datatypes.S n)) (Z.of_nat (Datatypes.S (Datatypes.S n))))
    as [|_]; [lia|].
  assert (Hs3 : exists d,
             cache s !! n = Some (CacheDict d)
             /\ s3 = set_grads
                       [GradMatrices
                          (mlp_backward a_in seed (y_train s) d (Z.of_nat (Datatypes.S n))
                                        (if String.eqb ty "Relu" then relu else linear))] s).
  { assert (Hbody :
              (layer_cache ← cache_dict (Z.of_nat n);
               y ← gets y_train;
               store_grads (Z.of_nat (Datatypes.S n))
                 (GradMatrices
                    (mlp_backward a_in seed y layer_cache (Z.of_nat (Datatypes.S n))
                                  (if String.eqb ty "Relu" then relu else linear)));;
               mret {| dA_matrix := seed; dA_tensor := [] |}) s
              = Done loc2 s3).
    { destruct Hknown as [-> | ->]; exact Hdense. }
    clear Hdense. unfold cache_dict, at_state in Hbody.
    rewrite !bind_assoc_M, gets_bind in Hbody.
    destruct (at_ "cache.cache" (cache s) (Z.of_nat n)) as [c|e] eqn:Hat;
      [|discriminate Hbody].
    rewrite liftR_Ret_bind in Hbody.
    apply at_Ret in Hat as [_ Hat]. rewrite Nat2Z.id in Hat.
    destruct c as [c|d]; [discriminate Hbody|].
    rewrite ret_bind_M, gets_bind in Hbody.
    rewrite (bind_Done _ _ _ _ _ (Hstore _)) in Hbody.
    injection Hbody as _ <-. exists d. split; [exact Hat|reflexivity]. }
  destruct Hs3 as (d & Hcache & ->).
  exists a_in, seed, d. split; [exact Hseed|]. split; [exact Hcache|].
  match type of Hloop with
  | for_each _ _ _ (set_grads [?g0] _) = _ =>
      apply (ensures_for_each_in (fun st => grads st !! 0%nat = Some g0)
               (back_layer (Z.of_nat (Datatypes.S (Datatypes.S n))) a_in)
               (rev (layers_up n))) in Hloop; [exact Hloop| |reflexivity]
  end.
  intros i l Hi. apply back_layer_keeps_first.
  apply list_elem_of_In, (proj2 (in_rev _ _)), list_elem_of_In in Hi.
  apply layers_up_range in Hi. lia.
Qed.

(** X26: The first iteration of [optimize] takes the gradients of layer 1
    from [grads.grads[0]] with [std::get<gradientDict>]. When the first
    layer is recurrent and that slot holds a dense layer's gradients (as
    after [back_prop] on an architecture of three or more layers with a
    dense layer [L-1]), [optimize] throws [bad_variant_access] there, having
    read [Adam_params[1]] and nothing else. *)
Theorem optimize_first_layer_bad_variant (st : State) (moments : list matrixDict)
    (v0 s0 : matrixDict) (g : matrixDict) :
  Adam_params st !! 1%nat = Some moments ->
  moments !! 0%nat = Some v0 -> moments !! 1%nat = Some s0 ->
  layer_types st !! 0%nat = Some "LSTM" ->
  grads st !! 0%nat = Some (GradMatrices g) ->
  optimize st
  = Failed (BadVariantAccess "grads.grads") (set_trace (trace st ++ [ReadAdamParams 1]) st).
Proof.
  intros Hadam Hv Hs Hty Hgrads. unfold optimize. rewrite gets_bind.
  destruct (length (layer_types st)) as [|n] eqn:HL;
    [apply lookup_lt_Some in Hty; lia|].
  change (layers_up (Datatypes.S n)) with (1 :: map Z.of_nat (seq 2 n)).
  simpl for_each. do 2 apply bind_Failed.
  unfold optimize_layer. rewrite log_bind.
  set (st1 := set_trace (trace st ++ [ReadAdamParams 1]) st).
  change 1 with (Z.of_nat 1) at 1.
  rewrite (at_state_bind "Adam_params" Adam_params 1 moments _ st1 Hadam). cbv beta.
  change 0 with (Z.of_nat 0) at 1. rewrite (at_lookup _ _ _ _ Hv), liftR_Ret_bind.
  change 1 with (Z.of_nat 1) at 1.
  rewrite (at_state_bind "Adam_params" Adam_params 1 moments _ st1 Hadam). cbv beta.
  change 1 with (Z.of_nat 1) at 1. rewrite (at_lookup _ _ _ _ Hs), liftR_Ret_bind.
  cbv zeta. change (1 - 1) with (Z.of_nat 0).
  rewrite (at_state_bind "layer_types" layer_types 0 "LSTM" _ st1 Hty). cbv beta.
  change (String.eqb "LSTM" "LSTM") with true. cbv iota.
  unfold adam_update. apply bind_Failed. unfold grad_map.
  change (1 - 1) with (Z.of_nat 0).
  rewrite (at_state_bind "grads.grads" grads 0 (GradMatrices g) _ st1 Hgrads).
  reflexivity.
Qed.

End LayerCalls.

(** * The loss *)

Section LossAccumulation.
Context {std : StdLib} {la : Linalg}.

Lemma MSE_same_length (pred target : list float) :
  length pred = length target -> MSE pred target = Ret (MSE_formula pred target).
Proof.
  intros Hlen. unfold MSE, MSE_formula, sum_squared_error.
  destruct (Z.eqb_spec (Z.of_nat (length pred)) (Z.of_nat (length target))); [|lia].
  simpl negb. cbv iota.
  pose proof (MSE_loop (length pred) 0 0 pred target eq_refl Hlen) as Hloop.
  change (Z.of_nat 0) with 0 in Hloop. rewrite !drop_0 in Hloop.
  rewrite Hloop. reflexivity.
Qed.

Lemma MSE_mismatch (pred target : list float) :
  length pred <> length target ->
  MSE pred target = Throw (InvalidArgument "Prediction and target sizes do not match").
Proof.
  intros Hne. unfold MSE.
  destruct (Z.eqb_spec (Z.of_nat (length pred)) (Z.of_nat (length target))); [lia|].
  reflexivity.
Qed.

(** X13: [loss] first overwrites [finalPrediction] with its transpose when
    it is a single row of [BATCH_SIZE] elements, then flattens prediction
    and targets. When the flattened lengths agree it adds their mean squared
    error to [accumulated_loss], which it never resets; when they differ it
    throws, with [finalPrediction] already overwritten and the accumulated
    loss as it was. *)
Theorem loss_contract (y_arg : Matrix) (s : State) :
  let fp := if single_row_of_batch (finalPrediction s) (BATCH_SIZE s)
            then linalg_transpose (finalPrediction s) else finalPrediction s in
  let y := if single_row_of_batch y_arg (BATCH_SIZE s)
           then linalg_transpose y_arg else y_arg in
  (length (linalg_reshape fp) = length (linalg_reshape y) ->
   loss y_arg s
   = Done tt (set_accumulated_loss
                (accumulated_loss s + MSE_formula (linalg_reshape fp) (linalg_reshape y))
                (set_finalPrediction fp s)))
  /\ (length (linalg_reshape fp) <> length (linalg_reshape y) ->
      loss y_arg s
      = Failed (InvalidArgument "Prediction and target sizes do not match")
               (set_finalPrediction fp s)).
Proof.
  intros fp y. unfold loss. rewrite !gets_bind. fold fp. rewrite modify_bind. fold y.
  split; intros Hlen.
  - rewrite (MSE_same_length _ _ Hlen). reflexivity.
  - rewrite (MSE_mismatch _ _ Hlen). reflexivity.
Qed.

End LossAccumulation.

(** X14: Before any loss has been accumulated, [return_avg_loss] returns [0]
    for a dataset of at least one example and [0.0 / 0], a NaN, for an empty
    one (as before [init_data]), and leaves the state as it is: the divisor
    is the number of examples of the whole dataset. *)
Theorem return_avg_loss_before_training (s : State) (size : Z) :
  size = match x_train s with
         | VTensor3D x => Z.of_nat (length x)
         | VMatrix m => Z.of_nat (length m)
         end ->
  size < 2 ^ 63 ->
  accumulated_loss s = 0%float ->
  return_avg_loss s = Done (if size =? 0 then nan else 0%float) s.
Proof.
  intros Hsize Hmax Hacc. unfold return_avg_loss. rewrite !gets_bind, Hacc, <- Hsize.
  unfold mret, M_ret. f_equal.
  destruct (Z.eqb_spec size 0) as [->|Hne]; [reflexivity|].
  apply zero_div_size. destruct (x_train s); lia.
Qed.

(** * Backward propagation and the optimizer: what a call needs *)

Section Preconditions.
Context {std : StdLib} {la : Linalg} {ly : Layers}.

(** X15: [back_prop] returns only if the dataset given to [init_data] is a
    tensor, there is at least one layer, and the cache entry of the last
    layer holds a dense layer's dictionary: right after initialisation (no
    forward pass yet), and on an architecture that ends in a recurrent
    layer, it does not return. *)
Theorem back_prop_needs_dense_cache (s s' : State) :
  Z.of_nat (length (layer_types s)) <= INT_MAX ->
  back_prop s = Done tt s' ->
  exists (X : Tensor3D) (d : matrixDict) (n : nat),
    x_train s = VTensor3D X
    /\ length (layer_types s) = Datatypes.S n
    /\ cache s !! n = Some (CacheDict d).
Proof.
  intros Hmax Hrun. unfold back_prop in Hrun. rewrite gets_bind in Hrun.
  apply bind_Done_inv in Hrun as (seed & s1 & Hseed & _).
  unfold back_prop_seed in Hseed. rewrite !gets_bind in Hseed.
  rewrite to_int_small in Hseed by lia.
  destruct (x_train s) as [m|X]; [discriminate Hseed|].
  simpl get_Tensor3D in Hseed. rewrite liftR_Ret_bind in Hseed.
  apply bind_Done_inv in Hseed as (a_in & s2 & Hre & Hseed).
  apply (Done_preserves (fun s => s)) in Hre; [|preserves_auto; fail]. subst s2.
  apply bind_Done_inv in Hseed as (d & s2 & Hcache & _).
  unfold cache_dict, at_state in Hcache. rewrite bind_assoc_M, gets_bind in Hcache.
  destruct (at_ "cache.cache" (cache s) (Z.of_nat (length (layer_types s)) - 1))
    as [c|e] eqn:Hat; [|discriminate Hcache].
  rewrite liftR_Ret_bind in Hcache.
  apply at_Ret in Hat as [Hpos Hlookup].
  destruct c as [c|d']; [discriminate Hcache|].
  exists X, d', (Z.to_nat (Z.of_nat (length (layer_types s)) - 1)).
  split; [reflexivity|]. split; [lia|exact Hlookup].
Qed.

(** X18: [init_Adam] looks its keys up with [operator[]]. When the
    dictionary of a recurrent first layer has no "Wf1" (as after
    [initialize_network] on a [Matrix] dataset), the lookup inserts an empty
    matrix under that key, and [init_Adam] throws at
    [layer_params[0]["Wf1"][0]] with [Adam_params] resized and nothing else
    done. *)
Theorem init_Adam_missing_key (s : State) (p : matrixDict) :
  layer_types s !! 0%nat = Some "LSTM" ->
  layer_params s !! 0%nat = Some p ->
  p !! "Wf1" = None ->
  init_Adam s
  = Failed (OutOfRange "Wf1" 0)
           (set_layer_params (<[0%nat := <["Wf1" := []]> p]> (layer_params s))
              (set_Adam_params (resize (length (layer_types s)) [] (Adam_params s)) s)).
Proof.
  intros Hty Hp Hnone. unfold init_Adam. rewrite gets_bind, modify_bind.
  destruct (length (layer_types s)) as [|n] eqn:HL;
    [apply lookup_lt_Some in Hty; lia|].
  set (s1 := set_Adam_params (resize (Datatypes.S n) [] (Adam_params s)) s).
  change (layers_up (Datatypes.S n)) with (1 :: map Z.of_nat (seq 2 n)).
  simpl for_each. apply bind_Failed.
  change (1 - 1) with (Z.of_nat 0).
  rewrite (at_state_bind "layer_types" layer_types 0 "LSTM" _ s1 Hty). cbv beta.
  change (String.eqb "LSTM" "LSTM") with true. cbv iota.
  apply bind_Failed. simpl fold_M. apply bind_Failed.
  unfold init_moments. cbv zeta. apply bind_Failed.
  change ("W" +:+ "f" +:+ to_string 1) with "Wf1".
  unfold zeros_like. change (1 - 1) with (Z.of_nat 0).
  rewrite (at_state_bind "layer_params" layer_params 0 p _ s1 Hp). cbv beta zeta.
  unfold dict_index. rewrite Hnone. simpl fst. simpl snd.
  unfold assign_layer_params. rewrite bind_assoc_M, gets_bind.
  change (layer_params s1) with (layer_params s). change (Z.of_nat 0) with 0.
  destruct (layer_params s) as [|p0 ps] eqn:Hps; [discriminate Hp|].
  injection Hp as ->.
  unfold assign. simpl length.
  destruct (Z.leb_spec (Z.of_nat (Datatypes.S (length ps))) 0) as [Hle|_]; [lia|].
  simpl orb. cbv iota. rewrite bind_assoc_M, liftR_Ret_bind, modify_bind.
  reflexivity.
Qed.

(** X19: [optimize] copies the moment dictionaries out of [Adam_params] and
    never writes them back: whether it returns or throws, [Adam_params] is
    as it was before the call. *)
Theorem optimize_discards_moments (s : State) :
  Adam_params (final_state (optimize s)) = Adam_params s.
Proof.
  revert s. change (preserves Adam_params optimize).
  unfold optimize. preserves_auto.
  apply optimize_layer_frame; reflexivity.
Qed.

(** X20: After [init_Adam] ([Adam_params] has one entry per layer, and there
    is at least one layer) [optimize] throws inside its loop, before [t +=
    1]: the step counter keeps its value, however often [optimize] is
    called. *)
Theorem optimize_never_increments_t (s : State) :
  length (Adam_params s) = length (layer_types s) ->
  layer_types s <> [] ->
  exists e s',
    optimize s = Failed e s'
    /\ t s' = t s
    /\ length (Adam_params s') = length (layer_types s')
    /\ layer_types s' = layer_types s.
Proof.
  intros Hadam Hne.
  assert (Hloop : exists e s',
             for_each (fun l _ => optimize_layer l)
                      (layers_up (length (layer_types s))) tt s = Failed e s').
  { destruct (length (layer_types s)) as [|n] eqn:HL;
      [destruct (layer_types s); [congruence|discriminate HL]|].
    rewrite layers_up_S, for_each_app.
    destruct (for_each _ (layers_up n) tt s) as [[] s1|e s1] eqn:Hrun; [|eauto].
    assert (Hsame : Adam_params s1 = Adam_params s).
    { pose proof (preserves_for_each Adam_params (fun l _ => optimize_layer l)
                    (layers_up n)
                    (fun i _ => optimize_layer_frame Adam_params i
                                  (fun _ _ => eq_refl) (fun _ _ => eq_refl)
                                  (fun _ _ => eq_refl)) tt s) as Hp.
      rewrite Hrun in Hp. exact Hp. }
    simpl for_each. apply fails_bind_l.
    rewrite optimize_layer_out_of_range by (rewrite Hsame, Hadam; lia). eauto. }
  destruct Hloop as (e & s' & Hloop). exists e, s'.
  assert (Hframe : forall {B : Type} (f : State -> B),
             (forall v s, f (set_trace v s) = f s) ->
             (forall v s, f (set_grads v s) = f s) ->
             (forall v s, f (set_layer_params v s) = f s) ->
             f s' = f s).
  { intros B f H1 H2 H3.
    pose proof (preserves_for_each f (fun l _ => optimize_layer l)
                  (layers_up (length (layer_types s)))
                  (fun i _ => optimize_layer_frame f i H1 H2 H3) tt s) as Hp.
    rewrite Hloop in Hp. exact Hp. }
  split.
  - unfold optimize. rewrite gets_bind. apply bind_Failed. exact Hloop.
  - rewrite (Hframe _ t), (Hframe _ Adam_params), (Hframe _ layer_types) by reflexivity.
    auto.
Qed.

End Preconditions.

(** * The training driver *)

Section Training.
Context {std : StdLib} {la : Linalg} {ly : Layers}.








End Training.

(** * Runs of the theorems above on the scenarios *)

(** A run of X2: two examples, batch size 0. *)
Lemma generate_minibatches_zero_batch_size_witness :
  generate_minibatches (std := stdlib_small) dataset_X dataset_Y 0 7 = Throw OutOfFuel.
Proof.
  apply (generate_minibatches_zero_batch_size (std := stdlib_small)
           dataset_X dataset_Y [[1]; [2]]%float 7).
  - intros s l. simpl. symmetry. apply Permutation_rev.
  - reflexivity.
  - discriminate.
  - reflexivity.
  - simpl. unfold INT_MAX. lia.
Defined.

(** A run of X3: one Relu layer over a matrix dataset. *)
Lemma initialize_network_matrix_dataset_witness :
  exists new,
    initialize_network (ly := layers_small) relu_matrix_state
    = Done tt (set_layer_params (layer_params relu_matrix_state ++ new) relu_matrix_state)
    /\ length new = 1%nat.
Proof.
  destruct (initialize_network_matrix_dataset (ly := layers_small) relu_matrix_state
              [[1]; [2]]%float eq_refl) as (new & Hrun & Hlen & _).
  exists new. split; [exact Hrun|exact Hlen].
Defined.

(** A run of X4: the architecture [LSTM, Linear], from the initial state. *)
Lemma initialize_postcondition_witness :
  length (Adam_params
            (final_state (initialize (la := linalg_small) (ly := layers_small)
                            dataset_X dataset_Y 1 1 ["LSTM"; "Linear"] [1; 1] 3e-4%float
                            initial_state))) = 2%nat.
Proof.
  assert (Hrun : initialize (la := linalg_small) (ly := layers_small)
                   dataset_X dataset_Y 1 1 ["LSTM"; "Linear"] [1; 1] 3e-4%float
                   initial_state
                 = Done tt (final_state
                              (initialize (la := linalg_small) (ly := layers_small)
                                 dataset_X dataset_Y 1 1 ["LSTM"; "Linear"] [1; 1]
                                 3e-4%float initial_state)))
    by (vm_compute; reflexivity).
  destruct (initialize_postcondition _ _ _ _ _ _ _ _ _ Hrun) as (_ & _ & Hadam & _).
  exact Hadam.
Defined.

(** A run of X5: the second of three examples has no timestep. *)
Lemma reshape_last_timestep_3D_empty_example_witness :
  reshape_last_timestep_3D [[[1]]; []; [[3]]]%float
  = Throw (InvalidArgument "Hidden state is empty").
Proof.
  apply (reshape_last_timestep_3D_empty_example [[[1]]; []; [[3]]]%float 1
           [[1]]%float [1]%float).
  - reflexivity.
  - reflexivity.
  - reflexivity.
  - intros k ex Hk Hex. assert (k = 0%nat) as -> by lia.
    injection Hex as <-. discriminate.
  - simpl. unfold INT_MAX. lia.
  - simpl. unfold INT_MAX. lia.
Defined.

(** A run of X6: a single linear layer, whose dictionary holds ["W1"] and
    ["b1"]. *)
Lemma forward_prop_missing_Wy1_witness :
  forward_prop (la := linalg_small) (ly := layers_small) (VTensor3D batch_X) linear_state
  = Failed (OutOfRange "Wy" 0)
           (set_layer_params [<["Wy1" := []]> (params_of adam_names_mlp 1)] linear_state).
Proof.
  apply (forward_prop_missing_Wy1 (la := linalg_small) (ly := layers_small)
           (VTensor3D batch_X) linear_state (params_of adam_names_mlp 1)).
  - reflexivity.
  - vm_compute. reflexivity.
Defined.


(** A run of X9: the first forward pass on the architecture [LSTM, Linear]. *)
Lemma forward_prop_first_pass_witness :
  length (cache (final_state (forward_prop (la := linalg_small) (ly := layers_small)
                                (VTensor3D batch_X) lstm_linear_state)))
  = length (layer_types (final_state (forward_prop (la := linalg_small) (ly := layers_small)
                                        (VTensor3D batch_X) lstm_linear_state))).
Proof.
  apply (forward_prop_first_pass (la := linalg_small) (ly := layers_small)
           (VTensor3D batch_X) lstm_linear_state).
  - reflexivity.
  - constructor; [left; reflexivity|].
    constructor; [right; right; reflexivity|constructor].
  - vm_compute. reflexivity.
Defined.

(** A run of X10: a second forward pass on the architecture [LSTM, Linear]. *)
Lemma forward_prop_later_pass_witness :
  exists e s',
    forward_prop (la := linalg_small) (ly := layers_small) (VTensor3D batch_X)
                 after_first_pass
    = Failed e s'.
Proof.
  apply (forward_prop_later_pass (la := linalg_small) (ly := layers_small)
           (VTensor3D batch_X) after_first_pass 1 "Linear").
  - reflexivity.
  - reflexivity.
  - reflexivity.
  - right. right. reflexivity.
Defined.



(** A run of X14: the average loss before [init_data]. *)
Lemma return_avg_loss_before_training_witness :
  return_avg_loss initial_state = Done nan initial_state.
Proof.
  exact (return_avg_loss_before_training initial_state 0 eq_refl eq_refl eq_refl).
Defined.

(** A run of X15: [back_prop] after a forward pass on [LSTM, Linear]. *)
Lemma back_prop_needs_dense_cache_witness :
  exists (X : Tensor3D) (d : matrixDict) (n : nat),
    x_train (final_state (forward_prop (la := linalg_small) (ly := layers_small)
                            (VTensor3D batch_X) lstm_linear_state)) = VTensor3D X
    /\ length (layer_types
                 (final_state (forward_prop (la := linalg_small) (ly := layers_small)
                                 (VTensor3D batch_X) lstm_linear_state)))
       = Datatypes.S n
    /\ cache (final_state (forward_prop (la := linalg_small) (ly := layers_small)
                             (VTensor3D batch_X) lstm_linear_state)) !! n
       = Some (CacheDict d).
Proof.
  apply (back_prop_needs_dense_cache (la := linalg_small) (ly := layers_small)
           (final_state (forward_prop (la := linalg_small) (ly := layers_small)
                           (VTensor3D batch_X) lstm_linear_state))
           (final_state
              (back_prop (la := linalg_small) (ly := layers_small)
                 (final_state (forward_prop (la := linalg_small) (ly := layers_small)
                                 (VTensor3D batch_X) lstm_linear_state))))).
  - vm_compute. discriminate.
  - vm_compute. reflexivity.
Defined.

(** A run of X16: the dataset has two examples, the last cache entry no
    ["A1"]. *)
Lemma back_prop_seed_formula_witness :
  back_prop_seed (la := linalg_small) after_first_pass
  = Done ([[2]; [4]]%float,
          linalg_division_scalar (Linalg := linalg_small)
            (linalg_subtract (Linalg := linalg_small) [] dataset_Y) 2%float)
         after_first_pass.
Proof.
  assert (H1 : (1 <= 2)%nat) by lia.
  assert (Hmax : Z.of_nat 2 <= INT_MAX) by (unfold INT_MAX; lia).
  rewrite (back_prop_seed_formula (la := linalg_small) after_first_pass dataset_X
             [[2]; [4]]%float ∅ 2 eq_refl H1 Hmax eq_refl eq_refl eq_refl).
  reflexivity.
Defined.

(** A run of X17: the architecture [LSTM, Linear] before any forward pass. *)
Lemma back_prop_grads_shorter_witness :
  (length (grads (final_state (back_prop (la := linalg_small) (ly := layers_small)
                                 lstm_linear_state)))
   < length (layer_types (final_state (back_prop (la := linalg_small) (ly := layers_small)
                                         lstm_linear_state))))%nat.
Proof.
  apply (back_prop_grads_shorter (la := linalg_small) (ly := layers_small)
           lstm_linear_state).
  - reflexivity.
  - simpl. lia.
  - simpl. unfold INT_MAX. lia.
Defined.

(** A run of X18: a recurrent layer with an empty dictionary. *)
Lemma init_Adam_missing_key_witness :
  init_Adam (la := linalg_small) lstm_matrix_state
  = Failed (OutOfRange "Wf1" 0)
           (set_layer_params [{[ "Wf1" := [] ]}]
              (set_Adam_params [[]] lstm_matrix_state)).
Proof.
  exact (init_Adam_missing_key (la := linalg_small) lstm_matrix_state ∅
           eq_refl eq_refl eq_refl).
Defined.

(** A run of X20: a single linear layer, initialised. *)
Lemma optimize_never_increments_t_witness :
  exists e s',
    optimize (std := stdlib_small) (la := linalg_small) linear_state = Failed e s'
    /\ t s' = t linear_state
    /\ length (Adam_params s') = length (layer_types s')
    /\ layer_types s' = layer_types linear_state.
Proof.
  apply (optimize_never_increments_t (std := stdlib_small) (la := linalg_small)
           linear_state).
  - reflexivity.
  - discriminate.
Defined.


(** A run of X23: the Relu layer of [LSTM, Relu, Linear]. *)
Lemma back_layer_dense_keeps_gradient_witness :
  back_layer (ly := layers_small) 3 [[2]; [4]]%float 2
             {| dA_matrix := [[1%float]]; dA_tensor := [] |} lstm_relu_linear_state
  = (store_grads 2
       (GradMatrices
          (mlp_backward (Layers := layers_small) [[2]; [4]]%float [[1%float]] dataset_Y ∅ 2
                        relu));;
     mret {| dA_matrix := [[1%float]]; dA_tensor := [] |}) lstm_relu_linear_state.
Proof.
  assert (HL : Z.of_nat 2 <> 3) by lia.
  exact (back_layer_dense_keeps_gradient (ly := layers_small)
           3 [[2]; [4]]%float 1 {| dA_matrix := [[1%float]]; dA_tensor := [] |}
           "Relu" ∅ lstm_relu_linear_state eq_refl (or_introl eq_refl) HL eq_refl).
Defined.

(** A run of X24: the recurrent layer of [LSTM, Relu, Linear]. *)
Lemma back_layer_lstm_below_dense_witness :
  back_layer (ly := layers_small) 3 [[2]; [4]]%float 1
             {| dA_matrix := [[1%float]]; dA_tensor := [] |} lstm_relu_linear_state
  = Done {| dA_matrix := [[1%float]]; dA_tensor := [] |} lstm_relu_linear_state.
Proof.
  assert (HL : Z.of_nat 1 <> 3) by lia.
  exact (back_layer_lstm_below_dense (ly := layers_small)
           3 [[2]; [4]]%float 0 {| dA_matrix := [[1%float]]; dA_tensor := [] |}
           ∅ lstm_relu_linear_state eq_refl HL eq_refl).
Defined.

(** A run of X25: [back_prop] on [LSTM, Relu, Linear] after a first forward
    pass. *)
Lemma back_prop_stores_top_down_witness :
  exists a_in_matrix seed d,
    back_prop_seed (la := linalg_small) lstm_relu_linear_state
    = Done (a_in_matrix, seed) lstm_relu_linear_state
    /\ cache lstm_relu_linear_state !! 1%nat = Some (CacheDict d)
    /\ grads (final_state (back_prop (la := linalg_small) (ly := layers_small)
                              lstm_relu_linear_state)) !! 0%nat
       = Some (GradMatrices
                 (mlp_backward (Layers := layers_small) a_in_matrix seed
                               (y_train lstm_relu_linear_state) d (Z.of_nat 2) relu)).
Proof.
  apply (back_prop_stores_top_down (la := linalg_small) (ly := layers_small)
           lstm_relu_linear_state
           (final_state (back_prop (la := linalg_small) (ly := layers_small)
                           lstm_relu_linear_state))
           1 "Relu").
  - reflexivity.
  - reflexivity.
  - simpl. unfold INT_MAX. lia.
  - reflexivity.
  - left. reflexivity.
  - vm_compute. reflexivity.
Defined.

(** A run of X26: [optimize] after initialisation, a forward and a backward
    pass on [LSTM, Relu, Linear]. *)
Lemma optimize_first_layer_bad_variant_witness :
  optimize (std := stdlib_small) (la := linalg_small) trained_once_state
  = Failed (BadVariantAccess "grads.grads")
           (set_trace (trace trained_once_state ++ [ReadAdamParams 1]) trained_once_state).
Proof.
  apply (optimize_first_layer_bad_variant (std := stdlib_small) (la := linalg_small)
           trained_once_state (moments_of adam_names_mlp 2)
           (params_of (map (String.append "d") adam_names_mlp) 2)
           (params_of (map (String.append "d") adam_names_mlp) 2) ∅); reflexivity.
Defined.
